(** * PAGE-XML to DraCor-TEI conversion: a shallow embedding of
    [ocr_to_dracor_tei.py] and the properties of its reading-order
    recovery and of its front/body transducer.

    Layout of the development:
    - Part I   Python values: exceptions, stable sort, [str] operations
    - Part II  the parsed PAGE document and the ElementPath queries used
    - Part III [TextLine], [TextRegion], [Page]
    - Part IV  lxml elements under construction (a store of nodes), the
               incremental writer, the [Conversion] object and its methods
    - Part V   sample inputs
    - Part VI  lemmas and theorems
    - Part VII further properties of the geometry
    - Part VIII further properties of the conversion *)

From Stdlib Require Import ZArith String Ascii List Lia Sorted Permutation.
From stdpp Require Import base tactics option list gmap strings sorting pretty functions.

Set Warnings "-register-all".

Local Open Scope Z_scope.

(* ===================================================================== *)
(** * Part I. Python values *)
(* ===================================================================== *)

(** The exceptions the program can meet.  [OSError] stands for a page file
    that cannot be read or parsed. *)
Inductive exn : Type :=
  | IndexError | ValueError | AttributeError | TypeError | UnboundLocalError
  | OSError.

Global Instance exn_eq_dec : EqDecision exn.
Proof. solve_decision. Defined.

(** The outcome of a Python expression: a value or a raised exception. *)
Inductive result (A : Type) : Type :=
  | Ok (a : A)
  | Raise (e : exn).
Global Arguments Ok {A} a.
Global Arguments Raise {A} e.

Global Instance result_ret : MRet result := fun A a => Ok a.
Global Instance result_bind : MBind result := fun A B f r =>
  match r with Ok a => f a | Raise e => Raise e end.
Global Instance result_fmap : FMap result := fun A B f r =>
  match r with Ok a => Ok (f a) | Raise e => Raise e end.

(** [l[0]] and [l[-1]] on a Python list. *)
Definition py_first {A} (l : list A) : result A :=
  match l with [] => Raise IndexError | a :: _ => Ok a end.

Definition py_last {A} (l : list A) : result A :=
  match list.last l with None => Raise IndexError | Some a => Ok a end.

(** ** [list.sort(key=...)] and [sorted(..., key=...)]

    Python's sort is stable: elements whose keys compare equal keep their
    relative order.  The result of a stable sort is unique, so it is given
    here by insertion: going through the list from its end, each element is
    put in front of the first element whose key is not smaller. *)
Section py_sort.
Context {A K : Type} (key : A -> K) (leb : K -> K -> bool).

Fixpoint insert_by_key (a : A) (l : list A) : list A :=
  match l with
  | [] => [a]
  | b :: l' =>
      if leb (key a) (key b) then a :: b :: l' else b :: insert_by_key a l'
  end.

Definition py_sort (l : list A) : list A := foldr insert_by_key [] l.

(** Two keys that the order does not tell apart. *)
Definition tie (a b : K) : bool := leb a b && leb b a.
End py_sort.
Global Arguments tie {K} leb a b.

(** Order of the tuples built by [itemgetter(1, 0)]: lexicographic. *)
Definition tuple_leb (a b : Z * Z) : bool :=
  (a.1 <? b.1) || ((a.1 =? b.1) && (a.2 <=? b.2)).

(** ** [str] operations

    A Python [str] is held as its UTF-8 bytes; comparing the bytes
    lexicographically ([String.leb]) orders two strings as comparing their
    code points does. *)

(** [s.split(sep)] for a one-character separator. *)
Fixpoint py_split (sep : ascii) (s : string) : list string :=
  match s with
  | EmptyString => [EmptyString]
  | String c s' =>
      if Ascii.eqb c sep then EmptyString :: py_split sep s'
      else match py_split sep s' with
           | [] => [String c EmptyString]
           | w :: ws => String c w :: ws
           end
  end.

(** The line feed, written [\n] in the program's literals. *)
Definition nl : string := String (ascii_of_nat 10) EmptyString.

(** [sep.join(l)]. *)
Fixpoint py_join (sep : string) (l : list string) : string :=
  match l with
  | [] => EmptyString
  | [s] => s
  | s :: l' => s +:+ sep +:+ py_join sep l'
  end.

(** [filter(None, l)]: the truthy items; [None] and the empty string are
    dropped. *)
Definition truthy (t : option string) : option string :=
  match t with
  | Some (String c s) => Some (String c s)
  | _ => None
  end.

Definition filter_None (l : list (option string)) : list string := omap truthy l.

(** [int(s)] on a [str].  A [str] is held as its UTF-8 bytes.  CPython
    first maps the string to ASCII: a character below 127 stays, a
    Unicode white space becomes a space, a Unicode decimal digit becomes
    the ASCII digit of its value, and anything else a question mark, at
    which the literal is invalid.  Then white space ([\t] to [\r] and the
    space) is skipped on both sides, an optional sign is read, then
    decimal digits, which single underscores may separate.  More than
    4300 digits are refused (the default limit since CPython 3.11).  The
    tables are those of Unicode 14.0. *)
Definition unicode_space (cp : N) : bool :=
  ((cp =? 133) || (cp =? 160) || (cp =? 5760)
   || (8192 <=? cp) && (cp <=? 8202)
   || (cp =? 8232) || (cp =? 8233) || (cp =? 8239) || (cp =? 8287) || (cp =? 12288))%N.

(** The code points of the digits zero; the nine code points after each
    are the digits one to nine. *)
Definition decimal_zeros : list N :=
  [48; 1632; 1776; 1984; 2406; 2534; 2662; 2790; 2918; 3046; 3174; 3302; 3430; 3558;
   3664; 3792; 3872; 4160; 4240; 6112; 6160; 6470; 6608; 6784; 6800; 6992; 7088; 7232;
   7248; 42528; 43216; 43264; 43472; 43504; 43600; 44016; 65296; 66720; 68912; 69734;
   69872; 69942; 70096; 70384; 70736; 70864; 71248; 71360; 71472; 71904; 72016; 72784;
   73040; 73120; 92768; 92864; 93008; 120782; 120792; 120802; 120812; 120822; 123200;
   123632; 125264; 130032]%N.

Definition unicode_decimal (cp : N) : option N :=
  (fun z => cp - z)%N
    <$> List.find (fun z => (z <=? cp) && (cp <? z + 10))%N decimal_zeros.

Definition ascii_of_code_point (cp : N) : ascii :=
  if (cp <? 127)%N then ascii_of_N cp
  else if unicode_space cp then " "%char
  else match unicode_decimal cp with
       | Some d => ascii_of_N (48 + d)
       | None => "?"%char
       end.

(** The payload of a continuation byte of UTF-8. *)
Definition continuation (c : ascii) : option N :=
  let n := N_of_ascii c in
  if ((128 <=? n) && (n <? 192))%N then Some (n - 128)%N else None.

(** The string as mapped to ASCII; [None] for bytes that are no UTF-8. *)
Fixpoint to_ascii (s : string) : option string :=
  match s with
  | EmptyString => Some EmptyString
  | String c s1 =>
      let n := N_of_ascii c in
      if (n <? 128)%N then String (ascii_of_code_point n) <$> to_ascii s1
      else if (n <? 192)%N then None
      else if (n <? 224)%N then
        match s1 with
        | String c1 s2 =>
            a ← continuation c1;
            String (ascii_of_code_point ((n - 192) * 64 + a)) <$> to_ascii s2
        | _ => None
        end
      else if (n <? 240)%N then
        match s1 with
        | String c1 (String c2 s3) =>
            a ← continuation c1;
            b ← continuation c2;
            String (ascii_of_code_point (((n - 224) * 64 + a) * 64 + b)) <$> to_ascii s3
        | _ => None
        end
      else if (n <? 248)%N then
        match s1 with
        | String c1 (String c2 (String c3 s4)) =>
            a ← continuation c1;
            b ← continuation c2;
            d ← continuation c3;
            String (ascii_of_code_point ((((n - 240) * 64 + a) * 64 + b) * 64 + d))
              <$> to_ascii s4
        | _ => None
        end
      else None
  end.

Definition is_space (c : ascii) : bool :=
  let n := N_of_ascii c in
  ((9 <=? n) && (n <=? 13) || (n =? 32))%N.

Fixpoint lstrip (s : string) : string :=
  match s with
  | String c s' => if is_space c then lstrip s' else s
  | EmptyString => EmptyString
  end.

Definition py_strip (s : string) : string :=
  String.rev (lstrip (String.rev (lstrip s))).

Definition digit_of (c : ascii) : option Z :=
  let n := N_of_ascii c in
  if ((48 <=? n) && (n <=? 57))%N then Some (Z.of_N n - 48) else None.

(** [digits acc after_digit s]: [after_digit] tells whether the previous
    character was a digit, the only place where an underscore or the end of
    the literal may come. *)
Fixpoint digits (acc : Z) (after_digit : bool) (s : string) : option Z :=
  match s with
  | EmptyString => if after_digit then Some acc else None
  | String c s' =>
      match digit_of c with
      | Some d => digits (10 * acc + d) true s'
      | None =>
          if Ascii.eqb c "_" && after_digit then digits acc false s' else None
      end
  end.

(** The number of digits of a literal. *)
Fixpoint count_digits (s : string) : Z :=
  match s with
  | EmptyString => 0
  | String c s' =>
      match digit_of c with
      | Some _ => 1 + count_digits s'
      | None => count_digits s'
      end
  end.

Definition py_int (s : string) : result Z :=
  match to_ascii s with
  | None => Raise ValueError
  | Some a =>
      let body := py_strip a in
      let parsed :=
        match body with
        | String "-" s' => Z.opp <$> digits 0 false s'
        | String "+" s' => digits 0 false s'
        | _ => digits 0 false body
        end in
      match parsed with
      | Some z => if 4300 <? count_digits body then Raise ValueError else Ok z
      | None => Raise ValueError
      end
  end.

(* ===================================================================== *)
(** * Part II. The parsed PAGE document *)
(* ===================================================================== *)

(** An element of the tree that [etree.parse] returns: tag, attributes,
    leading text and child elements.  Every path in the program matches
    tags as [{*}name], in any namespace, so a tag is held as its local
    name. *)
Inductive Element : Type :=
  | Elem (tag : string) (attrib : list (string * string))
         (text : option string) (children : list Element).

Definition tag (e : Element) : string := let (t, _, _, _) := e in t.
Definition attrib (e : Element) : list (string * string) := let (_, a, _, _) := e in a.
Definition text (e : Element) : option string := let (_, _, t, _) := e in t.
Definition children (e : Element) : list Element := let (_, _, _, c) := e in c.

(** [e.get(name)]. *)
Definition get (e : Element) (name : string) : option string :=
  snd <$> List.find (fun kv => String.eqb kv.1 name) (attrib e).

Definition has_tag (name : string) (e : Element) : bool := String.eqb (tag e) name.

(** [e.iterdescendants()]: every element below [e], in document order. *)
Fixpoint iterdescendants (e : Element) : list Element :=
  match e with
  | Elem _ _ _ cs => flat_map (fun c => c :: iterdescendants c) cs
  end.

(** [e.findall(".//{*}name")]. *)
Definition findall_desc (name : string) (e : Element) : list Element :=
  List.filter (has_tag name) (iterdescendants e).

(** [e.findall("./{*}name")]. *)
Definition findall_child (name : string) (e : Element) : list Element :=
  List.filter (has_tag name) (children e).

(** [root.findall(".//{*}TextRegion[{*}TextLine]")]: the text regions
    with a text line among their children. *)
Definition findall_TextRegion (root : Element) : list Element :=
  List.filter (fun e => existsb (has_tag "TextLine") (children e))
              (findall_desc "TextRegion" root).

(** [root.findall(".//{*}OrderedGroup//{*}RegionRefIndexed")]: for each
    ordered group in document order, the indexed references below it. *)
Definition findall_RegionRefIndexed (root : Element) : list Element :=
  flat_map (findall_desc "RegionRefIndexed") (findall_desc "OrderedGroup" root).

(** [line.find(".//{*}Glyph/{*}Coords")]. *)
Definition find_Glyph_Coords (line : Element) : option Element :=
  head (flat_map (findall_child "Coords") (findall_desc "Glyph" line)).

(** [line.findall("./{*}TextEquiv[@index]")], each alternative with the
    value of its [index] attribute. *)
Definition findall_TextEquiv_index (line : Element) : list (string * Element) :=
  omap (fun e => (fun i => (i, e)) <$> get e "index") (findall_child "TextEquiv" line).

(** [x.get(name)] and [x.text] where [x] may be [None]: an
    [AttributeError] then. *)
Definition get_of (x : option Element) (name : string) : result (option string) :=
  match x with Some e => Ok (get e name) | None => Raise AttributeError end.

Definition text_of (x : option Element) : result (option string) :=
  match x with Some e => Ok (text e) | None => Raise AttributeError end.

(* ===================================================================== *)
(** * Part III. Lines, regions and pages *)
(* ===================================================================== *)

(** ** [class TextLine] *)
Record TextLine : Type := mkTextLine {
  tl_text_line : Element;
  tl_x : Z;
  tl_y : Z
}.

Definition TextLine_init (text_line : Element) (reference_point : Z * Z) : TextLine :=
  mkTextLine text_line reference_point.1 reference_point.2.

(** [TextLine.get_text].  The list of [index, text] pairs is built
    first, so a [TextEquiv] without a [Unicode] child raises before the
    sort; the text of an empty [Unicode] element is [None]. *)
Definition get_text (ln : TextLine) : result (option string) :=
  let te := findall_TextEquiv_index (tl_text_line ln) in
  text_equiv ← mapM (fun ie : string * Element =>
                       t ← text_of (head (findall_child "Unicode" ie.2));
                       Ok (ie.1, t)) te;
  match py_first (py_sort fst String.leb text_equiv) with
  | Ok it => Ok it.2
  | Raise _ => Ok (Some EmptyString)
  end.

(** ** [class TextRegion] *)
Record TextRegion : Type := mkTextRegion {
  tr_oid : nat;                 (* which object of its page this is *)
  tr_text_region : Element;
  tr_type : option string;
  tr_line_height : Z;
  tr_line : list TextLine;
  tr_x : Z;
  tr_y : Z
}.

(** A region with other lines. *)
Definition with_lines (r : TextRegion) (lines : list TextLine) : TextRegion :=
  mkTextRegion (tr_oid r) (tr_text_region r) (tr_type r) (tr_line_height r) lines
               (tr_x r) (tr_y r).

(** The key of a region in the dict of its page:
    [tr.text_region.get('id')]. *)
Definition region_id (tr : TextRegion) : option string := get (tr_text_region tr) "id".

(** [TextRegion.convert_coordinates]. *)
Definition convert_point (p : string) : result (Z * Z) :=
  match py_split "," p with
  | [x; y] => x' ← py_int x; y' ← py_int y; Ok (x', y')
  | _ => Raise ValueError
  end.

Definition convert_coordinates (points : option string) : result (list (Z * Z)) :=
  match points with
  | None => Raise AttributeError
  | Some s => mapM convert_point (py_split " " s)
  end.

(** [TextRegion.get_reference_point]. *)
Definition get_reference_point (points : list (Z * Z)) : result (Z * Z) :=
  py_first (py_sort (fun p => (p.2, p.1)) tuple_leb points).

(** The body of the two loops of [get_lines]: the line built from the
    [Coords] element that [coords] finds. *)
Definition line_of (coords : Element -> option Element) (line : Element) : result TextLine :=
  attr ← get_of (coords line) "points";
  pts ← convert_coordinates attr;
  reference_point ← get_reference_point pts;
  Ok (TextLine_init line reference_point).

(** The loop of the glyph branch: an [AttributeError] skips the line,
    any other exception leaves the loop. *)
Fixpoint glyph_lines (text_line : list Element) : result (list TextLine) :=
  match text_line with
  | [] => Ok []
  | line :: rest =>
      match line_of find_Glyph_Coords line with
      | Ok l => ls ← glyph_lines rest; Ok (l :: ls)
      | Raise AttributeError => glyph_lines rest
      | Raise e => Raise e
      end
  end.

(** [TextRegion.get_lines]. *)
Definition get_lines (text_region : Element) : result (list TextLine) :=
  let text_line := findall_desc "TextLine" text_region in
  lines ← (match head (findall_desc "Glyph" text_region) with
           | None => mapM (line_of (fun l => head (findall_child "Coords" l))) text_line
           | Some _ => glyph_lines text_line
           end);
  Ok (py_sort tl_y Z.leb lines).

(** [TextRegion.__init__]. *)
Definition TextRegion_init (oid : nat) (text_region : Element) (line_height : Z)
  : result TextRegion :=
  if line_height <? 0 then Raise ValueError else
  lines ← get_lines text_region;
  l0 ← py_first lines;
  Ok (mkTextRegion oid text_region (get text_region "type") line_height lines
                   (tl_x l0) (tl_y l0)).

(** ** [class Page] *)
Record Page : Type := mkPage {
  pg_file : string;
  pg_line_height : Z;
  pg_reading_order : list (option string);
  pg_text_region_list : list TextRegion;
  pg_text_region_dict : gmap (option string) TextRegion
}.

(** [Page.parse_reading_order]. *)
Definition parse_reading_order (root : Element) : list (option string) :=
  (fun el => get el "regionRef") <$> findall_RegionRefIndexed root.

(** The dict comprehension [{tr.text_region.get('id'): tr for tr in l}]:
    a later region replaces an earlier one with the same id. *)
Definition region_dict (l : list TextRegion) : gmap (option string) TextRegion :=
  foldl (fun m tr => <[region_id tr := tr]> m) ∅ l.

(** [Page.sort_text_region], as the new value of [text_region_list]. *)
Definition sort_text_region (reading_order : list (option string))
    (text_region_list : list TextRegion)
    (text_region_dict : gmap (option string) TextRegion) : list TextRegion :=
  if decide (text_region_dict = ∅) then text_region_list
  else omap (fun region_id => text_region_dict !! region_id) reading_order.

(** The regions of a page, built in document order; the k-th object has
    identity [k]. *)
Fixpoint build_regions (k : nat) (tr : list Element) (line_height : Z)
  : result (list TextRegion) :=
  match tr with
  | [] => Ok []
  | e :: tr' =>
      r ← TextRegion_init k e line_height;
      rs ← build_regions (S k) tr' line_height;
      Ok (r :: rs)
  end.

(** The file system: the parsed root element of each readable file. *)
Definition files := gmap string Element.

(** [Page.__init__]. *)
Definition Page_init (fs : files) (file : string) (line_height : Z) : result Page :=
  match fs !! file with
  | None => Raise OSError
  | Some root =>
      let reading_order := parse_reading_order root in
      let tr := findall_TextRegion root in
      text_region_list ← build_regions 0 tr line_height;
      let text_region_dict := region_dict text_region_list in
      Ok (mkPage file line_height reading_order
                 (sort_text_region reading_order text_region_list text_region_dict)
                 text_region_dict)
  end.

(** ** Printing a region: [__str__] of [TextLine] and [TextRegion] *)

(** [str(x)] for a value that may be [None]. *)
Definition str_opt (t : option string) : string := default "None" t.

Definition TextLine_str (ln : TextLine) : result string :=
  t ← get_text ln;
  Ok (str_opt t +:+ nl +:+ "TextLine(x=" +:+ pretty (tl_x ln)
        +:+ ", y=" +:+ pretty (tl_y ln) +:+ ")").

Definition TextRegion_str (r : TextRegion) : result string :=
  ls ← mapM TextLine_str (tr_line r);
  Ok ("type=" +:+ str_opt (tr_type r) +:+ nl +:+ py_join nl ls +:+ nl +:+ "])").

(* ===================================================================== *)
(** * Part IV. The conversion *)
(* ===================================================================== *)

(** ** lxml elements under construction

    The elements the converter builds are mutable objects that several
    attributes of the [Conversion] object may name at once (a scene is
    a child of its act and is also [self.__scene]).  They live in a store;
    a reference is an index into it. *)
Record node : Type := mkNode {
  n_tag : string;
  n_attrib : list (string * string);
  n_text : option string;
  n_children : list nat
}.

(** What the incremental writer [xf] has received. *)
Inductive item : Type :=
  | PI (target data : string)
  | StartTag (name : string) (attrs : list (string * string))
  | EndTag (name : string)
  | Text (s : string)
  | Tree (e : Element).

(** What was printed. *)
Inductive message : Type :=
  | FEHLER_region (part : string) (file region : string) (e : exn)
  | FEHLER (file : string) (e : exn)
  | Bearbeitet (file : string)
  | Initialized_scene (scene : option nat)
  | Scene_not_initialized
  | Initialized_scene_in_fallback.

(** The private element attributes of [Conversion]. *)
Inductive slot : Type :=
  | front_ | title_page | div_preface | prologue | act | scene | stage
  | cast_list | cast_item | sp_grp | sp | set_.

Global Instance slot_eq_dec : EqDecision slot.
Proof. solve_decision. Defined.

Definition _FRONT : string := "front".
Definition _BODY : string := "body".

(** The [Conversion] object together with what it acts on: the store of
    elements, the writer and the standard output.  [current_file_obj]
    records which item of [file_list] the object [current_file] is
    ([None] for the literal ["end"]), which the test
    [self.current_file is self.file_list[-1]] looks at. *)
Record world : Type := mkWorld {
  file_list : list string;
  file_iter : nat;
  current_file : string;
  current_file_obj : option nat;
  page : Page;
  text_part : string;
  previous_type : option string;
  is_title_page_created : bool;
  current_scenario : option string;   (* [None]: the attribute is not set *)
  refs : slot -> option nat;
  store : list node;
  xf : list item;
  stdout : list message
}.

Definition set_current_file (f : string) (o : option nat) (k : nat) (w : world) : world :=
  mkWorld (file_list w) k f o (page w) (text_part w) (previous_type w)
    (is_title_page_created w) (current_scenario w) (refs w) (store w) (xf w) (stdout w).
Definition set_page (p : Page) (w : world) : world :=
  mkWorld (file_list w) (file_iter w) (current_file w) (current_file_obj w) p (text_part w)
    (previous_type w) (is_title_page_created w) (current_scenario w) (refs w) (store w)
    (xf w) (stdout w).
Definition set_text_part (p : string) (w : world) : world :=
  mkWorld (file_list w) (file_iter w) (current_file w) (current_file_obj w) (page w) p
    (previous_type w) (is_title_page_created w) (current_scenario w) (refs w) (store w)
    (xf w) (stdout w).
Definition set_previous_type (t : option string) (w : world) : world :=
  mkWorld (file_list w) (file_iter w) (current_file w) (current_file_obj w) (page w)
    (text_part w) t (is_title_page_created w) (current_scenario w) (refs w) (store w)
    (xf w) (stdout w).
Definition set_is_title_page_created (b : bool) (w : world) : world :=
  mkWorld (file_list w) (file_iter w) (current_file w) (current_file_obj w) (page w)
    (text_part w) (previous_type w) b (current_scenario w) (refs w) (store w)
    (xf w) (stdout w).
Definition set_current_scenario (s : option string) (w : world) : world :=
  mkWorld (file_list w) (file_iter w) (current_file w) (current_file_obj w) (page w)
    (text_part w) (previous_type w) (is_title_page_created w) s (refs w) (store w)
    (xf w) (stdout w).
Definition set_refs (r : slot -> option nat) (w : world) : world :=
  mkWorld (file_list w) (file_iter w) (current_file w) (current_file_obj w) (page w)
    (text_part w) (previous_type w) (is_title_page_created w) (current_scenario w) r
    (store w) (xf w) (stdout w).
Definition set_store (s : list node) (w : world) : world :=
  mkWorld (file_list w) (file_iter w) (current_file w) (current_file_obj w) (page w)
    (text_part w) (previous_type w) (is_title_page_created w) (current_scenario w) (refs w)
    s (xf w) (stdout w).
Definition set_xf (x : list item) (w : world) : world :=
  mkWorld (file_list w) (file_iter w) (current_file w) (current_file_obj w) (page w)
    (text_part w) (previous_type w) (is_title_page_created w) (current_scenario w) (refs w)
    (store w) x (stdout w).
Definition set_stdout (o : list message) (w : world) : world :=
  mkWorld (file_list w) (file_iter w) (current_file w) (current_file_obj w) (page w)
    (text_part w) (previous_type w) (is_title_page_created w) (current_scenario w) (refs w)
    (store w) (xf w) o.

(** ** Statements

    A statement takes the world to a new world and either returns a value
    or raises; what it changed before raising stays changed. *)
Definition M (A : Type) : Type := world -> result A * world.

Global Instance M_ret : MRet M := fun A a w => (Ok a, w).
Global Instance M_bind : MBind M := fun A B f m w =>
  match m w with
  | (Ok a, w') => f a w'
  | (Raise e, w') => (Raise e, w')
  end.

Definition lift {A} (r : result A) : M A := fun w => (r, w).
Definition raise {A} (e : exn) : M A := fun w => (Raise e, w).
Definition read {A} (f : world -> A) : M A := fun w => (Ok (f w), w).
Definition modify (f : world -> world) : M unit := fun w => (Ok tt, f w).
Definition skip : M unit := mret tt.

(** [try: body except Exception as e: handler(e)]. *)
Definition try_except {A} (body : M A) (handler : exn -> M A) : M A := fun w =>
  match body w with
  | (Ok a, w') => (Ok a, w')
  | (Raise e, w') => handler e w'
  end.

Definition when (b : bool) (m : M unit) : M unit := if b then m else skip.

Definition print (m : message) : M unit :=
  modify (fun w => set_stdout (stdout w ++ [m]) w).

Definition self (s : slot) : M (option nat) := read (fun w => refs w s).
Definition assign (s : slot) (v : option nat) : M unit :=
  modify (fun w => set_refs (<[s := v]> (refs w)) w).

(** [etree.Element(tag, **attrib)]. *)
Definition Element_ (tag : string) (attrs : list (string * string)) : M nat := fun w =>
  (Ok (length (store w)), set_store (store w ++ [mkNode tag attrs None []]) w).

Definition add_child (c : nat) (n : node) : node :=
  mkNode (n_tag n) (n_attrib n) (n_text n) (n_children n ++ [c]).

(** [etree.SubElement(parent, tag, **attrib)]; a parent that is [None]
    is a [TypeError]. *)
Definition SubElement (parent : option nat) (tag : string)
    (attrs : list (string * string)) : M nat :=
  match parent with
  | None => raise TypeError
  | Some p =>
      c ← Element_ tag attrs;
      modify (fun w => set_store (alter (add_child c) p (store w)) w);;
      mret c
  end.

(** [e.text = t]. *)
Definition assign_text (e : nat) (t : option string) : M unit :=
  modify (fun w =>
    set_store (alter (fun n => mkNode (n_tag n) (n_attrib n) t (n_children n)) e (store w)) w).

(** The tree below a reference as it stands in the store.  A child is
    always allocated after its parent, so the size of the store bounds the
    depth. *)
Fixpoint snapshot (fuel : nat) (st : list node) (r : nat) : Element :=
  match fuel, st !! r with
  | S f, Some n => Elem (n_tag n) (n_attrib n) (n_text n) (snapshot f st <$> n_children n)
  | _, _ => Elem EmptyString [] None []
  end.

Definition emit (i : item) : M unit := modify (fun w => set_xf (xf w ++ [i]) w).

(** [xf.write(e)] for an element or [None]; the writer ignores [None]. *)
Definition xf_write (e : option nat) : M unit :=
  match e with
  | None => skip
  | Some r => st ← read store; emit (Tree (snapshot (length st) st r))
  end.

(** [with xf.element(name, ...): body].  When [body] raises, the run is
    on its way to the handler of [create_tei], which writes no file. *)
Definition xf_element {A} (name : string) (attrs : list (string * string)) (body : M A) : M A :=
  emit (StartTag name attrs);; a ← body; emit (EndTag name);; mret a.

(** [t == s] for a type that may be [None]. *)
Definition is_type (t : option string) (s : string) : bool :=
  match t with Some t' => String.eqb t' s | None => false end.

(** [t in l]. *)
Definition type_in (t : option string) (l : list string) : bool :=
  existsb (is_type t) l.

(** ["type = " + t]. *)
Definition type_line (t : option string) : M string :=
  match t with Some t' => mret ("type = " +:+ t') | None => raise TypeError end.

Definition BODY_MARKER : list string :=
  ["header"; "heading"; "floating"; "credit"; "drop-capital"].

(** ** The methods of [Conversion] *)

(** [Conversion.concatenate_lines]. *)
Definition concatenate_lines (text_region : TextRegion) : result string :=
  text ← mapM get_text (tr_line text_region);
  Ok (py_join nl (filter_None text)).

Definition UNKNOWN : string :=
  "WARNING!, the following paragraph couldn't be handled" +:+ nl +:+
  "correctly. You have to solve this by yourself.".

Definition WARN_misplaced_head : string :=
  "WARNING!, the following 'head' might be slightly misplaced. Maybe" +:+ nl +:+
  "there is a more suitable parent tag or it might be another title page.".

Definition WARN_title_page : string :=
  "WARNING!, it's just assumed that this is the title page, check" +:+ nl +:+
  "this. Also check if the following 'head' elements in 'front' may be (another)" +:+ nl +:+
  "title page.".

Definition WARN_role : string :=
  "WARNING!, it seems that the role is missing. You should fix this.".

Definition WARN_footnote : string :=
  "WARNING!, this footnote couldn't be placed correctly, you have to" +:+ nl +:+
  "solve this by yourself.".

Definition WARN_set : string :=
  "WARNING!, the description of the setting (if existing) may" +:+ nl +:+
  "be misplaced as a 'roleDesc' element in the 'castList'. Place it at the correct place in an element like this.".

Definition WARN_spGrp : string :=
  "WARNING! Place the closing 'spGrp' tag after the last 'sp' tag of the" +:+ nl +:+
  "singing.".

Definition WARN_speaker : string :=
  "WARNING!, it seems that the speaker is missing.".

Definition WARN_catch_word : string :=
  "WARNING!, the following 'head' element might be misplaced, i.e." +:+ nl +:+
  "there could be a better place.".

Definition WARN_not_placed : string :=
  "WARNING!, the element isn't placed correctly, it still needs a solution.".

(** [for e in p_list: p = etree.SubElement(parent, "p"); p.text = e]. *)
Fixpoint paragraphs (parent : nat) (p_list : list string) : M unit :=
  match p_list with
  | [] => skip
  | e :: rest =>
      p ← SubElement (Some parent) "p" [];
      assign_text p (Some e);;
      paragraphs parent rest
  end.

(** [Conversion.build_front]. *)
Definition build_front (text_region : TextRegion) : M unit :=
  prev ← read previous_type;
  when (is_type prev "catch-word" && negb (is_type (tr_type text_region) "catch-word"))
       (modify (set_is_title_page_created true));;
  (if is_type (tr_type text_region) "catch-word" then
     created ← read is_title_page_created;
     if created : bool then
       fr ← self front_;
       d ← SubElement fr "div" [("type", "preface")];
       assign div_preface (Some d);;
       p ← SubElement (Some d) "p" [];
       assign_text p (Some WARN_misplaced_head);;
       head ← SubElement (Some d) "head" [];
       t ← lift (concatenate_lines text_region);
       assign_text head (Some t)
     else
       when (negb (is_type prev "catch-word"))
            (fr ← self front_;
             tp ← SubElement fr "titlePage" [];
             assign title_page (Some tp);;
             title_part ← SubElement (Some tp) "titlePart" [];
             assign_text title_part (Some WARN_title_page));;
       tp ← self title_page;
       title_part ← SubElement tp "titlePart" [];
       t ← lift (concatenate_lines text_region);
       assign_text title_part (Some t)
   else if is_type (tr_type text_region) "other" then
     dp ← self div_preface;
     when (negb (type_in prev ["other"; "catch-word"]) || bool_decide (dp = None))
          (fr ← self front_;
           d ← SubElement fr "div" [("type", "preface")];
           assign div_preface (Some d));;
     dp ← self div_preface;
     p ← SubElement dp "p" [];
     t ← lift (concatenate_lines text_region);
     assign_text p (Some t)
   else if is_type (tr_type text_region) "TOC-entry" then
     cl ← self cast_list;
     when (negb (is_type prev "TOC-entry" || is_type prev "signature-mark")
           || bool_decide (cl = None))
          (fr ← self front_;
           c ← SubElement fr "castList" [];
           assign cast_list (Some c));;
     cl ← self cast_list;
     ci ← SubElement cl "castItem" [];
     assign cast_item (Some ci);;
     role ← SubElement (Some ci) "role" [];
     t ← lift (concatenate_lines text_region);
     assign_text role (Some t)
   else if is_type (tr_type text_region) "signature-mark" then
     ci ← self cast_item;
     role_desc ← (match ci with
                  | None =>
                      fr ← self front_;
                      cast_list_replace ← SubElement fr "castList" [];
                      cast_item_replace ← SubElement (Some cast_list_replace) "castItem" [];
                      role ← SubElement (Some cast_item_replace) "role" [];
                      assign_text role (Some WARN_role);;
                      SubElement (Some cast_item_replace) "roleDesc" []
                  | Some _ => SubElement ci "roleDesc" []
                  end);
     t ← lift (concatenate_lines text_region);
     assign_text role_desc (Some t)
   else if is_type (tr_type text_region) "footnote" then
     fr ← self front_;
     user_note ← SubElement fr "div" [("type", "notes")];
     p ← SubElement (Some user_note) "p" [];
     assign_text p (Some WARN_footnote);;
     footnote ← SubElement (Some user_note) "note" [("place", "foot")];
     t ← lift (concatenate_lines text_region);
     assign_text footnote (Some t)
   else
     fr ← self front_;
     unknown ← SubElement fr "div" [("type", "notes")];
     type_ ← type_line (tr_type text_region);
     content ← lift (concatenate_lines text_region);
     paragraphs unknown [UNKNOWN; type_; content]);;
  modify (set_previous_type (tr_type text_region)).

(** [Conversion.write_front]. *)
Definition write_front : M unit :=
  fr ← self front_;
  s ← SubElement fr "set" [];
  p ← SubElement (Some s) "p" [];
  assign_text p (Some WARN_set);;
  fr ← self front_;
  xf_write fr;;
  modify (set_text_part _BODY).

(** The container chosen by [if etree.iselement(self.__prologue)]: the
    prologue when there is one, else the scene (which may be [None]). *)
Definition prologue_or_scene : M (option nat) :=
  pr ← self prologue;
  match pr with
  | Some _ => mret pr
  | None => self scene
  end.

(** [self.__current_scenario == s]; reading the attribute before any
    assignment to it is an [AttributeError]. *)
Definition scenario_is (s : string) : M bool :=
  cs ← read current_scenario;
  match cs with
  | None => raise AttributeError
  | Some c => mret (String.eqb c s)
  end.

(** [prev == "caption" and self.__current_scenario == s]. *)
Definition continues (prev : option string) (s : string) : M bool :=
  if is_type prev "caption" then scenario_is s else mret false.

(** The [caption] branch of [build_body]. *)
Definition caption_branch (text_region : TextRegion) : M unit :=
  prev ← read previous_type;
  if is_type prev "header" then
    s ← self set_;
    when (bool_decide (s = None))
         (a ← self act;
          d ← SubElement a "div" [("type", "set")];
          assign set_ (Some d));;
    s ← self set_;
    p ← SubElement s "p" [];
    t ← lift (concatenate_lines text_region);
    assign_text p (Some t);;
    modify (set_current_scenario (Some "set"))
  else
    c1 ← continues prev "set";
    if c1 : bool then
      s ← self set_;
      p ← SubElement s "p" [];
      t ← lift (concatenate_lines text_region);
      assign_text p (Some t)
    else if is_type prev "paragraph" then
      sc ← self scene;
      st ← SubElement sc "stage" [];
      assign stage (Some st);;
      p ← SubElement (Some st) "p" [];
      t ← lift (concatenate_lines text_region);
      assign_text p (Some t);;
      modify (set_current_scenario (Some "paragraph"))
    else
      c2 ← continues prev "paragraph";
      if c2 : bool then
        st ← self stage;
        p ← SubElement st "p" [];
        t ← lift (concatenate_lines text_region);
        assign_text p (Some t)
      else if type_in prev ["credit"; "heading"; "scene"] then
        speech ← self sp;
        parent ← (match speech with Some _ => mret speech | None => self scene end);
        st ← SubElement parent "stage" [];
        t ← lift (concatenate_lines text_region);
        assign_text st (Some t);;
        modify (set_current_scenario (Some "normal"))
      else
        parent ← prologue_or_scene;
        st ← SubElement parent "stage" [];
        t ← lift (concatenate_lines text_region);
        assign_text st (Some t);;
        modify (set_current_scenario (Some "normal")).

(** [self.current_file is self.file_list[-1] and
     text_region is self.page.text_region_list[-1]]. *)
Definition at_end_of_stream (text_region : TextRegion) : M bool :=
  fl ← read file_list;
  _ ← lift (py_last fl);
  obj ← read current_file_obj;
  if bool_decide (obj = Some (length fl - 1)%nat) then
    pg ← read page;
    l ← lift (py_last (pg_text_region_list pg));
    mret (Nat.eqb (tr_oid text_region) (tr_oid l))
  else mret false.

(** [Conversion.build_body]. *)
Definition build_body (text_region : TextRegion) (act_number : Z) : M Z :=
  act_number ←
    (if is_type (tr_type text_region) "header" then
       pr ← self prologue;
       when (bool_decide (pr ≠ None)) (xf_write pr;; assign prologue None);;
       let act_number := act_number + 1 in
       when (1 <? act_number) (a ← self act; xf_write a);;
       a ← Element_ "div" [("type", "act")];
       assign act (Some a);;
       head ← SubElement (Some a) "head" [];
       t ← lift (concatenate_lines text_region);
       assign_text head (Some t);;
       mret act_number
     else
       (if is_type (tr_type text_region) "heading" then
          a ← self act;
          match a with
          | None =>
              pr ← self prologue;
              when (bool_decide (pr ≠ None)) (xf_write pr);;
              p ← Element_ "div" [("type", "prologue")];
              assign prologue (Some p);;
              head ← SubElement (Some p) "head" [];
              t ← lift (concatenate_lines text_region);
              assign_text head (Some t)
          | Some _ =>
              s ← SubElement a "div" [("type", "scene")];
              assign scene (Some s);;
              head ← SubElement (Some s) "head" [];
              t ← lift (concatenate_lines text_region);
              assign_text head (Some t);;
              st ← SubElement (Some s) "stage" [];
              c ← SubElement (Some st) "castList" [];
              assign cast_list (Some c)
          end;;
          s ← self scene;
          print (Initialized_scene s)
        else if is_type (tr_type text_region) "TOC-entry" then
          cl ← self cast_list;
          ci ← SubElement cl "castItem" [];
          t ← lift (concatenate_lines text_region);
          assign_text ci (Some t)
        else if is_type (tr_type text_region) "signature-mark" then
          parent ← prologue_or_scene;
          st ← SubElement parent "stage" [];
          t ← lift (concatenate_lines text_region);
          assign_text st (Some t)
        else if is_type (tr_type text_region) "floating" then
          parent ← prologue_or_scene;
          g ← SubElement parent "spGrp" [];
          assign sp_grp (Some g);;
          head ← SubElement (Some g) "head" [];
          t ← lift (concatenate_lines text_region);
          assign_text head (Some t);;
          speech ← SubElement (Some g) "sp" [];
          speaker ← SubElement (Some speech) "speaker" [];
          assign_text speaker (Some "WARNING!");;
          p ← SubElement (Some speech) "p" [];
          assign_text p (Some WARN_spGrp)
        else if type_in (tr_type text_region) ["credit"; "drop-capital"] then
          pr ← self prologue;
          match pr with
          | Some _ => speech ← SubElement pr "sp" []; assign sp (Some speech)
          | None =>
              sc ← self scene;
              when (bool_decide (sc = None))
                   (print Scene_not_initialized;;
                    a ← self act;
                    s ← SubElement a "div" [("type", "scene")];
                    assign scene (Some s);;
                    print Initialized_scene_in_fallback);;
              sc ← self scene;
              speech ← SubElement sc "sp" [];
              assign sp (Some speech)
          end;;
          speech ← self sp;
          speaker ← SubElement speech "speaker" [];
          t ← lift (concatenate_lines text_region);
          assign_text speaker (Some t)
        else if is_type (tr_type text_region) "paragraph" then
          speech ← self sp;
          when (bool_decide (speech = None))
               (sc ← self scene;
                s ← SubElement sc "sp" [];
                assign sp (Some s);;
                speaker ← SubElement (Some s) "speaker" [];
                assign_text speaker (Some WARN_speaker));;
          speech ← self sp;
          p ← SubElement speech "p" [];
          t ← lift (concatenate_lines text_region);
          assign_text p (Some t)
        else if is_type (tr_type text_region) "caption" then
          caption_branch text_region
        else if is_type (tr_type text_region) "footnote" then
          parent ← prologue_or_scene;
          user_note ← SubElement parent "div" [("type", "notes")];
          p ← SubElement (Some user_note) "p" [];
          cf ← read current_file;
          name ← lift (py_last (py_split "/" cf));
          assign_text p (Some (WARN_footnote +:+ " Source file: " +:+ name));;
          footnote ← SubElement (Some user_note) "note" [("place", "foot")];
          t ← lift (concatenate_lines text_region);
          assign_text footnote (Some t)
        else if is_type (tr_type text_region) "catch-word" then
          sc ← self scene;
          match sc with
          | None =>
              p ← Element_ "p" [];
              assign_text p (Some WARN_catch_word);;
              caption ← Element_ "head" [];
              t ← lift (concatenate_lines text_region);
              assign_text caption (Some t);;
              xf_write (Some p);;
              xf_write (Some caption)
          | Some _ =>
              caption ← SubElement sc "div" [("type", "notes")];
              type_ ← type_line (tr_type text_region);
              content ← lift (concatenate_lines text_region);
              paragraphs caption [WARN_not_placed; type_; content]
          end
        else
          sc ← self scene;
          unknown ← SubElement sc "div" [("type", "notes")];
          type_ ← type_line (tr_type text_region);
          content ← lift (concatenate_lines text_region);
          paragraphs unknown [UNKNOWN; type_; content]);;
       mret act_number);
  e ← at_end_of_stream text_region;
  when e (a ← self act; xf_write a);;
  modify (set_previous_type (tr_type text_region));;
  mret act_number.

(** ** The driver: [Conversion.__init__] and [Conversion.create_tei] *)

Section driver.
Context (fs : files).

(** [Conversion.__init__] for a folder pattern that [glob.glob]
    expands to [glob_result]. *)
Definition Conversion_init (glob_result : list string) : result world :=
  let file_list := py_sort id String.leb glob_result in
  let '(current_file, obj, k) :=
    match file_list with
    | f :: _ => (f, Some 0%nat, 1%nat)
    | [] => ("end", None, 0%nat)
    end in
  page ← Page_init fs current_file 50;
  Ok (mkWorld file_list k current_file obj page _FRONT None false None
              (fun _ => None) [] [] []).

(** [self.current_file = next(self.file_iter, "end")], then
    [if self.current_file != "end": self.page = Page(self.current_file)]. *)
Definition next_page : M unit :=
  k ← read file_iter;
  fl ← read file_list;
  modify (match fl !! k with
          | Some f => set_current_file f (Some k) (S k)
          | None => set_current_file "end" None k
          end);;
  cf ← read current_file;
  when (negb (String.eqb cf "end"))
       (p ← (fun w => (Page_init fs cf 50, w)); modify (set_page p)).

(** [text_region is self.page.text_region_list[-1]] for the loop
    variable [text_region], which is unbound before its first
    binding. *)
Definition is_last_region (text_region : option TextRegion) : M bool :=
  match text_region with
  | None => raise UnboundLocalError
  | Some r =>
      pg ← read page;
      l ← lift (py_last (pg_text_region_list pg));
      mret (Nat.eqb (tr_oid r) (tr_oid l))
  end.

(** [self.page.text_region_list[0].type in BODY_MARKER]. *)
Definition first_is_body_marker : M bool :=
  pg ← read page;
  r ← lift (py_first (pg_text_region_list pg));
  mret (type_in (tr_type r) BODY_MARKER).

(** The [except] clause of the two region loops. *)
Definition report (part : string) (text_region : TextRegion) (e : exn) : M unit :=
  cf ← read current_file;
  s ← lift (TextRegion_str text_region);
  print (FEHLER_region part cf s e).

(** The [for] loop of the front phase.  It returns the value the
    loop variable has when the loop is left. *)
Fixpoint front_for (l : list TextRegion) (text_region : option TextRegion)
  : M (option TextRegion) :=
  match l with
  | [] => mret text_region
  | r :: l' =>
      if type_in (tr_type r) BODY_MARKER then write_front;; mret (Some r)
      else
        try_except (build_front r) (report _FRONT r);;
        front_for l' (Some r)
  end.

(** [while self._text_part == self._FRONT: ...].  The loop need not
    end; [None] is returned when [fuel] rounds did not leave it. *)
Fixpoint front_while (fuel : nat) (text_region : option TextRegion)
  : M (option (option TextRegion)) :=
  tp ← read text_part;
  if String.eqb tp _FRONT then
    match fuel with
    | O => mret None
    | S fuel' =>
        pg ← read page;
        text_region ← front_for (pg_text_region_list pg) text_region;
        b ← is_last_region text_region;
        when b next_page;;
        m ← first_is_body_marker;
        if m : bool then write_front;; mret (Some text_region)
        else front_while fuel' text_region
    end
  else mret (Some text_region).

(** The [for] loop of the body phase. *)
Fixpoint body_for (l : list TextRegion) (text_region : option TextRegion)
    (act_number : Z) : M (option TextRegion * Z) :=
  match l with
  | [] => mret (text_region, act_number)
  | r :: l' =>
      act_number ← try_except (build_body r act_number)
                              (fun e => report _BODY r e;; mret act_number);
      body_for l' (Some r) act_number
  end.

(** [while self.current_file != "end": ...]; [None] when [fuel]
    rounds did not leave the loop. *)
Fixpoint body_while (fuel : nat) (text_region : option TextRegion)
    (act_number : Z) : M (option Z) :=
  cf ← read current_file;
  if negb (String.eqb cf "end") then
    match fuel with
    | O => mret None
    | S fuel' =>
        pg ← read page;
        '(text_region, act_number) ← body_for (pg_text_region_list pg) text_region act_number;
        b ← is_last_region text_region;
        when b next_page;;
        body_while fuel' text_region act_number
    end
  else mret (Some act_number).

Definition WRONG : string := EmptyString.

Definition TEI_attrib : list (string * string) :=
  [("xmlns", "http://www.tei-c.org/ns/1.0"); ("xml:id", "ger000"); ("xml:lang", "de")].

Definition dq : string := String (ascii_of_nat 34) EmptyString.

Definition pi1 : item :=
  PI "xml-stylesheet"
     ("type=" +:+ dq +:+ "text/css" +:+ dq +:+ " href=" +:+ dq +:+ "../css/tei.css" +:+ dq).

Definition pi2 : item :=
  PI "xml-model"
     ("href=" +:+ dq +:+ "https://dracor.org/schema.rng" +:+ dq +:+
      " type=" +:+ dq +:+ "application/xml" +:+ dq +:+
      " schematypens=" +:+ dq +:+ "http://relaxng.org/ns/structure/1.0" +:+ dq).

(** [with xf.element("teiHeader"): ...]: the header with its three
    empty statements. *)
Definition teiHeader : M unit :=
  xf_element "teiHeader" []
    (xf_element "fileDesc" []
       (xf_element "titleStmt" [] (xf_element "title" [] (emit (Text WRONG)));;
        xf_element "publicationStmt" [] (xf_element "publisher" [] (emit (Text WRONG)));;
        xf_element "sourceDesc" [] (xf_element "p" [] (emit (Text WRONG))))).

(** [with xf.element("text"): ...].  [false] is returned when [fuel]
    rounds did not leave one of the loops. *)
Definition text_element (fuel : nat) : M bool :=
  xf_element "text" []
    (m ← first_is_body_marker;
     when m (modify (set_text_part _BODY));;
     tp ← read text_part;
     left_front ← (if String.eqb tp _FRONT then
                     fr ← Element_ "front" [];
                     assign front_ (Some fr);;
                     front_while fuel None
                   else mret (Some None));
     match left_front with
     | None => mret false
     | Some text_region =>
         tp ← read text_part;
         if String.eqb tp _BODY then
           done ← xf_element "body" [] (body_while fuel text_region 0);
           mret (bool_decide (done ≠ None))
         else mret true
     end).

(** The part of [create_tei] inside [with etree.xmlfile(...) as xf]. *)
Definition document (fuel : nat) : M bool :=
  emit pi1;;
  emit pi2;;
  xf_element "TEI" TEI_attrib (teiHeader;; text_element fuel).

(** What a call of [create_tei] leaves behind: the file it wrote, if
    any, as the items following the constant prolog, and what it
    printed. *)
Record outcome : Type := mkOutcome {
  written : option (string * list item);
  printed : list message
}.

(** [Conversion.create_tei]: [None] when [fuel] rounds did not leave
    one of its loops.  An exception that reaches the outer handler is
    reported, and the file is not written. *)
Definition create_tei (fuel : nat) (file : string) (w : world) : option outcome :=
  match document fuel w with
  | (Ok true, w') => Some (mkOutcome (Some (file, xf w')) (stdout w' ++ [Bearbeitet file]))
  | (Ok false, _) => None
  | (Raise e, w') => Some (mkOutcome None (stdout w' ++ [FEHLER (current_file w') e]))
  end.

(** The script: [Conversion(pattern).create_tei(result_file)].  An
    exception of the constructor is not handled. *)
Inductive run : Type :=
  | Crashed (e : exn)
  | Finished (o : outcome).

Definition main (fuel : nat) (glob_result : list string) (result_file : string)
  : option run :=
  match Conversion_init glob_result with
  | Raise e => Some (Crashed e)
  | Ok w => Finished <$> create_tei fuel result_file w
  end.
End driver.

(** ** What the properties speak of *)

(** A [stage] element with the text [t] has become the last child of
    [parent], and nothing else in the store has changed. *)
Definition stage_added (parent : nat) (t : string) (w w' : world) : Prop :=
  store w' = (alter (add_child (length (store w))) parent (store w)
              ++ [mkNode "stage" [] (Some t) []])%list.

(** The trees, the scenario and the element attributes are the same. *)
Definition same_tree (w w' : world) : Prop :=
  store w' = store w /\ current_scenario w' = current_scenario w /\ refs w' = refs w.

(** [c2] is [c1] with more rounds granted: wherever [c1] does not end
    by running out of rounds (a result for which [timeout] holds), [c2]
    does what [c1] does. *)
Definition more_fuel {A} (timeout : A -> Prop) (c1 c2 : M A) : Prop :=
  forall w, (exists a w', c1 w = (Ok a, w') /\ timeout a) \/ c2 w = c1 w.

(** The acts among the items handed to the writer. *)
Definition is_act (i : item) : bool :=
  match i with
  | Tree e => has_tag "div" e && bool_decide (get e "type" = Some "act")
  | _ => false
  end.

Definition acts_written (o : outcome) : nat :=
  match written o with
  | Some (_, items) => length (List.filter is_act items)
  | None => O
  end.

(** The regions of type [header] of a page as resolved. *)
Definition header_regions (fs : files) (file : string) : nat :=
  match Page_init fs file 50 with
  | Ok pg => length (List.filter (fun r => is_type (tr_type r) "header") (pg_text_region_list pg))
  | Raise _ => O
  end.

(** The world in which the body loop, entered on the first page, has
    gone through the first [k] regions of that page, together with the
    region that comes next and the act number. *)
Definition reached (fs : files) (glob_result : list string) (k : nat)
  : option (world * TextRegion * Z) :=
  match Conversion_init fs glob_result with
  | Ok w =>
      let l := pg_text_region_list (page w) in
      match body_for (take k l) None 0 (set_text_part _BODY w), l !! k with
      | (Ok (_, n), w'), Some r => Some (w', r, n)
      | _, _ => None
      end
  | Raise _ => None
  end.

(* ===================================================================== *)
(** * Part V. Sample inputs *)
(* ===================================================================== *)

Module Sample.

Definition Unicode (s : string) : Element := Elem "Unicode" [] (Some s) [].

Definition TextEquiv (index s : string) : Element :=
  Elem "TextEquiv" [("index", index)] None [Unicode s].

Definition Coords (points : string) : Element :=
  Elem "Coords" [("points", points)] None [].

(** A text line with its polygon and one transcription. *)
Definition line (points s : string) : Element :=
  Elem "TextLine" [] None [Coords points; TextEquiv "0" s].

(** A line with three transcriptions: one without index, one with index
    2 and one with index 10. *)
Definition alternatives : Element :=
  Elem "TextLine" [] None
    [Coords "5,10 9,15";
     Elem "TextEquiv" [] None [Unicode "ohne"];
     TextEquiv "2" "zwei";
     TextEquiv "10" "zehn"].

(** A text region of three lines; the second has an empty [Unicode]
    element and the third an empty string as its text. *)
Definition with_empty_lines : Element :=
  Elem "TextRegion" [("id", "r1"); ("type", "paragraph")] None
    [line "5,10 9,15" "eins";
     Elem "TextLine" [] None
       [Coords "5,20 9,25"; Elem "TextEquiv" [("index", "0")] None [Elem "Unicode" [] None []]];
     line "5,30 9,35" EmptyString;
     line "5,40 9,45" "vier"].

Definition with_empty_lines_region : TextRegion :=
  Eval vm_compute in
    match TextRegion_init 0 with_empty_lines 50 with
    | Ok r => r
    | Raise _ => mkTextRegion 0 with_empty_lines None 50 [] 0 0
    end.

(** A text region of three lines, the lowest first. *)
Definition three_lines : Element :=
  Elem "TextRegion" [("id", "r1"); ("type", "paragraph")] None
    [line "5,30 9,35" "drei"; line "5,10 9,15" "eins"; line "5,20 9,25" "zwei"].

Definition three_lines_region : TextRegion :=
  Eval vm_compute in
    match TextRegion_init 0 three_lines 50 with
    | Ok r => r
    | Raise _ => mkTextRegion 0 three_lines None 50 [] 0 0
    end.

(** A text region of one line. *)
Definition region (id type points s : string) : Element :=
  Elem "TextRegion" [("id", id); ("type", type)] None [line points s].

Definition RegionRefIndexed (ref : string) : Element :=
  Elem "RegionRefIndexed" [("regionRef", ref)] None [].

(** A page with a reading order. *)
Definition PcGts (order : list string) (regions : list Element) : Element :=
  Elem "PcGts" [] None
    [Elem "Page" [] None
       (Elem "ReadingOrder" [] None
          [Elem "OrderedGroup" [] None (RegionRefIndexed <$> order)] :: regions)].

(** A page without reading order. *)
Definition PcGts_unordered (regions : list Element) : Element :=
  Elem "PcGts" [] None [Elem "Page" [] None regions].

Definition box1 : string := "10,10 90,10 90,20 10,20".
Definition box2 : string := "10,30 90,30 90,40 10,40".
Definition box3 : string := "10,50 90,50 90,60 10,60".
Definition box4 : string := "10,70 90,70 90,80 10,80".
Definition box5 : string := "10,90 90,90 90,99 10,99".

(** One page with the regions r1, r2, r3 in the document and the
    reading order r2, r9, r1. *)
Definition reordered : files :=
  {[ "data/p1.xml" :=
       PcGts ["r2"; "r9"; "r1"]
         [region "r1" "paragraph" box1 "eins";
          region "r2" "paragraph" box2 "zwei";
          region "r3" "paragraph" box3 "drei"] ]}.

Definition reordered_page : Page :=
  Eval vm_compute in
    match Page_init reordered "data/p1.xml" 50 with
    | Ok pg => pg
    | Raise _ => mkPage EmptyString 50 [] [] ∅
    end.

(** One page: a header, then a paragraph. *)
Definition header_paragraph : files :=
  {[ "data/p1.xml" :=
       PcGts ["r1"; "r2"]
         [region "r1" "header" box1 "Erster Akt";
          region "r2" "paragraph" box2 "Es war einmal."] ]}.

(** One page: a title, then a header and a heading. *)
Definition title_header_heading : files :=
  {[ "data/p1.xml" :=
       PcGts ["r1"; "r2"; "r3"]
         [region "r1" "catch-word" box1 "Titel";
          region "r2" "header" box2 "Erster Akt";
          region "r3" "heading" box3 "Erste Szene"] ]}.

(** One page: a preface paragraph, then a header as the last region. *)
Definition other_header : files :=
  {[ "data/p1.xml" :=
       PcGts ["r1"; "r2"]
         [region "r1" "other" box1 "Vorwort";
          region "r2" "header" box2 "Erster Akt"] ]}.

(** Two pages, one region each, neither page with a reading order. *)
Definition no_reading_order : files :=
  {[ "data/p1.xml" := PcGts_unordered [region "r1" "other" box1 "Hello"];
     "data/p2.xml" := PcGts_unordered [region "r1" "header" box1 "Act One"] ]}.

(** Two pages: a preface paragraph, then a page with header and
    heading. *)
Definition two_pages : files :=
  {[ "data/p1.xml" := PcGts ["r1"] [region "r1" "other" box1 "Vorwort"];
     "data/p2.xml" :=
       PcGts ["r1"; "r2"]
         [region "r1" "header" box1 "Erster Akt";
          region "r2" "heading" box2 "Erste Szene"] ]}.

(** One page: header and heading, both referenced. *)
Definition header_heading : files :=
  {[ "data/p1.xml" :=
       PcGts ["r1"; "r2"]
         [region "r1" "header" box1 "Erster Akt";
          region "r2" "heading" box2 "Erste Szene"] ]}.

(** Two pages; the second holds a region whose polygon has a token
    without comma, followed by a sound region. *)
Definition malformed_second_page : files :=
  {[ "data/p1.xml" :=
       PcGts ["r1"; "r2"]
         [region "r1" "header" box1 "Erster Akt";
          region "r2" "heading" box2 "Erste Szene"];
     "data/p2.xml" :=
       PcGts ["r1"; "r2"]
         [region "r1" "credit" "10 10,20" "HANS";
          region "r2" "credit" box2 "GRETE"] ]}.

(** One page: act, scene, speaker, then two captions. *)
Definition two_captions : files :=
  {[ "data/p1.xml" :=
       PcGts ["r1"; "r2"; "r3"; "r4"; "r5"]
         [region "r1" "header" box1 "Erster Akt";
          region "r2" "heading" box2 "Erste Szene";
          region "r3" "credit" box3 "HANS";
          region "r4" "caption" box4 "(leise)";
          region "r5" "caption" box5 "(geht ab)"] ]}.

(** Two pages: the first ends with a header, the second begins with
    one. *)
Definition marker_last_then_marker_first : files :=
  {[ "data/p1.xml" :=
       PcGts ["r1"; "r2"]
         [region "r1" "other" box1 "Vorwort";
          region "r2" "header" box2 "Erster Akt"];
     "data/p2.xml" :=
       PcGts ["r1"; "r2"]
         [region "r1" "header" box1 "Zweiter Akt";
          region "r2" "heading" box2 "Erste Szene"] ]}.

(** A region whose only line has a glyph without polygon. *)
Definition no_usable_lines : Element :=
  Elem "TextRegion" [("id", "r1"); ("type", "paragraph")] None
    [Elem "TextLine" [] None
       [Coords "5,10 9,15"; Elem "Word" [] None [Elem "Glyph" [] None []];
        TextEquiv "0" "eins"]].

(** One page whose first region has no usable line. *)
Definition unusable_first_page : files :=
  {[ "data/p1.xml" :=
       PcGts ["r1"; "r2"] [no_usable_lines; region "r2" "header" box2 "Erster Akt"] ]}.

(** Two pages; the second begins with the region without usable line,
    followed by a sound region. *)
Definition unusable_second_page : files :=
  {[ "data/p1.xml" :=
       PcGts ["r1"; "r2"]
         [region "r1" "header" box1 "Erster Akt";
          region "r2" "heading" box2 "Erste Szene"];
     "data/p2.xml" :=
       PcGts ["r1"; "r2"] [no_usable_lines; region "r2" "credit" box2 "GRETE"] ]}.

(** Two pages of front matter; the second holds a region whose polygon
    has a token without comma, followed by a header. *)
Definition malformed_page_in_front : files :=
  {[ "data/p1.xml" := PcGts ["r1"] [region "r1" "other" box1 "Vorwort"];
     "data/p2.xml" :=
       PcGts ["r1"; "r2"]
         [region "r1" "other" "10 10,20" "Fortsetzung";
          region "r2" "header" box2 "Erster Akt"] ]}.

(** [malformed_second_page] and [unusable_second_page] without their
    faulty region. *)
Definition sound_second_page : files :=
  {[ "data/p1.xml" :=
       PcGts ["r1"; "r2"]
         [region "r1" "header" box1 "Erster Akt";
          region "r2" "heading" box2 "Erste Szene"];
     "data/p2.xml" := PcGts ["r2"] [region "r2" "credit" box2 "GRETE"] ]}.

(** The world before the second caption of [two_captions], and that
    caption. *)
Definition before_second_caption : world * TextRegion * Z :=
  Eval vm_compute in
    match reached two_captions ["data/p1.xml"] 4 with
    | Some x => x
    | None =>
        (mkWorld [] 0 EmptyString None (mkPage EmptyString 50 [] [] ∅) EmptyString None
                 false None (fun _ => None) [] [] [],
         mkTextRegion 0 no_usable_lines None 50 [] 0 0, 0)
    end.

(** The world before the paragraph of [header_paragraph], and that
    paragraph. *)
Definition before_paragraph : world * TextRegion * Z :=
  Eval vm_compute in
    match reached header_paragraph ["data/p1.xml"] 1 with
    | Some x => x
    | None =>
        (mkWorld [] 0 EmptyString None (mkPage EmptyString 50 [] [] ∅) EmptyString None
                 false None (fun _ => None) [] [] [],
         mkTextRegion 0 no_usable_lines None 50 [] 0 0, 0)
    end.

(** The document around what the two phases write. *)
Definition envelope (inner : list item) : list item :=
  ([pi1; pi2; StartTag "TEI" TEI_attrib;
    StartTag "teiHeader" []; StartTag "fileDesc" [];
    StartTag "titleStmt" []; StartTag "title" []; Text WRONG; EndTag "title";
    EndTag "titleStmt";
    StartTag "publicationStmt" []; StartTag "publisher" []; Text WRONG;
    EndTag "publisher"; EndTag "publicationStmt";
    StartTag "sourceDesc" []; StartTag "p" []; Text WRONG; EndTag "p";
    EndTag "sourceDesc";
    EndTag "fileDesc"; EndTag "teiHeader"; StartTag "text" []]
   ++ inner ++ [EndTag "text"; EndTag "TEI"])%list.

(** What the run on [header_paragraph] leaves behind. *)
Definition header_paragraph_outcome : outcome :=
  mkOutcome
    (Some ("output/Datei.xml", envelope [StartTag "body" []; EndTag "body"]))
    [FEHLER_region _BODY "data/p1.xml"
       ("type=paragraph" +:+ nl +:+ "Es war einmal." +:+ nl +:+
        "TextLine(x=10, y=30)" +:+ nl +:+ "])") TypeError;
     Bearbeitet "output/Datei.xml"].

Definition set_placeholder : Element :=
  Elem "set" [] None [Elem "p" [] (Some WARN_set) []].

Definition act_with_scene (act_head scene_head : string) : Element :=
  Elem "div" [("type", "act")] None
    [Elem "head" [] (Some act_head) [];
     Elem "div" [("type", "scene")] None
       [Elem "head" [] (Some scene_head) [];
        Elem "stage" [] None [Elem "castList" [] None []]]].

End Sample.

(** ** The texts of the elements *)

(** The texts of the elements of the store, in the order in which the
    elements were made. *)
Definition element_texts (w : world) : list (option string) := n_text <$> store w.

(** The texts that [build_front] and [build_body] write without looking
    at the lines of the region. *)
Definition WARNINGS : list string :=
  [UNKNOWN; WARN_misplaced_head; WARN_title_page; WARN_role; WARN_footnote; WARN_spGrp;
   WARN_speaker; WARN_catch_word; WARN_not_placed; "WARNING!"].

(** No text, one of the warnings, the line with the type of the region,
    or the footnote warning with the name of the source file. *)
Definition warning_or_none (r : TextRegion) (x : option string) : Prop :=
  match x with
  | None => True
  | Some s =>
      s ∈ WARNINGS
      \/ (exists ty, tr_type r = Some ty /\ s = "type = " +:+ ty)
      \/ (exists name, s = WARN_footnote +:+ " Source file: " +:+ name)
  end.

(** One of the texts [l] is [t], and the others are warnings or
    missing. *)
Fixpoint holds_text (r : TextRegion) (t : string) (l : list (option string)) : Prop :=
  match l with
  | [] => False
  | x :: l' =>
      (x = Some t /\ Forall (warning_or_none r) l')
      \/ (warning_or_none r x /\ holds_text r t l')
  end.

(** [returns m w Q]: when [m] returns from [w], [Q] holds of what it
    returns and of the world it leaves. *)
Definition returns {A} (m : M A) (w : world) (Q : A -> world -> Prop) : Prop :=
  match m w with
  | (Ok a, w') => Q a w'
  | (Raise _, _) => True
  end.

(** ** What the further properties speak of *)


(** ** Statements that keep a relation

    [steps R m]: from every world, [m] leads to a world related to it by
    [R], whether it returns or raises. *)
Definition steps {A} (R : world -> world -> Prop) (m : M A) : Prop :=
  forall w, R w (m w).2.

(** The part of the world outside the trees under construction. *)
Definition around (w : world) :=
  (xf w, stdout w, text_part w, file_list w, file_iter w, current_file w,
   current_file_obj w, page w, current_scenario w).

(** [keeps f]: the relation between two worlds with the same [f]. *)
Definition keeps {X} (f : world -> X) (w w' : world) : Prop := f w' = f w.

(** The writer has received what it had, and possibly more after it. *)
Definition appended (w w' : world) : Prop := exists items, xf w' = (xf w ++ items)%list.

(** The phase is what it was, or it is the body. *)
Definition onward (w w' : world) : Prop :=
  text_part w' = text_part w \/ text_part w' = _BODY.

(** The region being folded is not the last region of the last page. *)
Definition before_the_end (r : TextRegion) (w : world) : Prop :=
  (at_end_of_stream r w).1 ≠ Ok true.

(** Where the run stands in its input. *)
Definition position (w : world) :=
  (file_list w, file_iter w, current_file w, current_file_obj w, page w, text_part w).

(** As long as [r] is not the last region of the last page, the writer
    and the position are the same. *)
Definition quiet (r : TextRegion) (w w' : world) : Prop :=
  before_the_end r w -> xf w' = xf w /\ position w' = position w.

(** [passes m a]: [m] returns [a] and leaves the position alone. *)
Definition passes {A} (m : M A) (a : A) : Prop :=
  forall w, exists w', m w = (Ok a, w') /\ position w' = position w.

(** [str(text_region)] returns. *)
Definition printable (r : TextRegion) : bool :=
  match TextRegion_str r with Ok _ => true | Raise _ => false end.

(** A page that has regions, none of them a body marker, all of them
    printable. *)
Definition front_only (pg : Page) : bool :=
  match pg_text_region_list pg with
  | [] => false
  | l => forallb (fun r => negb (type_in (tr_type r) BODY_MARKER) && printable r) l
  end.

(** Every file of [l] loads, to a page that is [front_only]. *)
Definition front_pages (fs : files) (l : list string) : bool :=
  forallb (fun f => match Page_init fs f 50 with
                    | Ok pg => front_only pg
                    | Raise _ => false
                    end) l.

(** Further sample inputs. *)
Module More.
Import Sample.

(** A page on which two text regions carry the id r1. *)
Definition equal_ids : files :=
  {[ "data/p1.xml" :=
       PcGts ["r1"]
         [region "r1" "paragraph" box1 "eins";
          region "r1" "paragraph" box2 "zwei"] ]}.

Definition equal_ids_page : Page :=
  Eval vm_compute in
    match Page_init equal_ids "data/p1.xml" 50 with
    | Ok pg => pg
    | Raise _ => mkPage EmptyString 50 [] [] ∅
    end.

Definition unordered_page : Page :=
  Eval vm_compute in
    match Page_init no_reading_order "data/p1.xml" 50 with
    | Ok pg => pg
    | Raise _ => mkPage EmptyString 50 [] [] ∅
    end.

(** The world before the header of [header_paragraph], and that
    header. *)
Definition before_header : world * TextRegion * Z :=
  Eval vm_compute in
    match reached header_paragraph ["data/p1.xml"] 0 with
    | Some x => x
    | None =>
        (mkWorld [] 0 EmptyString None (mkPage EmptyString 50 [] [] ∅) EmptyString None
                 false None (fun _ => None) [] [] [],
         mkTextRegion 0 no_usable_lines None 50 [] 0 0, 0)
    end.

(** The world before the first caption of [two_captions], and that
    caption. *)
Definition before_first_caption : world * TextRegion * Z :=
  Eval vm_compute in
    match reached two_captions ["data/p1.xml"] 3 with
    | Some x => x
    | None =>
        (mkWorld [] 0 EmptyString None (mkPage EmptyString 50 [] [] ∅) EmptyString None
                 false None (fun _ => None) [] [] [],
         mkTextRegion 0 no_usable_lines None 50 [] 0 0, 0)
    end.

(** The converter as constructed on [two_pages], the second page
    listed first. *)
Definition two_pages_start : world :=
  Eval vm_compute in
    match Conversion_init two_pages ["data/p2.xml"; "data/p1.xml"] with
    | Ok w => w
    | Raise _ =>
        mkWorld [] 0 EmptyString None (mkPage EmptyString 50 [] [] ∅) EmptyString None
                false None (fun _ => None) [] [] []
    end.

(** A page of one region, which is no body marker. *)
Definition preface_only : files :=
  {[ "data/p1.xml" := PcGts ["r1"] [region "r1" "other" box1 "Vorrede"] ]}.

End More.

(* ===================================================================== *)
(** * Part VI. Lemmas and theorems *)
(* ===================================================================== *)

(** ** The stable sort *)
Section py_sort_facts.
Context {A K : Type} (key : A -> K) (leb : K -> K -> bool).
Hypothesis leb_total : forall a b, leb a b = true \/ leb b a = true.
Hypothesis leb_trans : forall a b c, leb a b = true -> leb b c = true -> leb a c = true.

Let le_key (a b : A) : Prop := leb (key a) (key b) = true.

Lemma insert_by_key_perm a l : insert_by_key key leb a l ≡ₚ a :: l.
Proof.
  induction l as [|b l IH]; simpl; [done|].
  destruct (leb (key a) (key b)); [done|].
  rewrite IH. apply perm_swap.
Qed.

Lemma py_sort_perm l : py_sort key leb l ≡ₚ l.
Proof.
  induction l as [|a l IH]; simpl; [done|].
  rewrite insert_by_key_perm. by rewrite IH.
Qed.

Lemma insert_by_key_sorted a l :
  Sorted le_key l -> Sorted le_key (insert_by_key key leb a l).
Proof.
  induction 1 as [|b l Hs IH Hb]; simpl.
  - repeat constructor.
  - destruct (leb (key a) (key b)) eqn:Hab.
    + constructor; [by constructor|]. by constructor.
    + constructor; [done|].
      assert (le_key b a) as Hba.
      { destruct (leb_total (key a) (key b)) as [H'|H']; [congruence|done]. }
      destruct Hb as [|c l' Hbc]; simpl.
      * by constructor.
      * destruct (leb (key a) (key c)); by constructor.
Qed.

Lemma py_sort_sorted l : Sorted le_key (py_sort key leb l).
Proof.
  induction l as [|a l IH]; simpl; [constructor|].
  by apply insert_by_key_sorted.
Qed.

Lemma py_sort_strongly_sorted l : StronglySorted le_key (py_sort key leb l).
Proof.
  apply Sorted_StronglySorted; [|apply py_sort_sorted].
  intros a b c. unfold le_key. apply leb_trans.
Qed.

(** Stability: the elements of one tie class come out in the order in
    which they went in. *)
Lemma insert_by_key_tie k a l :
  List.filter (fun b => tie leb (key b) k) (insert_by_key key leb a l)
  = List.filter (fun b => tie leb (key b) k) (a :: l).
Proof.
  induction l as [|b l IH]; [done|].
  cbn [insert_by_key].
  destruct (leb (key a) (key b)) eqn:Hab; [done|].
  cbn [List.filter] in *. rewrite IH.
  destruct (tie leb (key a) k) eqn:Ha, (tie leb (key b) k) eqn:Hb; try done.
  exfalso. unfold tie in *.
  apply andb_true_iff in Ha as [Ha1 Ha2], Hb as [Hb1 Hb2].
  rewrite (leb_trans _ _ _ Ha1 Hb2) in Hab. discriminate.
Qed.

Lemma py_sort_stable k l :
  List.filter (fun b => tie leb (key b) k) (py_sort key leb l)
  = List.filter (fun b => tie leb (key b) k) l.
Proof.
  induction l as [|a l IH]; [done|].
  cbn [py_sort foldr]. rewrite insert_by_key_tie.
  cbn [List.filter]. fold (py_sort key leb l). by rewrite IH.
Qed.

(** The first element of the sorted list has a least key, and is the
    first element of the list with a key in its tie class. *)
Lemma py_sort_first m rest l :
  py_sort key leb l = m :: rest ->
  Forall (fun a => leb (key m) (key a) = true) l
  /\ head (List.filter (fun b => tie leb (key b) (key m)) l) = Some m.
Proof.
  intros Hs. split.
  - pose proof (py_sort_strongly_sorted l) as Hss. rewrite Hs in Hss.
    apply StronglySorted_inv in Hss as [_ Hall].
    assert (Forall (fun a => leb (key m) (key a) = true) (m :: rest)) as Hm.
    { constructor; [|done]. by destruct (leb_total (key m) (key m)). }
    rewrite <- Hs in Hm. by rewrite py_sort_perm in Hm.
  - rewrite <- py_sort_stable, Hs. cbn [List.filter].
    unfold tie at 1.
    assert (leb (key m) (key m) = true) as -> by by destruct (leb_total (key m) (key m)).
    done.
Qed.

Lemma py_sort_nil l : py_sort key leb l = [] -> l = [].
Proof.
  intros Hs. apply Permutation_nil. by rewrite <- (py_sort_perm l), Hs.
Qed.
End py_sort_facts.

(** ** Sequencing in [result] *)

Lemma mapM_Ok {A B} (f : A -> result B) l k :
  mapM f l = Ok k -> Forall2 (fun x y => f x = Ok y) l k.
Proof.
  revert k. induction l as [|x l IH]; intros k; cbn.
  - intros [= <-]. constructor.
  - destruct (f x) as [y|] eqn:Hx; [|discriminate]. cbn.
    destruct (mapM f l) as [k'|] eqn:Hl; [|discriminate]. cbn.
    intros [= <-]. constructor; [done|]. by apply IH.
Qed.

Lemma mapM_Ok_inv {A B} (f : A -> result B) l k :
  Forall2 (fun x y => f x = Ok y) l k -> mapM f l = Ok k.
Proof.
  induction 1 as [|x y l k Hx _ IH]; cbn; [done|].
  rewrite Hx. cbn. rewrite IH. done.
Qed.

Lemma mapM_app_Ok {A B} (f : A -> result B) (l1 l2 : list A) (k1 k2 : list B) :
  mapM f l1 = Ok k1 -> mapM f l2 = Ok k2 -> mapM f (l1 ++ l2)%list = Ok (k1 ++ k2)%list.
Proof.
  intros H1%mapM_Ok H2%mapM_Ok. apply mapM_Ok_inv. by apply Forall2_app.
Qed.

(** ** The order of the lines of a region *)

Lemma line_of_text_line coords line l :
  line_of coords line = Ok l -> tl_text_line l = line.
Proof.
  unfold line_of. destruct (get_of _ _) as [a|]; [|discriminate]. cbn.
  destruct (convert_coordinates a) as [pts|]; [|discriminate]. cbn.
  destruct (get_reference_point pts) as [p|]; [|discriminate]. cbn.
  by intros [= <-].
Qed.

Lemma glyph_lines_sublist text_line ls :
  glyph_lines text_line = Ok ls -> sublist (tl_text_line <$> ls) text_line.
Proof.
  revert ls. induction text_line as [|line rest IH]; intros ls; cbn.
  - intros [= <-]. constructor.
  - destruct (line_of find_Glyph_Coords line) as [l|e] eqn:Hl.
    + destruct (glyph_lines rest) as [ls'|]; [|discriminate]. cbn.
      intros [= <-]. cbn. rewrite (line_of_text_line _ _ _ Hl).
      constructor. by apply IH.
    + destruct e; try discriminate. intros H. constructor. by apply IH.
Qed.

Lemma Z_leb_total (a b : Z) : (a <=? b) = true \/ (b <=? a) = true.
Proof. lia. Qed.

Lemma Z_leb_trans (a b c : Z) : (a <=? b) = true -> (b <=? c) = true -> (a <=? c) = true.
Proof. lia. Qed.

Lemma tie_Z (a b : Z) : tie Z.leb a b = (a =? b).
Proof. unfold tie. lia. Qed.

(** C7. A region that can be constructed has its lines in non-decreasing
    order of the y of their reference points, and the lines with one and
    the same y stand in the order in which the document has them: the lines
    are a rearrangement of the usable lines in document order that keeps,
    for every y, the sequence of the lines with that y. *)
Theorem region_lines_sorted_by_y (oid : nat) (text_region : Element) (line_height : Z)
    (r : TextRegion) :
  TextRegion_init oid text_region line_height = Ok r ->
  StronglySorted (fun a b => tl_y a <= tl_y b) (tr_line r)
  /\ exists document_order : list TextLine,
       tr_line r ≡ₚ document_order
       /\ sublist (tl_text_line <$> document_order) (findall_desc "TextLine" text_region)
       /\ forall y, List.filter (fun l => tl_y l =? y) (tr_line r)
                    = List.filter (fun l => tl_y l =? y) document_order.
Proof.
  unfold TextRegion_init. destruct (line_height <? 0); [discriminate|].
  destruct (get_lines text_region) as [lines|] eqn:Hlines; [|discriminate]. cbn.
  destruct (py_first lines) as [l0|]; [|discriminate]. cbn.
  intros [= <-]. cbn [tr_line].
  unfold get_lines in Hlines.
  match type of Hlines with (?m ≫= _) = _ => destruct m as [ls|] eqn:Hls end;
    [|discriminate].
  cbn in Hlines. injection Hlines as <-. split.
  - pose proof (py_sort_strongly_sorted tl_y Z.leb Z_leb_total Z_leb_trans ls) as Hss.
    induction Hss as [|a l _ IH Hall]; constructor; [done|].
    eapply List.Forall_impl; [|exact Hall]. intros b. cbn. lia.
  - exists ls. split; [apply py_sort_perm|]. split.
    + destruct (head (findall_desc "Glyph" text_region)).
      * by apply glyph_lines_sublist.
      * apply mapM_Ok in Hls.
        assert (tl_text_line <$> ls = findall_desc "TextLine" text_region) as ->; [|done].
        induction Hls as [|x y l k Hxy _ IH]; [done|].
        cbn. rewrite IH. by rewrite (line_of_text_line _ _ _ Hxy).
    + intros y.
      rewrite (List.filter_ext _ (fun b => tie Z.leb (tl_y b) y))
        by (intros a; by rewrite tie_Z).
      rewrite (py_sort_stable tl_y Z.leb Z_leb_trans y ls).
      apply List.filter_ext. intros a. by rewrite tie_Z.
Qed.

(** The lines with y = 30, 10, 20 come out with y = 10, 20, 30. *)
Lemma region_lines_sorted_by_y_witness :
  TextRegion_init 0 Sample.three_lines 50 = Ok Sample.three_lines_region
  /\ tl_y <$> tr_line Sample.three_lines_region = [10; 20; 30]
  /\ StronglySorted (fun a b => tl_y a <= tl_y b) (tr_line Sample.three_lines_region).
Proof.
  split; [vm_compute; reflexivity|]. split; [vm_compute; reflexivity|].
  apply (region_lines_sorted_by_y 0 Sample.three_lines 50 Sample.three_lines_region).
  vm_compute; reflexivity.
Defined.

(** ** The reading order of a page *)

Lemma region_dict_spec (l : list TextRegion) i tr :
  region_dict l !! i = Some tr -> region_id tr = i /\ tr ∈ l.
Proof.
  unfold region_dict.
  assert (forall m : gmap (option string) TextRegion,
            (forall i tr, m !! i = Some tr -> region_id tr = i /\ tr ∈ l) ->
            forall l', l' ⊆ l ->
            forall i tr,
              foldl (fun m tr => <[region_id tr := tr]> m) m l' !! i = Some tr ->
              region_id tr = i /\ tr ∈ l) as H.
  { intros m Hm l'. revert m Hm.
    induction l' as [|r l' IH]; intros m Hm Hsub j t; cbn; [by apply Hm|].
    apply IH.
    - intros j' t'. destruct (decide (region_id r = j')) as [<-|Hne].
      + rewrite lookup_insert_eq. intros [= <-]. split; [done|].
        apply Hsub. by left.
      + rewrite lookup_insert_ne by done. apply Hm.
    - intros x Hx. apply Hsub. by right. }
  apply (H ∅); [|done]. intros j t. by rewrite lookup_empty.
Qed.

Lemma region_dict_is_Some (l : list TextRegion) i :
  is_Some (region_dict l !! i) <-> exists tr, tr ∈ l /\ region_id tr = i.
Proof.
  split.
  - intros [tr Htr]. apply region_dict_spec in Htr as [? ?]. eauto.
  - unfold region_dict.
    assert (forall (l' : list TextRegion) (m : gmap (option string) TextRegion),
              (is_Some (m !! i) \/ exists tr, tr ∈ l' /\ region_id tr = i) ->
              is_Some (foldl (fun m tr => <[region_id tr := tr]> m) m l' !! i))
      as H.
    { induction l' as [|r l' IH]; intros m Hm; cbn.
      - destruct Hm as [?|(tr & Hin & _)]; [done|]. by apply elem_of_nil in Hin.
      - apply IH. destruct (decide (region_id r = i)) as [Hr|Hr].
        + left. rewrite Hr, lookup_insert_eq. eauto.
        + destruct Hm as [Hm|(tr & Hin & Hid)].
          * left. by rewrite lookup_insert_ne.
          * apply elem_of_cons in Hin as [->|Hin]; [done|]. right. eauto. }
    intros Hex. apply H. by right.
Qed.

Lemma build_regions_elements k tr line_height rs :
  build_regions k tr line_height = Ok rs -> tr_text_region <$> rs = tr.
Proof.
  revert k rs. induction tr as [|e tr IH]; intros k rs; cbn.
  - by intros [= <-].
  - destruct (TextRegion_init k e line_height) as [r|] eqn:Hr; [|discriminate]. cbn.
    destruct (build_regions (S k) tr line_height) as [rs'|] eqn:Hrs; [|discriminate]. cbn.
    intros [= <-]. cbn. rewrite (IH _ _ Hrs). f_equal.
    unfold TextRegion_init in Hr. destruct (line_height <? 0); [discriminate|].
    destruct (get_lines e); [|discriminate]. cbn in Hr.
    destruct (py_first _); [|discriminate]. cbn in Hr. by injection Hr as <-.
Qed.

Lemma omap_lookup_filter (d : gmap (option string) TextRegion) (ro : list (option string)) :
  Forall2 (fun i tr => d !! i = Some tr)
          (filter (fun i => is_Some (d !! i)) ro)
          (omap (fun region_id => d !! region_id) ro).
Proof.
  induction ro as [|i ro IH]; [constructor|].
  rewrite filter_cons.
  change (omap (fun region_id => d !! region_id) (i :: ro))
    with (match d !! i with
          | Some tr => tr :: omap (fun region_id => d !! region_id) ro
          | None => omap (fun region_id => d !! region_id) ro
          end).
  destruct (d !! i) as [tr|] eqn:Hi.
  - rewrite decide_True by eauto. by constructor.
  - rewrite decide_False by (by intros [? ?]). done.
Qed.

(** C1. On a page whose mapping of regions is not empty, the resolved
    region list is the list of the identifiers of the reading order that the
    mapping knows, in the order of the reading order, each replaced by the
    region the mapping gives it; a region of the mapping whose identifier
    the reading order does not name is not in the list.  The mapping knows
    exactly the identifiers of the text regions of the page that have a
    text line as a child. *)
Theorem reading_order_selects_regions (fs : files) (file : string) (line_height : Z)
    (root : Element) (pg : Page) :
  fs !! file = Some root ->
  Page_init fs file line_height = Ok pg ->
  pg_text_region_dict pg ≠ ∅ ->
  pg_reading_order pg = parse_reading_order root
  /\ (forall i, is_Some (pg_text_region_dict pg !! i)
                <-> exists el, el ∈ findall_TextRegion root /\ get el "id" = i)
  /\ Forall2 (fun i tr => pg_text_region_dict pg !! i = Some tr /\ region_id tr = i)
             (filter (fun i => is_Some (pg_text_region_dict pg !! i)) (pg_reading_order pg))
             (pg_text_region_list pg)
  /\ (forall i tr, pg_text_region_dict pg !! i = Some tr ->
                   i ∉ pg_reading_order pg -> tr ∉ pg_text_region_list pg).
Proof.
  intros Hroot. unfold Page_init. rewrite Hroot.
  destruct (build_regions 0 (findall_TextRegion root) line_height) as [rs|] eqn:Hrs;
    [|discriminate].
  cbn. intros [= <-]. cbn. intros Hne.
  unfold sort_text_region. rewrite decide_False by done.
  assert (Forall2 (fun i tr => region_dict rs !! i = Some tr /\ region_id tr = i)
            (filter (fun i => is_Some (region_dict rs !! i)) (parse_reading_order root))
            (omap (fun region_id => region_dict rs !! region_id) (parse_reading_order root)))
    as Hall.
  { pose proof (omap_lookup_filter (region_dict rs) (parse_reading_order root)) as H.
    induction H as [|i tr ? ? Hi _ IH]; constructor; [|done].
    split; [done|]. by apply region_dict_spec in Hi as [? _]. }
  split; [done|]. split; [|split; [done|]].
  - intros i. rewrite region_dict_is_Some.
    apply build_regions_elements in Hrs. rewrite <- Hrs. split.
    + intros (tr & Hin & Hid). exists (tr_text_region tr). split; [|done].
      apply list_elem_of_fmap. eauto.
    + intros (el & Hin & Hid). apply list_elem_of_fmap in Hin as (tr & -> & Hin). eauto.
  - intros i tr Hi Hnot Hin.
    apply region_dict_spec in Hi as [Hid _].
    apply list_elem_of_lookup in Hin as [n Hn].
    destruct (Forall2_lookup_r _ _ _ _ _ Hall Hn) as (j & Hj & _ & Hidj).
    apply list_elem_of_lookup_2 in Hj. apply list_elem_of_filter in Hj as [_ Hj].
    congruence.
Qed.

(** With the regions r1, r2, r3 and the reading order r2, r9, r1 the
    resolved list is r2, r1. *)
Lemma reading_order_selects_regions_witness :
  region_id <$> pg_text_region_list Sample.reordered_page = [Some "r2"; Some "r1"]
  /\ Forall2 (fun i tr => pg_text_region_dict Sample.reordered_page !! i = Some tr
                          /\ region_id tr = i)
       (filter (fun i => is_Some (pg_text_region_dict Sample.reordered_page !! i))
               (pg_reading_order Sample.reordered_page))
       (pg_text_region_list Sample.reordered_page).
Proof.
  split; [vm_compute; reflexivity|].
  refine (proj1 (proj2 (proj2
    (reading_order_selects_regions Sample.reordered "data/p1.xml" 50
       (Sample.PcGts ["r2"; "r9"; "r1"]
          [Sample.region "r1" "paragraph" Sample.box1 "eins";
           Sample.region "r2" "paragraph" Sample.box2 "zwei";
           Sample.region "r3" "paragraph" Sample.box3 "drei"])
       Sample.reordered_page _ _ _)))).
  - vm_compute; reflexivity.
  - vm_compute; reflexivity.
  - intros H. apply (f_equal (fun m => m !! Some "r1")) in H. vm_compute in H. discriminate.
Defined.

(** ** The text of a line *)

Lemma String_leb_trans (a b c : string) :
  String.leb a b = true -> String.leb b c = true -> String.leb a c = true.
Proof.
  unfold String.leb. revert b c.
  induction a as [|ca a IH]; intros [|cb b] [|cc c]; cbn; try done.
  unfold Ascii.compare.
  destruct (N.compare_spec (N_of_ascii ca) (N_of_ascii cb)) as [Hab|Hab|Hab];
    destruct (N.compare_spec (N_of_ascii cb) (N_of_ascii cc)) as [Hbc|Hbc|Hbc];
    destruct (N.compare_spec (N_of_ascii ca) (N_of_ascii cc)) as [Hac|Hac|Hac];
    try done; try lia.
  apply IH.
Qed.

Lemma String_leb_refl (a : string) : String.leb a a = true.
Proof. by destruct (String.leb_total a a). Qed.

Lemma tie_String (a b : string) : tie String.leb a b = String.eqb a b.
Proof.
  unfold tie. destruct (String.eqb_spec a b) as [->|Hne].
  - by rewrite String_leb_refl.
  - apply andb_false_iff.
    destruct (String.leb a b) eqn:Hab; [|by left].
    destruct (String.leb b a) eqn:Hba; [|by right].
    destruct Hne. by apply String.leb_antisym.
Qed.

Lemma filter_fmap_bool {A B} (g : A -> B) (P : B -> bool) (l : list A) :
  List.filter P (g <$> l) = g <$> List.filter (fun a => P (g a)) l.
Proof.
  induction l as [|a l IH]; [done|]. cbn. destruct (P (g a)); cbn; by rewrite IH.
Qed.

Lemma findall_TextEquiv_index_spec (line : Element) :
  (findall_TextEquiv_index line).*2
  = List.filter (fun e => bool_decide (is_Some (get e "index"))) (findall_child "TextEquiv" line)
  /\ Forall (fun ie => get ie.2 "index" = Some ie.1) (findall_TextEquiv_index line).
Proof.
  unfold findall_TextEquiv_index.
  induction (findall_child "TextEquiv" line) as [|e l [IH1 IH2]]; [by split|].
  change (omap ?f (e :: l)) with (match f e with Some y => y :: omap f l | None => omap f l end).
  cbn [List.filter]. cbn beta. destruct (get e "index") as [i|] eqn:Hi; cbn.
  - split; [by rewrite IH1|]. by constructor.
  - by split.
Qed.

(** C8. The alternatives that [get_text] looks at are exactly the
    [TextEquiv] children of the line that carry an [index] attribute, in
    document order.  When each of them has a [Unicode] child, the result
    is: the empty string when there is none; otherwise the text of the
    alternative whose index is least in the order of strings, the first of
    them in the document when several carry that index. *)
Theorem get_text_smallest_index (ln : TextLine) :
  let te := findall_TextEquiv_index (tl_text_line ln) in
  (te.*2 = List.filter (fun e => bool_decide (is_Some (get e "index")))
                       (findall_child "TextEquiv" (tl_text_line ln))
   /\ Forall (fun ie => get ie.2 "index" = Some ie.1) te)
  /\ (Forall (fun ie => findall_child "Unicode" ie.2 ≠ []) te ->
      (te = [] -> get_text ln = Ok (Some EmptyString))
      /\ (te ≠ [] ->
          exists i e u,
            head (List.filter (fun ie => String.eqb ie.1 i) te) = Some (i, e)
            /\ Forall (fun ie => String.leb i ie.1 = true) te
            /\ head (findall_child "Unicode" e) = Some u
            /\ get_text ln = Ok (text u))).
Proof.
  intros te. split; [apply findall_TextEquiv_index_spec|]. intros Huni.
  set (g := fun ie : string * Element =>
              (ie.1, default None (text <$> head (findall_child "Unicode" ie.2)))).
  assert (get_text ln =
          match py_first (py_sort fst String.leb (g <$> te)) with
          | Ok it => Ok it.2
          | Raise _ => Ok (Some EmptyString)
          end) as Hget.
  { unfold get_text. fold te.
    replace (mapM _ te) with (Ok (g <$> te) : result (list (string * option string)));
      [done|].
    symmetry. apply mapM_Ok_inv. clear -Huni.
    induction Huni as [|ie l Hie _ IH]; cbn; constructor; [|done].
    unfold g. destruct (findall_child "Unicode" ie.2); [done|]. done. }
  split.
  - intros Hnil. rewrite Hget, Hnil. done.
  - intros Hne. rewrite Hget.
    destruct (py_sort fst String.leb (g <$> te)) as [|m rest] eqn:Hsort.
    { apply py_sort_nil in Hsort. by destruct te. }
    destruct (py_sort_first fst String.leb String.leb_total String_leb_trans _ _ _ Hsort)
      as [Hmin Hhead].
    rewrite filter_fmap_bool in Hhead.
    destruct (List.filter (fun a => tie String.leb (g a).1 m.1) te) as [|[i e] l] eqn:Hf;
      [discriminate|].
    cbn in Hhead. injection Hhead as Hm. subst m. cbn [fst snd] in *.
    assert (In (i, e) te) as Hin.
    { eapply (proj1 (List.filter_In _ _ _)). rewrite Hf. by left. }
    assert (findall_child "Unicode" e ≠ []) as He.
    { rewrite List.Forall_forall in Huni. apply (Huni _ Hin). }
    destruct (findall_child "Unicode" e) as [|u us] eqn:Hu; [done|].
    exists i, e, u. split; [|split; [|split]].
    + erewrite List.filter_ext; [by rewrite Hf|].
      intros [j e']. cbn. by rewrite tie_String.
    + rewrite Forall_fmap in Hmin. exact Hmin.
    + by rewrite Hu.
    + unfold g. cbn. by rewrite Hu.
Qed.

(** With the indices 2 and 10 the text of the alternative 10 is
    returned, as ["10"] comes before ["2"] in the order of strings. *)
Lemma get_text_smallest_index_witness :
  get_text (TextLine_init Sample.alternatives (5, 10)) = Ok (Some "zehn")
  /\ exists i e u,
       head (List.filter (fun ie => String.eqb ie.1 i)
               (findall_TextEquiv_index Sample.alternatives)) = Some (i, e)
       /\ Forall (fun ie => String.leb i ie.1 = true)
                 (findall_TextEquiv_index Sample.alternatives)
       /\ head (findall_child "Unicode" e) = Some u
       /\ get_text (TextLine_init Sample.alternatives (5, 10)) = Ok (text u).
Proof.
  split; [vm_compute; reflexivity|].
  refine (proj2 (proj2 (get_text_smallest_index
                          (TextLine_init Sample.alternatives (5, 10))) _) _).
  - vm_compute. repeat constructor; discriminate.
  - vm_compute. discriminate.
Defined.

(** ** The text of a region *)

Lemma mapM_app_inv {A B} (f : A -> result B) (l1 l2 : list A) (k : list B) :
  mapM f (l1 ++ l2)%list = Ok k ->
  exists k1 k2, k = (k1 ++ k2)%list /\ mapM f l1 = Ok k1 /\ mapM f l2 = Ok k2.
Proof.
  intros H%mapM_Ok. apply Forall2_app_inv_l in H as (k1 & k2 & H1 & H2 & ->).
  exists k1, k2. split; [done|]. split; by apply mapM_Ok_inv.
Qed.

Lemma filter_None_app (l1 l2 : list (option string)) :
  filter_None (l1 ++ l2)%list = (filter_None l1 ++ filter_None l2)%list.
Proof. unfold filter_None. apply omap_app. Qed.

Lemma filter_None_spec (texts : list (option string)) :
  Some <$> filter_None texts
  = filter (fun t => t ≠ None /\ t ≠ Some EmptyString) texts.
Proof.
  induction texts as [|t texts IH]; [done|].
  rewrite filter_cons. unfold filter_None in *.
  change (omap truthy (t :: texts))
    with (match truthy t with Some y => y :: omap truthy texts | None => omap truthy texts end).
  destruct t as [[|c s]|]; cbn [truthy].
  - rewrite decide_False by (intros [_ H]; by apply H). done.
  - rewrite decide_True by done. cbn. by rewrite IH.
  - rewrite decide_False by (intros [H _]; by apply H). done.
Qed.

(** The text in the elements, statement by statement. *)

Lemma returns_bind {A B} (m : M A) (k : A -> M B) (w : world) (Q : B -> world -> Prop) :
  returns m w (fun a w1 => returns (k a) w1 Q) -> returns (m ≫= k) w Q.
Proof.
  unfold returns. cbv [mbind M_bind]. by destruct (m w) as [[a|e] w1].
Qed.

Lemma returns_mret {A} (a : A) (w : world) (Q : A -> world -> Prop) :
  Q a w -> returns (mret a) w Q.
Proof. done. Qed.

Lemma returns_raise {A} (e : exn) (w : world) (Q : A -> world -> Prop) :
  returns (raise e) w Q.
Proof. done. Qed.

Lemma returns_read {A} (f : world -> A) (w : world) (Q : A -> world -> Prop) :
  Q (f w) w -> returns (read f) w Q.
Proof. done. Qed.

Lemma returns_lift {A} (r : result A) (w : world) (Q : A -> world -> Prop) :
  (forall a, r = Ok a -> Q a w) -> returns (lift r) w Q.
Proof. intros H. unfold returns, lift. destruct r; [by apply H|done]. Qed.

Lemma returns_same {A} (m : M A) (w : world) (Q : A -> world -> Prop) :
  (forall w0, element_texts (m w0).2 = element_texts w0) ->
  (forall a w', element_texts w' = element_texts w -> Q a w') ->
  returns m w Q.
Proof.
  intros Hm HQ. unfold returns. specialize (Hm w).
  destruct (m w) as [[a|e] w']; [by apply HQ|done].
Qed.

Lemma returns_Element (tag : string) (attrs : list (string * string)) (w : world)
    (Q : nat -> world -> Prop) :
  (forall c w', c = length (element_texts w) ->
                element_texts w' = (element_texts w ++ [None])%list -> Q c w') ->
  returns (Element_ tag attrs) w Q.
Proof.
  intros HQ. unfold returns, Element_. apply HQ.
  - unfold element_texts. by rewrite length_fmap.
  - unfold element_texts. cbn. by rewrite fmap_app.
Qed.

Lemma alter_add_child_texts (c p : nat) (st : list node) :
  n_text <$> alter (add_child c) p st = n_text <$> st.
Proof.
  apply list_eq. intros i. rewrite !list_lookup_fmap.
  destruct (decide (i = p)) as [->|Hne].
  - rewrite list_lookup_alter_eq. by destruct (st !! p).
  - by rewrite list_lookup_alter_ne.
Qed.

Lemma returns_SubElement (parent : option nat) (tag : string)
    (attrs : list (string * string)) (w : world) (Q : nat -> world -> Prop) :
  (forall c w', c = length (element_texts w) ->
                element_texts w' = (element_texts w ++ [None])%list -> Q c w') ->
  returns (SubElement parent tag attrs) w Q.
Proof.
  intros HQ. unfold returns, SubElement. destruct parent as [p|]; [|done].
  cbv [mbind M_bind Element_ modify mret M_ret]. apply HQ.
  - unfold element_texts. by rewrite length_fmap.
  - unfold element_texts. cbn. by rewrite alter_add_child_texts, fmap_app.
Qed.

Lemma returns_assign_text (e : nat) (t : option string) (w : world)
    (Q : unit -> world -> Prop) :
  (forall w', element_texts w' = <[e := t]> (element_texts w) -> Q tt w') ->
  returns (assign_text e t) w Q.
Proof.
  intros HQ. unfold returns, assign_text, modify. apply HQ.
  unfold element_texts. cbn. apply list_eq. intros i.
  rewrite list_lookup_fmap.
  destruct (decide (i = e)) as [->|Hne].
  - rewrite list_lookup_alter_eq.
    destruct (store w !! e) as [n|] eqn:Hn; cbn.
    + rewrite list_lookup_insert_eq; [done|].
      rewrite length_fmap. by apply lookup_lt_Some in Hn.
    + rewrite list_insert_ge; [by rewrite list_lookup_fmap, Hn|].
      rewrite length_fmap. by apply lookup_ge_None in Hn.
  - rewrite list_lookup_alter_ne, list_lookup_insert_ne by done.
    by rewrite list_lookup_fmap.
Qed.

Lemma element_texts_xf_write (e : option nat) (w : world) :
  element_texts (xf_write e w).2 = element_texts w.
Proof. by destruct e. Qed.

Lemma element_texts_at_end_of_stream (r : TextRegion) (w : world) :
  element_texts (at_end_of_stream r w).2 = element_texts w.
Proof.
  unfold at_end_of_stream. cbv [mbind M_bind read lift mret M_ret].
  destruct (py_last (file_list w)); [|done].
  destruct (bool_decide _); [|done].
  by destruct (py_last (pg_text_region_list (page w))).
Qed.

Lemma insert_new_text (l new : list (option string)) (k : nat) (t : option string) :
  <[(length l + k)%nat := t]> (l ++ new)%list = (l ++ <[k := t]> new)%list.
Proof. apply insert_app_r. Qed.

Lemma holds_text_split (r : TextRegion) (t : string) (l : list (option string)) :
  holds_text r t l ->
  exists pre post, l = (pre ++ Some t :: post)%list
                   /\ Forall (warning_or_none r) pre /\ Forall (warning_or_none r) post.
Proof.
  induction l as [|x l IH]; cbn; [done|].
  intros [[-> Hl]|[Hx Hl]].
  - by exists [], l.
  - destruct (IH Hl) as (pre & post & -> & Hpre & Hpost).
    exists (x :: pre), post. split; [done|]. split; [by constructor|done].
Qed.

(** One step of a statement, with the texts made since [w0] kept in one
    equation. *)
Ltac texts_new Hw Hw' :=
  rewrite Hw in Hw'; rewrite <- ?app_assoc in Hw'; cbn [app] in Hw'.

Ltac text_warning :=
  lazymatch goal with
  | |- warning_or_none _ None => exact I
  | |- warning_or_none _ (Some (_ +:+ " Source file: " +:+ _)) =>
      right; right; eexists; reflexivity
  | |- warning_or_none _ (Some ("type = " +:+ _)) =>
      right; left; eexists; split; [eassumption|reflexivity]
  | |- warning_or_none _ (Some _) =>
      left; unfold WARNINGS;
      repeat first [apply list_elem_of_here | apply list_elem_of_further]
  end.

Ltac text_held :=
  cbn [holds_text];
  first [ left; split; [reflexivity|repeat (constructor; [text_warning|]); constructor]
        | right; split; [text_warning|text_held] ].

Ltac returns_step t Ht w0 :=
  lazymatch goal with
  | |- returns (mbind _ _) _ _ => apply returns_bind
  | |- returns (mret _) _ _ => apply returns_mret
  | |- returns skip _ _ => apply returns_mret
  | |- returns (raise _) _ _ => apply returns_raise
  | |- returns (read _) _ _ => apply returns_read
  | |- returns (self _) _ _ => apply returns_read
  | |- returns (when ?b _) _ _ => destruct b; cbn [when]
  | |- returns (lift (concatenate_lines _)) _ _ =>
      rewrite Ht; apply returns_lift; intros ? [= <-]
  | |- returns (lift _) _ _ => apply returns_lift; intros ? _
  | Hw : element_texts ?w = _ |- returns (Element_ _ _) ?w _ =>
      let c := fresh "c" in let w' := fresh "w" in
      let Hc := fresh "Hc" in let Hw' := fresh "Hw" in
      apply returns_Element; intros c w' Hc Hw';
      rewrite Hw, length_app in Hc; cbn [length] in Hc;
      texts_new Hw Hw'; clear Hw; subst c
  | Hw : element_texts ?w = _ |- returns (SubElement _ _ _) ?w _ =>
      let c := fresh "c" in let w' := fresh "w" in
      let Hc := fresh "Hc" in let Hw' := fresh "Hw" in
      apply returns_SubElement; intros c w' Hc Hw';
      rewrite Hw, length_app in Hc; cbn [length] in Hc;
      texts_new Hw Hw'; clear Hw; subst c
  | Hw : element_texts ?w = _ |- returns (assign_text _ _) ?w _ =>
      let w' := fresh "w" in let Hw' := fresh "Hw" in
      apply returns_assign_text; intros w' Hw';
      rewrite Hw, insert_new_text in Hw'; cbn [list_insert list.list_insert] in Hw'; clear Hw
  | Hw : element_texts ?w = _ |- returns (xf_write _) ?w _ =>
      let w' := fresh "w" in let Hw' := fresh "Hw" in
      apply returns_same; [apply element_texts_xf_write|intros ? w' Hw'];
      rewrite Hw in Hw'; clear Hw
  | Hw : element_texts ?w = _ |- returns (at_end_of_stream _) ?w _ =>
      let w' := fresh "w" in let Hw' := fresh "Hw" in
      apply returns_same; [apply element_texts_at_end_of_stream|intros ? w' Hw'];
      rewrite Hw in Hw'; clear Hw
  | Hw : element_texts ?w = _ |- returns (assign _ _) ?w _ =>
      let w' := fresh "w" in let Hw' := fresh "Hw" in
      apply returns_same; [intros ?; reflexivity|intros ? w' Hw'];
      rewrite Hw in Hw'; clear Hw
  | Hw : element_texts ?w = _ |- returns (print _) ?w _ =>
      let w' := fresh "w" in let Hw' := fresh "Hw" in
      apply returns_same; [intros ?; reflexivity|intros ? w' Hw'];
      rewrite Hw in Hw'; clear Hw
  | Hw : element_texts ?w = _ |- returns (modify _) ?w _ =>
      let w' := fresh "w" in let Hw' := fresh "Hw" in
      apply returns_same; [intros ?; reflexivity|intros ? w' Hw'];
      rewrite Hw in Hw'; clear Hw
  | |- returns (type_line ?ty) _ _ =>
      let Hty := fresh "Hty" in unfold type_line; destruct ty eqn:Hty
  | |- returns (paragraphs _ _) _ _ => cbn [paragraphs]
  | |- returns (caption_branch _) _ _ => unfold caption_branch
  | |- returns (continues _ _) _ _ => unfold continues
  | |- returns (scenario_is _) _ _ => unfold scenario_is
  | |- returns prologue_or_scene _ _ => unfold prologue_or_scene
  | |- returns (if ?b then _ else _) _ _ => destruct b
  | |- returns (match ?x with _ => _ end) _ _ => destruct x
  | Hw : element_texts ?w = _ |- exists new, element_texts ?w = _ /\ _ =>
      eexists; split; [exact Hw|text_held]
  end.

Ltac returns_go t Ht w0 := repeat (cbv beta; returns_step t Ht w0).

Lemma build_front_text (r : TextRegion) (t : string) (w0 : world) :
  concatenate_lines r = Ok t ->
  returns (build_front r) w0
    (fun _ w' => exists new, element_texts w' = (element_texts w0 ++ new)%list
                             /\ holds_text r t new).
Proof.
  intros Ht.
  assert (element_texts w0 = (element_texts w0 ++ [])%list) as Hw0
    by (by rewrite app_nil_r).
  revert Hw0. generalize w0 at 1 3. intros w Hw.
  unfold build_front. returns_go t Ht w0.
Qed.

Lemma build_body_text (r : TextRegion) (n : Z) (t : string) (w0 : world) :
  concatenate_lines r = Ok t ->
  returns (build_body r n) w0
    (fun _ w' => exists new, element_texts w' = (element_texts w0 ++ new)%list
                             /\ holds_text r t new).
Proof.
  intros Ht.
  assert (element_texts w0 = (element_texts w0 ++ [])%list) as Hw0
    by (by rewrite app_nil_r).
  revert Hw0. generalize w0 at 1 3. intros w Hw.
  unfold build_body. returns_go t Ht w0.
Qed.

(** C10. The text of a region is the texts of its lines, without those
    that are [None] or empty, joined by line feeds; removing a line whose
    text is [None] or empty from the region leaves the text as it is;
    [build_front] and [build_body] depend on the lines of the region only
    through that text; and when [build_front] or [build_body] returns, the
    texts of the elements it found are as they were, one of the elements it
    made has that text, and every other element it made has no text, one of
    the warnings, the line with the type of the region, or the footnote
    warning. *)
Theorem concatenate_lines_joins_nonempty (r : TextRegion) (texts : list (option string)) :
  mapM get_text (tr_line r) = Ok texts ->
  concatenate_lines r = Ok (py_join nl (filter_None texts))
  /\ Some <$> filter_None texts = filter (fun t => t ≠ None /\ t ≠ Some EmptyString) texts
  /\ (forall l1 ln l2,
        tr_line r = (l1 ++ ln :: l2)%list ->
        get_text ln = Ok None \/ get_text ln = Ok (Some EmptyString) ->
        concatenate_lines (with_lines r (l1 ++ l2)) = concatenate_lines r)
  /\ (forall r' n w,
        tr_type r' = tr_type r -> tr_oid r' = tr_oid r ->
        concatenate_lines r' = concatenate_lines r ->
        build_front r' w = build_front r w /\ build_body r' n w = build_body r n w)
  /\ (forall w u w',
        build_front r w = (Ok u, w') ->
        exists pre post,
          element_texts w'
          = (element_texts w ++ pre ++ Some (py_join nl (filter_None texts)) :: post)%list
          /\ Forall (warning_or_none r) pre /\ Forall (warning_or_none r) post)
  /\ (forall n w m w',
        build_body r n w = (Ok m, w') ->
        exists pre post,
          element_texts w'
          = (element_texts w ++ pre ++ Some (py_join nl (filter_None texts)) :: post)%list
          /\ Forall (warning_or_none r) pre /\ Forall (warning_or_none r) post).
Proof.
  intros Htexts.
  assert (concatenate_lines r = Ok (py_join nl (filter_None texts))) as Ht
    by (unfold concatenate_lines; by rewrite Htexts).
  split; [exact Ht|split; [apply filter_None_spec|split; [|split; [|split]]]].
  - intros l1 ln l2 Hline Hln. unfold concatenate_lines. cbn [with_lines tr_line].
    rewrite Hline in *.
    apply mapM_app_inv in Htexts as (k1 & k2 & -> & Hk1 & Hk2).
    change (ln :: l2) with ([ln] ++ l2)%list in Hk2.
    apply mapM_app_inv in Hk2 as (k & k3 & -> & Hk & Hk3).
    pose proof (mapM_app_Ok _ _ _ _ _ Hk1 (mapM_app_Ok _ _ _ _ _ Hk Hk3)) as Hall.
    change ([ln] ++ l2)%list with (ln :: l2) in Hall. rewrite Hall.
    rewrite (mapM_app_Ok _ _ _ _ _ Hk1 Hk3). cbn.
    rewrite !filter_None_app.
    assert (filter_None k = []) as ->; [|done].
    cbn in Hk. destruct Hln as [Hln|Hln]; rewrite Hln in Hk; cbn in Hk;
      by injection Hk as <-.
  - intros r' n w Htype Hoid Hcl. split.
    + unfold build_front. by rewrite Htype, Hcl.
    + unfold build_body, caption_branch, at_end_of_stream. by rewrite Htype, Hoid, Hcl.
  - intros w u w' Hrun.
    pose proof (build_front_text r _ w Ht) as H. unfold returns in H. rewrite Hrun in H.
    destruct H as (new & Hnew & Hheld).
    apply holds_text_split in Hheld as (pre & post & -> & Hpre & Hpost).
    by exists pre, post.
  - intros n w m w' Hrun.
    pose proof (build_body_text r n _ w Ht) as H. unfold returns in H. rewrite Hrun in H.
    destruct H as (new & Hnew & Hheld).
    apply holds_text_split in Hheld as (pre & post & -> & Hpre & Hpost).
    by exists pre, post.
Qed.

(** Of four lines with the texts [eins], [None], the empty string and
    [vier], the text has the first and the last, and one line feed; folded
    as a paragraph into the open speech of [two_captions], the region
    makes one element, which has that text. *)
Lemma concatenate_lines_joins_nonempty_witness :
  mapM get_text (tr_line Sample.with_empty_lines_region)
    = Ok [Some "eins"; None; Some EmptyString; Some "vier"]
  /\ concatenate_lines Sample.with_empty_lines_region = Ok ("eins" +:+ nl +:+ "vier")
  /\ concatenate_lines Sample.with_empty_lines_region
     = Ok (py_join nl (filter_None [Some "eins"; None; Some EmptyString; Some "vier"]))
  /\ element_texts
       (build_body Sample.with_empty_lines_region 1 Sample.before_second_caption.1.1).2
     = (element_texts Sample.before_second_caption.1.1
        ++ [Some ("eins" +:+ nl +:+ "vier")])%list
  /\ exists pre post,
       element_texts
         (build_body Sample.with_empty_lines_region 1 Sample.before_second_caption.1.1).2
       = (element_texts Sample.before_second_caption.1.1
          ++ pre
          ++ Some (py_join nl (filter_None [Some "eins"; None; Some EmptyString;
                                            Some "vier"])) :: post)%list
       /\ Forall (warning_or_none Sample.with_empty_lines_region) pre
       /\ Forall (warning_or_none Sample.with_empty_lines_region) post.
Proof.
  assert (mapM get_text (tr_line Sample.with_empty_lines_region)
          = Ok [Some "eins"; None; Some EmptyString; Some "vier"]) as Htexts
    by (vm_compute; reflexivity).
  assert (build_body Sample.with_empty_lines_region 1 Sample.before_second_caption.1.1
          = (Ok 1,
             (build_body Sample.with_empty_lines_region 1
                Sample.before_second_caption.1.1).2)) as Hrun
    by (vm_compute; reflexivity).
  destruct (concatenate_lines_joins_nonempty Sample.with_empty_lines_region
              [Some "eins"; None; Some EmptyString; Some "vier"] Htexts)
    as (Hjoin & _ & _ & _ & _ & Hbody).
  split; [exact Htexts|]. split; [vm_compute; reflexivity|]. split; [exact Hjoin|].
  split; [vm_compute; reflexivity|].
  exact (Hbody 1 Sample.before_second_caption.1.1 1 _ Hrun).
Defined.

(** ** The order in which the files are found *)

Global Instance String_leb_transitive : Transitive (fun a b => String.leb a b = true).
Proof. intros a b c. apply String_leb_trans. Qed.

Global Instance String_leb_antisymm : AntiSymm (=) (fun a b => String.leb a b = true).
Proof. intros a b. apply String.leb_antisym. Qed.

Lemma sorted_file_list_unique (l1 l2 : list string) :
  l1 ≡ₚ l2 -> py_sort id String.leb l1 = py_sort id String.leb l2.
Proof.
  intros Hperm.
  apply (Sorted_unique (fun a b => String.leb a b = true)).
  - apply (py_sort_sorted id String.leb String.leb_total).
  - apply (py_sort_sorted id String.leb String.leb_total).
  - by rewrite !py_sort_perm.
Qed.

(** ** Statements on a symbolic world *)

Lemma M_bind_Ok {A B} (m : M A) (k : A -> M B) (w w' : world) (a : A) :
  m w = (Ok a, w') -> (m ≫= k) w = k a w'.
Proof. intros H. unfold mbind, M_bind. by rewrite H. Qed.

Lemma new_child_store (st : list node) (parent : nat) (tag : string)
    (attrs : list (string * string)) (t : option string) :
  (parent < length st)%nat ->
  alter (fun n => mkNode (n_tag n) (n_attrib n) t (n_children n)) (length st)
        (alter (add_child (length st)) parent (st ++ [mkNode tag attrs None []]))
  = (alter (add_child (length st)) parent st ++ [mkNode tag attrs t []])%list.
Proof.
  intros Hlt. rewrite alter_app_l by done.
  rewrite <- (length_alter (add_child (length st)) st parent) at 1.
  rewrite <- (Nat.add_0_r (length (alter _ _ _))). by rewrite alter_app_r.
Qed.

(** The end of [build_body], from the test for the end of the stream
    on, writes and records the type but builds nothing. *)
Lemma build_body_tail_same_tree (r : TextRegion) (ty : option string) (n : Z) (w : world) :
  same_tree w
    ((e ← at_end_of_stream r;
      when e (a ← self act; xf_write a);;
      modify (set_previous_type ty);;
      mret n) w).2.
Proof.
  unfold at_end_of_stream, same_tree.
  cbv [mbind M_bind read lift].
  destruct (py_last (file_list w)); [|done].
  case_bool_decide; [|done].
  destruct (py_last (pg_text_region_list (page w))) as [l|]; [|done].
  cbn. destruct (tr_oid r =? tr_oid l)%nat; [|done]. cbn.
  unfold self, read, xf_write. destruct (refs w act); done.
Qed.

(** ** Rounds granted to the loops

    A run that ends within the rounds granted ends in the same way with
    any greater number of rounds. *)

Lemma M_bind_ext_on {A B} (m : M A) (k1 k2 : A -> M B) (w : world) :
  (forall a w', m w = (Ok a, w') -> k1 a w' = k2 a w') ->
  (m ≫= k1) w = (m ≫= k2) w.
Proof.
  intros H. unfold mbind, M_bind. destruct (m w) as [[a|e] w'] eqn:E; [|done]. by apply H.
Qed.

Lemma M_bind_fst {A B} (m : M A) (k : A -> M B) (w : world) (P : result B -> Prop) :
  P ((m ≫= k) w).1 ->
  forall a w', m w = (Ok a, w') -> P (k a w').1.
Proof. intros H a w' E. unfold mbind, M_bind in H. by rewrite E in H. Qed.

Section loops.
Context (fs : files).

Lemma front_while_more (fuel : nat) : forall tr w,
  (front_while fs fuel tr w).1 ≠ Ok None ->
  front_while fs (S fuel) tr w = front_while fs fuel tr w.
Proof.
  induction fuel as [|fuel IH]; intros tr w Hne.
  - cbn [front_while] in *. unfold mbind, M_bind, read in *.
    destruct (String.eqb (text_part w) _FRONT); [|done]. by destruct Hne.
  - remember (S fuel) as f1 eqn:Hf1.
    cbn [front_while]. rewrite Hf1 in *. cbn [front_while] in Hne |- *.
    apply M_bind_ext_on. intros tp w0 E0.
    pose proof (M_bind_fst _ _ _ (fun r => r ≠ Ok None) Hne _ _ E0) as H0. cbv beta in H0.
    destruct (String.eqb tp _FRONT); [|done].
    apply M_bind_ext_on. intros pg w1 E1.
    pose proof (M_bind_fst _ _ _ (fun r => r ≠ Ok None) H0 _ _ E1) as H1. cbv beta in H1.
    apply M_bind_ext_on. intros tr1 w2 E2.
    pose proof (M_bind_fst _ _ _ (fun r => r ≠ Ok None) H1 _ _ E2) as H2. cbv beta in H2.
    apply M_bind_ext_on. intros b w3 E3.
    pose proof (M_bind_fst _ _ _ (fun r => r ≠ Ok None) H2 _ _ E3) as H3. cbv beta in H3.
    apply M_bind_ext_on. intros u w4 E4.
    pose proof (M_bind_fst _ _ _ (fun r => r ≠ Ok None) H3 _ _ E4) as H4. cbv beta in H4.
    apply M_bind_ext_on. intros m w5 E5.
    pose proof (M_bind_fst _ _ _ (fun r => r ≠ Ok None) H4 _ _ E5) as H5. cbv beta in H5.
    destruct m; [done|]. by apply IH.
Qed.

Lemma body_while_more (fuel : nat) : forall tr n w,
  (body_while fs fuel tr n w).1 ≠ Ok None ->
  body_while fs (S fuel) tr n w = body_while fs fuel tr n w.
Proof.
  induction fuel as [|fuel IH]; intros tr n w Hne.
  - cbn [body_while] in *. unfold mbind, M_bind, read in *.
    destruct (negb (String.eqb (current_file w) "end")); [|done]. by destruct Hne.
  - remember (S fuel) as f1 eqn:Hf1.
    cbn [body_while]. rewrite Hf1 in *. cbn [body_while] in Hne |- *.
    apply M_bind_ext_on. intros cf w0 E0.
    pose proof (M_bind_fst _ _ _ (fun r => r ≠ Ok None) Hne _ _ E0) as H0. cbv beta in H0.
    destruct (negb (String.eqb cf "end")); [|done].
    apply M_bind_ext_on. intros pg w1 E1.
    pose proof (M_bind_fst _ _ _ (fun r => r ≠ Ok None) H0 _ _ E1) as H1. cbv beta in H1.
    apply M_bind_ext_on. intros [tr1 n1] w2 E2.
    pose proof (M_bind_fst _ _ _ (fun r => r ≠ Ok None) H1 _ _ E2) as H2. cbv beta iota in H2.
    apply M_bind_ext_on. intros b w3 E3.
    pose proof (M_bind_fst _ _ _ (fun r => r ≠ Ok None) H2 _ _ E3) as H3. cbv beta in H3.
    apply M_bind_ext_on. intros u w4 E4.
    pose proof (M_bind_fst _ _ _ (fun r => r ≠ Ok None) H3 _ _ E4) as H4. cbv beta in H4.
    by apply IH.
Qed.
End loops.

Lemma more_fuel_refl {A} (T : A -> Prop) (c : M A) : more_fuel T c c.
Proof. intros w. by right. Qed.

Lemma more_fuel_bind {A B} (T1 : A -> Prop) (T2 : B -> Prop) (m1 m2 : M A)
    (k1 k2 : A -> M B) :
  more_fuel T1 m1 m2 ->
  (forall a, T1 a -> forall w, exists b w', k1 a w = (Ok b, w') /\ T2 b) ->
  (forall a, more_fuel T2 (k1 a) (k2 a)) ->
  more_fuel T2 (m1 ≫= k1) (m2 ≫= k2).
Proof.
  intros Hm Hout Hk w. unfold mbind, M_bind.
  destruct (Hm w) as [(a & w' & E & Ta)|E].
  - left. rewrite E. destruct (Hout a Ta w') as (b & w'' & E' & Tb). eauto.
  - rewrite E. destruct (m1 w) as [[a|e] w']; [|by right]. apply Hk.
Qed.

Lemma more_fuel_bind_same {A B} (T : B -> Prop) (m : M A) (k1 k2 : A -> M B) :
  (forall a, more_fuel T (k1 a) (k2 a)) -> more_fuel T (m ≫= k1) (m ≫= k2).
Proof.
  intros Hk. apply (more_fuel_bind (fun _ => False)); [apply more_fuel_refl|done|done].
Qed.

Lemma more_fuel_xf_element {A} (T : A -> Prop) (name : string)
    (attrs : list (string * string)) (c1 c2 : M A) :
  more_fuel T c1 c2 -> more_fuel T (xf_element name attrs c1) (xf_element name attrs c2).
Proof.
  intros Hc. unfold xf_element. apply more_fuel_bind_same. intros _.
  apply (more_fuel_bind T); [done| |intros a; apply more_fuel_refl].
  intros a Ta w. by eexists _, _.
Qed.

Section rounds.
Context (fs : files).

Lemma front_while_more_fuel (fuel : nat) (tr : option TextRegion) :
  more_fuel (fun r => r = None) (front_while fs fuel tr) (front_while fs (S fuel) tr).
Proof.
  intros w. destruct (front_while fs fuel tr w) as [[[r|]|e] w'] eqn:E.
  - right. rewrite <- E. apply front_while_more. by rewrite E.
  - left. eauto.
  - right. rewrite <- E. apply front_while_more. by rewrite E.
Qed.

Lemma body_while_more_fuel (fuel : nat) (tr : option TextRegion) (n : Z) :
  more_fuel (fun r => r = None) (body_while fs fuel tr n) (body_while fs (S fuel) tr n).
Proof.
  intros w. destruct (body_while fs fuel tr n w) as [[[r|]|e] w'] eqn:E.
  - right. rewrite <- E. apply body_while_more. by rewrite E.
  - left. eauto.
  - right. rewrite <- E. apply body_while_more. by rewrite E.
Qed.

Lemma text_element_more_fuel (fuel : nat) :
  more_fuel (fun b => b = false) (text_element fs fuel) (text_element fs (S fuel)).
Proof.
  unfold text_element. apply more_fuel_xf_element.
  apply more_fuel_bind_same. intros m.
  apply more_fuel_bind_same. intros _.
  apply more_fuel_bind_same. intros tp.
  apply (more_fuel_bind (fun r => r = None)).
  - destruct (String.eqb tp _FRONT); [|apply more_fuel_refl].
    apply more_fuel_bind_same. intros fr.
    apply more_fuel_bind_same. intros _.
    apply front_while_more_fuel.
  - intros a -> w. by eexists _, _.
  - intros [tr|]; [|apply more_fuel_refl].
    apply more_fuel_bind_same. intros tp'.
    destruct (String.eqb tp' _BODY); [|apply more_fuel_refl].
    apply (more_fuel_bind (fun r => r = None)).
    + apply more_fuel_xf_element, body_while_more_fuel.
    + intros a -> w. by eexists _, _.
    + intros a. apply more_fuel_refl.
Qed.

Lemma document_more_fuel (fuel : nat) :
  more_fuel (fun b => b = false) (document fs fuel) (document fs (S fuel)).
Proof.
  unfold document.
  apply more_fuel_bind_same. intros _.
  apply more_fuel_bind_same. intros _.
  apply more_fuel_xf_element.
  apply more_fuel_bind_same. intros _.
  apply text_element_more_fuel.
Qed.

Lemma create_tei_more_fuel (fuel : nat) (file : string) (w : world) (o : outcome) :
  create_tei fs fuel file w = Some o -> create_tei fs (S fuel) file w = Some o.
Proof.
  unfold create_tei. destruct (document_more_fuel fuel w) as [(a & w' & E & ->)|E].
  - by rewrite E.
  - by rewrite E.
Qed.

Lemma main_more_fuel (fuel k : nat) (glob_result : list string) (result_file : string)
    (r : run) :
  main fs fuel glob_result result_file = Some r ->
  main fs (fuel + k) glob_result result_file = Some r.
Proof.
  intros H. induction k as [|k IH]; [by rewrite Nat.add_0_r|].
  rewrite Nat.add_succ_r. unfold main in *.
  destruct (Conversion_init fs glob_result) as [w|e]; [|done].
  destruct (create_tei fs (fuel + k) result_file w) as [o|] eqn:E; [|done].
  by rewrite (create_tei_more_fuel _ _ _ _ E).
Qed.
End rounds.

(** ** Determinism *)

(** C9. The run is a function of the file system and of the set of
    files that the pattern matches: in whatever order [glob] lists the
    files, the file written and the messages printed are the same; and a
    run that has ended ends in the same way when the loops are granted
    more rounds. *)
Theorem main_independent_of_glob_order (fs : files) (fuel k : nat) (l1 l2 : list string)
    (result_file : string) :
  l1 ≡ₚ l2 ->
  main fs fuel l1 result_file = main fs fuel l2 result_file
  /\ (forall r, main fs fuel l1 result_file = Some r ->
                 main fs (fuel + k) l2 result_file = Some r).
Proof.
  intros Hperm.
  assert (main fs fuel l1 result_file = main fs fuel l2 result_file) as Heq.
  { unfold main, Conversion_init. by rewrite (sorted_file_list_unique l1 l2 Hperm). }
  split; [done|]. intros r Hr. apply main_more_fuel. by rewrite <- Heq.
Qed.

Lemma main_independent_of_glob_order_witness :
  ["data/p2.xml"; "data/p1.xml"] ≡ₚ ["data/p1.xml"; "data/p2.xml"]
  /\ main Sample.two_pages 1 ["data/p2.xml"; "data/p1.xml"] "output/Datei.xml"
     = main Sample.two_pages 1 ["data/p1.xml"; "data/p2.xml"] "output/Datei.xml".
Proof.
  split; [apply perm_swap|].
  exact (proj1 (main_independent_of_glob_order Sample.two_pages 1 0
                  ["data/p2.xml"; "data/p1.xml"] ["data/p1.xml"; "data/p2.xml"]
                  "output/Datei.xml" (perm_swap _ _ _))).
Defined.

(** ** Captions in the body *)

Lemma caption_branch_normal (w : world) (r : TextRegion) (t : string) (parent : nat) :
  concatenate_lines r = Ok t ->
  (parent < length (store w))%nat ->
  ((previous_type w = Some "credit" \/ previous_type w = Some "heading")
     /\ (refs w sp = Some parent \/ (refs w sp = None /\ refs w scene = Some parent)))
  \/ (previous_type w = Some "caption" /\ current_scenario w = Some "normal"
      /\ (refs w prologue = Some parent
          \/ (refs w prologue = None /\ refs w scene = Some parent))) ->
  exists w', caption_branch r w = (Ok tt, w')
             /\ stage_added parent t w w'
             /\ current_scenario w' = Some "normal" /\ refs w' = refs w.
Proof.
  intros Ht Hlt Hcase. unfold caption_branch, continues, scenario_is, prologue_or_scene.
  cbv [mbind M_bind read self].
  assert (exists w',
            (Ok tt,
             set_current_scenario (Some "normal")
               (set_store
                  (alter (fun n0 => mkNode (n_tag n0) (n_attrib n0) (Some t) (n_children n0))
                     (length (store w))
                     (alter (add_child (length (store w))) parent
                        (store w ++ [mkNode "stage" [] None []])))
                  (set_store
                     (alter (add_child (length (store w))) parent
                        (store w ++ [mkNode "stage" [] None []]))
                     (set_store (store w ++ [mkNode "stage" [] None []]) w))))
            = (Ok tt, w')
            /\ stage_added parent t w w'
            /\ current_scenario w' = Some "normal" /\ refs w' = refs w) as Hdone.
  { eexists. split; [reflexivity|]. unfold stage_added. cbn -[alter].
    by rewrite new_child_store. }
  destruct Hcase as [[Hprev Hparent]|(Hprev & Hscen & Hparent)].
  - assert (exists p, previous_type w = Some p /\ (p = "credit" \/ p = "heading"))
      as (p & Hp & Hp') by (destruct Hprev; eauto).
    rewrite Hp.
    assert (is_type (Some p) "header" = false) as -> by (by destruct Hp' as [-> | ->]).
    assert (is_type (Some p) "caption" = false) as -> by (by destruct Hp' as [-> | ->]).
    assert (is_type (Some p) "paragraph" = false) as -> by (by destruct Hp' as [-> | ->]).
    assert (type_in (Some p) ["credit"; "heading"; "scene"] = true) as ->
      by (by destruct Hp' as [-> | ->]).
    cbn -[alter].
    destruct Hparent as [Hsp|[Hsp Hsc]].
    + rewrite Hsp. cbn -[alter]. rewrite Ht. exact Hdone.
    + rewrite Hsp. cbn -[alter]. rewrite Hsc. cbn -[alter]. rewrite Ht. exact Hdone.
  - rewrite Hprev. cbn -[alter]. rewrite Hscen. cbn -[alter]. rewrite Hscen. cbn -[alter].
    destruct Hparent as [Hpr|[Hpr Hsc]].
    + rewrite Hpr. cbn -[alter]. rewrite Ht. exact Hdone.
    + rewrite Hpr. cbn -[alter]. rewrite Hsc. cbn -[alter]. rewrite Ht. exact Hdone.
Qed.

(** C6, as the code has it.  In the body, a caption whose text is [t]
    becomes a new [stage] element with that text, and the scenario becomes
    [normal]: after a credit or a heading, under the open speech when there
    is one and else under the open scene; after a caption in the scenario
    [normal], under the open prologue when there is one and else under the
    open scene, whether a speech is open or not. *)
Theorem caption_becomes_stage (w : world) (r : TextRegion) (n : Z)
    (t : string) (parent : nat) :
  tr_type r = Some "caption" ->
  concatenate_lines r = Ok t ->
  (parent < length (store w))%nat ->
  ((previous_type w = Some "credit" \/ previous_type w = Some "heading")
     /\ (refs w sp = Some parent \/ (refs w sp = None /\ refs w scene = Some parent)))
  \/ (previous_type w = Some "caption" /\ current_scenario w = Some "normal"
      /\ (refs w prologue = Some parent
          \/ (refs w prologue = None /\ refs w scene = Some parent))) ->
  let w' := (build_body r n w).2 in
  stage_added parent t w w' /\ current_scenario w' = Some "normal" /\ refs w' = refs w.
Proof.
  intros Htype Ht Hlt Hcase.
  destruct (caption_branch_normal w r t parent Ht Hlt Hcase)
    as (w1 & Hbranch & Hadded & Hscen & Hrefs).
  unfold build_body. rewrite Htype.
  change (is_type (Some "caption") "header") with false.
  change (is_type (Some "caption") "heading") with false.
  change (is_type (Some "caption") "TOC-entry") with false.
  change (is_type (Some "caption") "signature-mark") with false.
  change (is_type (Some "caption") "floating") with false.
  change (type_in (Some "caption") ["credit"; "drop-capital"]) with false.
  change (is_type (Some "caption") "paragraph") with false.
  change (is_type (Some "caption") "caption") with true.
  cbv iota.
  erewrite M_bind_Ok; [|by erewrite M_bind_Ok].
  destruct (build_body_tail_same_tree r (Some "caption") n w1) as (Hst & Hsc & Hrf).
  cbv zeta. unfold stage_added in *. rewrite Hst, Hsc, Hrf. done.
Qed.

(** The second caption of [two_captions] comes after a caption in
    the scenario [normal], with the speech 6 open in the scene 2: its
    stage direction goes under the scene. *)
Lemma caption_becomes_stage_witness :
  let '(w, r, n) := Sample.before_second_caption in
  tr_type r = Some "caption"
  /\ previous_type w = Some "caption" /\ current_scenario w = Some "normal"
  /\ refs w prologue = None /\ refs w scene = Some 2%nat
  /\ stage_added 2 "(geht ab)" w (build_body r n w).2
  /\ current_scenario (build_body r n w).2 = Some "normal".
Proof.
  cbv beta iota delta [Sample.before_second_caption].
  do 5 (split; [reflexivity|]).
  refine ((fun H => conj (proj1 H) (proj1 (proj2 H)))
            (caption_becomes_stage (Sample.before_second_caption.1.1)
               (Sample.before_second_caption.1.2) (Sample.before_second_caption.2)
               "(geht ab)" 2 _ _ _ _)).
  - reflexivity.
  - vm_compute; reflexivity.
  - vm_compute. lia.
  - right. repeat (split; [reflexivity|]). right. split; reflexivity.
Defined.

(** C6, as stated, does not hold there: the speech 6 is open, and the
    stage direction of the second caption is not put under it; the speech
    is left as it was. *)
Lemma caption_after_caption_leaves_speech :
  let '(w, r, n) := Sample.before_second_caption in
  tr_type r = Some "caption"
  /\ previous_type w = Some "caption" /\ current_scenario w = Some "normal"
  /\ refs w sp = Some 6%nat
  /\ ~ stage_added 6 "(geht ab)" w (build_body r n w).2
  /\ store (build_body r n w).2 !! 6%nat = store w !! 6%nat.
Proof.
  cbv beta iota delta [Sample.before_second_caption].
  do 4 (split; [reflexivity|]).
  split; [|vm_compute; reflexivity].
  unfold stage_added. intros H.
  apply (f_equal (fun st => n_children <$> st !! 6%nat)) in H.
  vm_compute in H. discriminate.
Qed.

(** ** Exceptions: while a page is built, and while a region is folded *)

Lemma TextRegion_init_oid (k k' : nat) (el : Element) (line_height : Z) (e : exn) :
  TextRegion_init k el line_height = Raise e -> TextRegion_init k' el line_height = Raise e.
Proof.
  unfold TextRegion_init. destruct (line_height <? 0); [done|].
  destruct (get_lines el) as [lines|]; [|done]. cbn.
  destruct (py_first lines); [|done]. done.
Qed.

Lemma build_regions_Raise (k : nat) (tr : list Element) (line_height : Z)
    (el : Element) (e : exn) :
  el ∈ tr -> TextRegion_init 0 el line_height = Raise e ->
  exists e', build_regions k tr line_height = Raise e'.
Proof.
  intros Hin Hel. revert k.
  induction tr as [|x tr IH]; intros k; [by apply elem_of_nil in Hin|].
  cbn. destruct (TextRegion_init k x line_height) as [r|e0] eqn:Hx; [|by eexists].
  cbn. apply elem_of_cons in Hin as [->|Hin].
  - rewrite (TextRegion_init_oid 0 k _ _ _ Hel) in Hx. discriminate.
  - destruct (IH Hin (S k)) as [e' ->]. by eexists.
Qed.

(** What the handlers see.  The geometry of all regions of a page is
    resolved when the page is built: one region that cannot be constructed
    makes [Page] raise, loading the page raise, and the loop end with that
    exception, none of which the handler around a region sees.  What that
    handler catches is an exception raised while a region is folded into
    the tree: when the region can be printed, a message with the file, the
    region and the exception is printed and the loop goes on with the next
    region of the page. *)
Theorem exceptions_of_pages_and_of_regions (fs : files) :
  (forall file root line_height el e,
     fs !! file = Some root -> el ∈ findall_TextRegion root ->
     TextRegion_init 0 el line_height = Raise e ->
     exists e', Page_init fs file line_height = Raise e')
  /\ (forall w f e,
        file_list w !! file_iter w = Some f -> f ≠ "end" ->
        Page_init fs f 50 = Raise e ->
        exists w', next_page fs w = (Raise e, w') /\ page w' = page w /\ xf w' = xf w
                   /\ stdout w' = stdout w)
  /\ (forall fuel tr n w tr' n' w1 w2 e,
        current_file w ≠ "end" ->
        body_for (pg_text_region_list (page w)) tr n w = (Ok (tr', n'), w1) ->
        is_last_region tr' w1 = (Ok true, w1) ->
        next_page fs w1 = (Raise e, w2) ->
        body_while fs (S fuel) tr n w = (Raise e, w2))
  /\ (forall fuel tr w tr' w1 w2 e,
        text_part w = _FRONT ->
        front_for (pg_text_region_list (page w)) tr w = (Ok tr', w1) ->
        is_last_region tr' w1 = (Ok true, w1) ->
        next_page fs w1 = (Raise e, w2) ->
        front_while fs (S fuel) tr w = (Raise e, w2))
  /\ (forall fuel file w w' e,
        document fs fuel w = (Raise e, w') ->
        create_tei fs fuel file w
        = Some (mkOutcome None (stdout w' ++ [FEHLER (current_file w') e])))
  /\ (forall w w1 r rs tr n e s,
        build_body r n w = (Raise e, w1) -> TextRegion_str r = Ok s ->
        body_for (r :: rs) tr n w
        = body_for rs (Some r) n
            (set_stdout (stdout w1 ++ [FEHLER_region _BODY (current_file w1) s e]) w1))
  /\ (forall w w1 r rs tr e s,
        type_in (tr_type r) BODY_MARKER = false ->
        build_front r w = (Raise e, w1) -> TextRegion_str r = Ok s ->
        front_for (r :: rs) tr w
        = front_for rs (Some r)
            (set_stdout (stdout w1 ++ [FEHLER_region _FRONT (current_file w1) s e]) w1)).
Proof.
  split; [|split; [|split; [|split; [|split; [|split]]]]].
  - intros file root line_height el e Hroot Hin Hel. unfold Page_init. rewrite Hroot.
    destruct (build_regions_Raise 0 _ line_height el e Hin Hel) as [e' ->]. by eexists.
  - intros w f e Hf Hne Hpage. unfold next_page.
    cbv [mbind M_bind read modify when]. rewrite Hf. cbn.
    destruct (String.eqb_spec f "end") as [->|_]; [done|]. cbn.
    rewrite Hpage. by eexists.
  - intros fuel tr n w tr' n' w1 w2 e Hne Hfor Hlast Hnext.
    cbn [body_while]. cbv [mbind M_bind read].
    destruct (String.eqb_spec (current_file w) "end") as [Heq|_]; [done|]. cbn.
    rewrite Hfor, Hlast. cbn. by rewrite Hnext.
  - intros fuel tr w tr' w1 w2 e Hpart Hfor Hlast Hnext.
    cbn [front_while]. cbv [mbind M_bind read]. rewrite Hpart. cbn.
    rewrite Hfor, Hlast. cbn. by rewrite Hnext.
  - intros fuel file w w' e Hdoc. unfold create_tei. by rewrite Hdoc.
  - intros w w1 r rs tr n e s Hbuild Hs. cbn [body_for].
    unfold try_except, report. cbv [mbind M_bind read lift]. rewrite Hbuild, Hs. done.
  - intros w w1 r rs tr e s Hmarker Hbuild Hs. cbn [front_for]. rewrite Hmarker.
    unfold try_except, report. cbv [mbind M_bind read lift]. rewrite Hbuild, Hs. done.
Qed.

(** The paragraph of [header_paragraph] finds neither speech nor
    scene: [build_body] raises [TypeError], the loop prints and goes on. *)
Lemma exceptions_of_pages_and_of_regions_witness :
  let '(w, r, n) := Sample.before_paragraph in
  (build_body r n w).1 = Raise TypeError
  /\ body_for [r] None n w
     = (Ok (Some r, n),
        set_stdout
          [FEHLER_region _BODY "data/p1.xml"
             ("type=paragraph" +:+ nl +:+ "Es war einmal." +:+ nl +:+
              "TextLine(x=10, y=30)" +:+ nl +:+ "])") TypeError]
          (build_body r n w).2).
Proof.
  cbv beta iota delta [Sample.before_paragraph].
  split; [vm_compute; reflexivity|].
  etransitivity.
  - apply (proj1 (proj2 (proj2 (proj2 (proj2 (proj2
             (exceptions_of_pages_and_of_regions Sample.header_paragraph))))))
             (Sample.before_paragraph.1.1)
             ((build_body Sample.before_paragraph.1.2 Sample.before_paragraph.2
                 Sample.before_paragraph.1.1).2)
             (Sample.before_paragraph.1.2) [] None (Sample.before_paragraph.2)
             TypeError
             ("type=paragraph" +:+ nl +:+ "Es war einmal." +:+ nl +:+
              "TextLine(x=10, y=30)" +:+ nl +:+ "])")).
    + vm_compute; reflexivity.
    + vm_compute; reflexivity.
  - vm_compute; reflexivity.
Defined.

(** C5. A geometry error is not caught per region.  A polygon with a
    token without comma, or a region without usable line, on the second
    page makes [Page] raise while the page is loaded, in the body phase as
    in the front phase: the exception passes the handler around a region,
    reaches the handler of [create_tei], and no file is written, however
    many rounds the loops are granted; no message names the region, and
    the sound region after it is not processed.  On the first page the
    exception leaves the constructor and ends the script.  Without the
    faulty region the same pages give a file with the speech of the sound
    region. *)
Theorem run_with_a_geometry_error (k : nat) :
  TextRegion_init 0 (Sample.region "r1" "credit" "10 10,20" "HANS") 50 = Raise ValueError
  /\ TextRegion_init 0 Sample.no_usable_lines 50 = Raise IndexError
  /\ (exists r, TextRegion_init 1 (Sample.region "r2" "credit" Sample.box2 "GRETE") 50
                = Ok r)
  /\ main Sample.malformed_second_page (1 + k) ["data/p1.xml"; "data/p2.xml"]
          "output/Datei.xml"
     = Some (Finished (mkOutcome None [Initialized_scene (Some 2%nat);
                                       FEHLER "data/p2.xml" ValueError]))
  /\ main Sample.unusable_second_page (1 + k) ["data/p1.xml"; "data/p2.xml"]
          "output/Datei.xml"
     = Some (Finished (mkOutcome None [Initialized_scene (Some 2%nat);
                                       FEHLER "data/p2.xml" IndexError]))
  /\ main Sample.malformed_page_in_front (1 + k) ["data/p1.xml"; "data/p2.xml"]
          "output/Datei.xml"
     = Some (Finished (mkOutcome None [FEHLER "data/p2.xml" ValueError]))
  /\ main Sample.unusable_first_page k ["data/p1.xml"] "output/Datei.xml"
     = Some (Crashed IndexError)
  /\ main Sample.sound_second_page (2 + k) ["data/p1.xml"; "data/p2.xml"]
          "output/Datei.xml"
     = Some (Finished
               (mkOutcome
                  (Some ("output/Datei.xml",
                         Sample.envelope
                           [StartTag "body" [];
                            Tree (Elem "div" [("type", "act")] None
                                    [Elem "head" [] (Some "Erster Akt") [];
                                     Elem "div" [("type", "scene")] None
                                       [Elem "head" [] (Some "Erste Szene") [];
                                        Elem "stage" [] None
                                          [Elem "castList" [] None []];
                                        Elem "sp" [] None
                                          [Elem "speaker" [] (Some "GRETE") []]]]);
                            EndTag "body"]))
                  [Initialized_scene (Some 2%nat); Bearbeitet "output/Datei.xml"])).
Proof.
  split; [vm_compute; reflexivity|].
  split; [vm_compute; reflexivity|].
  split; [eexists; vm_compute; reflexivity|].
  split; [apply (main_more_fuel _ 1 k); vm_compute; reflexivity|].
  split; [apply (main_more_fuel _ 1 k); vm_compute; reflexivity|].
  split; [apply (main_more_fuel _ 1 k); vm_compute; reflexivity|].
  split; [|apply (main_more_fuel _ 2 k); vm_compute; reflexivity].
  assert (Conversion_init Sample.unusable_first_page ["data/p1.xml"] = Raise IndexError)
    as Hinit by (vm_compute; reflexivity).
  unfold main. by rewrite Hinit.
Qed.

(** ** Runs on the sample inputs *)

(** C2. Two pages with one region each and no reading order: both
    resolved region lists are empty, although both mappings hold a region.
    The first access to the first region of the first page raises
    [IndexError]; the handler of [create_tei] prints it, and no file is
    written, however many rounds the loops are granted. *)
Theorem run_on_pages_without_reading_order (k : nat) :
  (exists pg, Page_init Sample.no_reading_order "data/p1.xml" 50 = Ok pg
              /\ is_Some (pg_text_region_dict pg !! Some "r1")
              /\ pg_reading_order pg = []
              /\ pg_text_region_list pg = [])
  /\ (exists pg, Page_init Sample.no_reading_order "data/p2.xml" 50 = Ok pg
                 /\ is_Some (pg_text_region_dict pg !! Some "r1")
                 /\ pg_reading_order pg = []
                 /\ pg_text_region_list pg = [])
  /\ main Sample.no_reading_order k ["data/p1.xml"; "data/p2.xml"] "output/Datei.xml"
     = Some (Finished (mkOutcome None [FEHLER "data/p1.xml" IndexError])).
Proof.
  split; [|split; [|apply (main_more_fuel _ 0 k); vm_compute; reflexivity]].
  - eexists. split; [vm_compute; reflexivity|].
    split; [vm_compute; eexists; reflexivity|]. split; reflexivity.
  - eexists. split; [vm_compute; reflexivity|].
    split; [vm_compute; eexists; reflexivity|]. split; reflexivity.
Qed.

(** C3. Three runs in which the front phase meets a body marker after
    the first region of a page.
    - Title, header, heading on one page: the body phase starts again at
      the first region of the page, so the title, already in the front, is
      written a second time, at the head of the body.
    - Preface, then a header as the last region of the only page: the page
      is left behind, and the header is never processed; the body is empty.
    - The same first page, followed by a page that begins with a header:
      the front is written twice, the second time with two placeholders for
      the setting, and the header of the first page is lost. *)
Theorem runs_with_body_marker_after_first_region (k : nat) :
  main Sample.title_header_heading (1 + k) ["data/p1.xml"] "output/Datei.xml"
  = Some (Finished (mkOutcome
      (Some ("output/Datei.xml",
             Sample.envelope
               [Tree (Elem "front" [] None
                        [Elem "titlePage" [] None
                           [Elem "titlePart" [] (Some WARN_title_page) [];
                            Elem "titlePart" [] (Some "Titel") []];
                         Sample.set_placeholder]);
                StartTag "body" [];
                Tree (Elem "p" [] (Some WARN_catch_word) []);
                Tree (Elem "head" [] (Some "Titel") []);
                Tree (Sample.act_with_scene "Erster Akt" "Erste Szene");
                EndTag "body"]))
      [Initialized_scene (Some 10%nat); Bearbeitet "output/Datei.xml"]))
  /\ main Sample.other_header (1 + k) ["data/p1.xml"] "output/Datei.xml"
     = Some (Finished (mkOutcome
         (Some ("output/Datei.xml",
                Sample.envelope
                  [Tree (Elem "front" [] None
                           [Elem "div" [("type", "preface")] None
                              [Elem "p" [] (Some "Vorwort") []];
                            Sample.set_placeholder]);
                   StartTag "body" []; EndTag "body"]))
         [Bearbeitet "output/Datei.xml"]))
  /\ main Sample.marker_last_then_marker_first (1 + k) ["data/p1.xml"; "data/p2.xml"]
          "output/Datei.xml"
     = Some (Finished (mkOutcome
         (Some ("output/Datei.xml",
                Sample.envelope
                  [Tree (Elem "front" [] None
                           [Elem "div" [("type", "preface")] None
                              [Elem "p" [] (Some "Vorwort") []];
                            Sample.set_placeholder]);
                   Tree (Elem "front" [] None
                           [Elem "div" [("type", "preface")] None
                              [Elem "p" [] (Some "Vorwort") []];
                            Sample.set_placeholder; Sample.set_placeholder]);
                   StartTag "body" [];
                   Tree (Sample.act_with_scene "Zweiter Akt" "Erste Szene");
                   EndTag "body"]))
         [Initialized_scene (Some 9%nat); Bearbeitet "output/Datei.xml"])).
Proof.
  split; [|split]; apply (main_more_fuel _ 1 k); vm_compute; reflexivity.
Qed.

(** C4. A header, then a paragraph, on the only page.  The paragraph is
    the last region of the last page; it finds no scene, [build_body]
    raises before it comes to write the open act, and the body of the
    document is empty: one header region, no act written. *)
Theorem run_whose_last_region_raises (k : nat) :
  main Sample.header_paragraph (1 + k) ["data/p1.xml"] "output/Datei.xml"
  = Some (Finished Sample.header_paragraph_outcome)
  /\ header_regions Sample.header_paragraph "data/p1.xml" = 1%nat
  /\ acts_written Sample.header_paragraph_outcome = 0%nat.
Proof.
  split; [apply (main_more_fuel _ 1 k); vm_compute; reflexivity|].
  split; vm_compute; reflexivity.
Qed.

(* ===================================================================== *)
(** * Part VII. Further properties of the geometry *)
(* ===================================================================== *)

(** ** Reference points *)

Lemma tuple_leb_total (a b : Z * Z) : tuple_leb a b = true \/ tuple_leb b a = true.
Proof. unfold tuple_leb. lia. Qed.

Lemma tuple_leb_trans (a b c : Z * Z) :
  tuple_leb a b = true -> tuple_leb b c = true -> tuple_leb a c = true.
Proof. unfold tuple_leb. lia. Qed.

Lemma tuple_leb_spec (a b : Z * Z) :
  tuple_leb a b = true <-> a.1 < b.1 \/ (a.1 = b.1 /\ a.2 <= b.2).
Proof. unfold tuple_leb. lia. Qed.

Lemma get_reference_point_Raise (points : list (Z * Z)) (e : exn) :
  get_reference_point points = Raise e -> points = [] /\ e = IndexError.
Proof.
  unfold get_reference_point.
  destruct (py_sort (fun p => (p.2, p.1)) tuple_leb points) as [|p rest] eqn:Hs; cbn;
    [|done].
  intros [= <-]. split; [|done]. by apply py_sort_nil in Hs.
Qed.

Lemma get_reference_point_Ok (points : list (Z * Z)) (p : Z * Z) :
  get_reference_point points = Ok p ->
  p ∈ points /\ Forall (fun q => p.2 < q.2 \/ (p.2 = q.2 /\ p.1 <= q.1)) points.
Proof.
  unfold get_reference_point.
  destruct (py_sort (fun p => (p.2, p.1)) tuple_leb points) as [|p' rest] eqn:Hs; cbn;
    [done|].
  intros [= ->]. split.
  - rewrite <- (py_sort_perm (fun p => (p.2, p.1)) tuple_leb points), Hs. by left.
  - destruct (py_sort_first _ _ tuple_leb_total tuple_leb_trans _ _ _ Hs) as [Hmin _].
    eapply List.Forall_impl; [|exact Hmin]. intros q Hq. by apply tuple_leb_spec in Hq.
Qed.

(** X1. The reference point of a polygon is one of its vertices, and no
    vertex lies higher (has a smaller y), nor further left at the same
    height; only the empty polygon has none, and then the exception is
    [IndexError]. *)
Theorem get_reference_point_least (points : list (Z * Z)) :
  match get_reference_point points with
  | Raise e => points = [] /\ e = IndexError
  | Ok p => p ∈ points
            /\ Forall (fun q => p.2 < q.2 \/ (p.2 = q.2 /\ p.1 <= q.1)) points
  end.
Proof.
  destruct (get_reference_point points) as [p|e] eqn:H.
  - by apply get_reference_point_Ok.
  - by apply get_reference_point_Raise.
Qed.

Global Instance point_order_transitive :
  Transitive (fun p q : Z * Z => tuple_leb (p.2, p.1) (q.2, q.1) = true).
Proof. intros a b c. apply tuple_leb_trans. Qed.

Global Instance point_order_antisymm :
  AntiSymm (=) (fun p q : Z * Z => tuple_leb (p.2, p.1) (q.2, q.1) = true).
Proof.
  intros [a1 a2] [b1 b2] H1%tuple_leb_spec H2%tuple_leb_spec. cbn in *.
  f_equal; lia.
Qed.

(** X2. The reference point does not depend on the vertex at which the
    polygon starts, nor on the direction in which it is listed: two lists
    of the same vertices have the same reference point. *)
Theorem get_reference_point_perm (points1 points2 : list (Z * Z)) :
  points1 ≡ₚ points2 -> get_reference_point points1 = get_reference_point points2.
Proof.
  intros Hperm. unfold get_reference_point. f_equal.
  apply (Sorted_unique (fun p q : Z * Z => tuple_leb (p.2, p.1) (q.2, q.1) = true)).
  - apply (py_sort_sorted (fun p => (p.2, p.1)) tuple_leb tuple_leb_total).
  - apply (py_sort_sorted (fun p => (p.2, p.1)) tuple_leb tuple_leb_total).
  - by rewrite !py_sort_perm.
Qed.

Lemma get_reference_point_perm_witness :
  [(90, 10); (10, 20); (10, 10); (90, 20)] ≡ₚ [(10, 10); (90, 10); (90, 20); (10, 20)]
  /\ get_reference_point [(90, 10); (10, 20); (10, 10); (90, 20)]
     = get_reference_point [(10, 10); (90, 10); (90, 20); (10, 20)].
Proof.
  assert ([(90, 10); (10, 20); (10, 10); (90, 20)]
          ≡ₚ [(10, 10); (90, 10); (90, 20); (10, 20)]) as H.
  { etransitivity; [apply perm_skip, perm_swap|].
    etransitivity; [apply perm_swap|]. apply perm_skip.
    etransitivity; [apply perm_skip, perm_swap|]. done. }
  split; [exact H|]. exact (get_reference_point_perm _ _ H).
Defined.

(** ** Polygons *)

Lemma mapM_Raise {A B} (f : A -> result B) (l : list A) (e : exn) :
  mapM f l = Raise e -> exists x, x ∈ l /\ f x = Raise e.
Proof.
  induction l as [|x l IH]; cbn; [done|].
  destruct (f x) as [y|e'] eqn:Hx; cbn.
  - destruct (mapM f l) as [k|e'] eqn:Hl; cbn; [done|].
    intros [= <-]. destruct (IH eq_refl) as (x' & Hin & Hx'). exists x'. split; [by right|done].
  - intros [= <-]. exists x. split; [by left|done].
Qed.

Lemma py_split_nonempty (sep : ascii) (s : string) : py_split sep s ≠ [].
Proof.
  destruct s as [|c s]; cbn; [done|].
  destruct (Ascii.eqb c sep); [done|]. by destruct (py_split sep s).
Qed.

Lemma py_int_Raise (s : string) (e : exn) : py_int s = Raise e -> e = ValueError.
Proof.
  unfold py_int.
  destruct (to_ascii s) as [a|]; [|by intros [= <-]].
  cbv zeta.
  match goal with |- match ?p with _ => _ end = _ -> _ => destruct p end;
    [|by intros [= <-]].
  destruct (4300 <? _); [by intros [= <-]|done].
Qed.

Lemma convert_point_Raise (p : string) (e : exn) :
  convert_point p = Raise e -> e = ValueError.
Proof.
  unfold convert_point.
  destruct (py_split "," p) as [|x [|y [|z l]]]; try by intros [= <-].
  destruct (py_int x) as [x'|ex] eqn:Hx; cbn.
  - destruct (py_int y) as [y'|ey] eqn:Hy; cbn; [done|].
    intros [= <-]. by apply py_int_Raise in Hy.
  - intros [= <-]. by apply py_int_Raise in Hx.
Qed.

Lemma convert_coordinates_Ok (points : option string) (pts : list (Z * Z)) :
  convert_coordinates points = Ok pts ->
  exists s, points = Some s /\ length pts = length (py_split " " s) /\ pts ≠ [].
Proof.
  destruct points as [s|]; cbn; [|done]. intros Hm. exists s. split; [done|].
  apply mapM_Ok in Hm. apply Forall2_length in Hm. split; [done|].
  pose proof (py_split_nonempty " " s) as Hs. destruct pts; [|done].
  destruct (py_split " " s); [done|discriminate].
Qed.

(** X3. [convert_coordinates] gives one point for each piece between
    single spaces, never an empty list, so that the reference point of what
    it gives always exists.  It fails in two ways only: with
    [AttributeError] when there is no [points] attribute, and with
    [ValueError] when some piece is not two integers around one comma. *)
Theorem convert_coordinates_outcomes (points : option string) :
  match convert_coordinates points with
  | Ok pts =>
      exists s, points = Some s
                /\ length pts = length (py_split " " s)
                /\ pts ≠ []
                /\ exists p, get_reference_point pts = Ok p
  | Raise e =>
      (points = None /\ e = AttributeError)
      \/ (e = ValueError
          /\ exists s t, points = Some s /\ t ∈ py_split " " s
                         /\ convert_point t = Raise ValueError)
  end.
Proof.
  destruct (convert_coordinates points) as [pts|e] eqn:Hc.
  - destruct (convert_coordinates_Ok _ _ Hc) as (s & -> & Hlen & Hne).
    exists s. do 3 (split; [done|]).
    destruct (get_reference_point pts) as [p|e] eqn:Hp; [by eexists|].
    by apply get_reference_point_Raise in Hp as [? _].
  - destruct points as [s|]; cbn in Hc; [|left; by injection Hc as <-].
    right. apply mapM_Raise in Hc as (t & Hin & Ht).
    pose proof (convert_point_Raise _ _ Ht) as ->. eauto 6.
Qed.

(** ** Lines and regions *)

Lemma line_of_Ok (coords : Element -> option Element) (line : Element) (l : TextLine) :
  line_of coords line = Ok l ->
  tl_text_line l = line
  /\ exists c pts, coords line = Some c
                   /\ convert_coordinates (get c "points") = Ok pts
                   /\ get_reference_point pts = Ok (tl_x l, tl_y l).
Proof.
  unfold line_of, get_of. destruct (coords line) as [c|]; [|done]. cbn.
  destruct (convert_coordinates (get c "points")) as [pts|] eqn:Hc; [|done]. cbn.
  destruct (get_reference_point pts) as [[x y]|] eqn:Hp; [|done]. cbn.
  intros [= <-]. split; [done|]. by exists c, pts.
Qed.

Lemma line_of_AttributeError (coords : Element -> option Element) (line : Element) :
  line_of coords line = Raise AttributeError ->
  coords line = None \/ exists c, coords line = Some c /\ get c "points" = None.
Proof.
  unfold line_of, get_of. destruct (coords line) as [c|]; [|by left]. cbn. right.
  exists c. split; [done|].
  destruct (get c "points") as [s|] eqn:Hs; [|done]. exfalso.
  destruct (convert_coordinates (Some s)) as [pts|e] eqn:Hc; cbn in H.
  - destruct (get_reference_point pts) as [p|e] eqn:Hp; cbn in H; [done|].
    injection H as ->. by apply get_reference_point_Raise in Hp as [_ ?].
  - injection H as ->. cbn in Hc. apply mapM_Raise in Hc as (t & _ & Ht).
    by apply convert_point_Raise in Ht.
Qed.

Lemma glyph_lines_Ok (text_line : list Element) (ls : list TextLine) :
  glyph_lines text_line = Ok ls ->
  Forall (fun l => exists line, line ∈ text_line /\ line_of find_Glyph_Coords line = Ok l) ls
  /\ (forall line, line ∈ text_line ->
        (exists c s, find_Glyph_Coords line = Some c /\ get c "points" = Some s) ->
        line ∈ tl_text_line <$> ls).
Proof.
  revert ls. induction text_line as [|line rest IH]; intros ls; cbn.
  - intros [= <-]. split; [constructor|]. intros line Hin. by apply elem_of_nil in Hin.
  - destruct (line_of find_Glyph_Coords line) as [l|e] eqn:Hl.
    + destruct (glyph_lines rest) as [ls'|]; [|discriminate]. cbn. intros [= <-].
      destruct (IH ls' eq_refl) as [IH1 IH2]. split.
      * constructor; [exists line; split; [by left|done]|].
        eapply List.Forall_impl; [|exact IH1].
        intros l' (line' & Hin & Hl'). exists line'. split; [by right|done].
      * intros line' Hin Hc. cbn. apply elem_of_cons in Hin as [->|Hin].
        -- apply elem_of_cons. left. symmetry. by apply line_of_Ok in Hl as [? _].
        -- apply elem_of_cons. right. by apply IH2.
    + destruct e; try discriminate. intros Hrest.
      destruct (IH ls Hrest) as [IH1 IH2]. split.
      * eapply List.Forall_impl; [|exact IH1].
        intros l' (line' & Hin & Hl'). exists line'. split; [by right|done].
      * intros line' Hin Hc. apply elem_of_cons in Hin as [->|Hin]; [|by apply IH2].
        exfalso. destruct Hc as (c & s & Hc & Hs).
        apply line_of_AttributeError in Hl as [Hl|(c' & Hc' & Hs')]; congruence.
Qed.

Lemma TextRegion_init_Ok (oid : nat) (text_region : Element) (line_height : Z)
    (r : TextRegion) :
  TextRegion_init oid text_region line_height = Ok r ->
  0 <= line_height
  /\ exists ls l0,
       (match head (findall_desc "Glyph" text_region) with
        | None => mapM (line_of (fun l => head (findall_child "Coords" l)))
                       (findall_desc "TextLine" text_region)
        | Some _ => glyph_lines (findall_desc "TextLine" text_region)
        end) = Ok ls
       /\ py_first (py_sort tl_y Z.leb ls) = Ok l0
       /\ r = mkTextRegion oid text_region (get text_region "type") line_height
                           (py_sort tl_y Z.leb ls) (tl_x l0) (tl_y l0).
Proof.
  unfold TextRegion_init. destruct (Z.ltb_spec line_height 0); [done|].
  destruct (get_lines text_region) as [lines|] eqn:Hlines; [|done]. cbn.
  destruct (py_first lines) as [l0|] eqn:Hl0; [|done]. cbn.
  intros [= <-]. split; [done|].
  unfold get_lines in Hlines.
  match type of Hlines with (?m ≫= _) = _ => destruct m as [ls|] eqn:Hls end;
    [|discriminate].
  cbn in Hlines. injection Hlines as <-. by exists ls, l0.
Qed.

(** X4. A region that can be constructed has at least one line; its own
    x and y are those of its first line, and no line of it has a smaller
    y.  Its type is the [type] attribute of its element, and the line
    height it was built with is not negative. *)
Theorem region_position_is_topmost_line (oid : nat) (text_region : Element)
    (line_height : Z) (r : TextRegion) :
  TextRegion_init oid text_region line_height = Ok r ->
  (exists l0 rest, tr_line r = l0 :: rest /\ tr_x r = tl_x l0 /\ tr_y r = tl_y l0)
  /\ Forall (fun l => tr_y r <= tl_y l) (tr_line r)
  /\ tr_type r = get text_region "type"
  /\ tr_oid r = oid
  /\ 0 <= tr_line_height r.
Proof.
  intros (Hlh & ls & l0 & _ & Hl0 & ->)%TextRegion_init_Ok. cbn.
  destruct (py_sort tl_y Z.leb ls) as [|l rest] eqn:Hs; [done|].
  cbn in Hl0. injection Hl0 as ->. split; [by exists l0, rest|].
  split; [|done].
  destruct (py_sort_first tl_y Z.leb Z_leb_total Z_leb_trans _ _ _ Hs) as [Hmin _].
  rewrite <- Hs. rewrite py_sort_perm.
  eapply List.Forall_impl; [|exact Hmin]. intros l Hl. cbn in Hl. lia.
Qed.

Lemma region_position_is_topmost_line_witness :
  TextRegion_init 0 Sample.three_lines 50 = Ok Sample.three_lines_region
  /\ tr_y Sample.three_lines_region = 10
  /\ Forall (fun l => tr_y Sample.three_lines_region <= tl_y l)
            (tr_line Sample.three_lines_region).
Proof.
  split; [vm_compute; reflexivity|]. split; [reflexivity|].
  refine (proj1 (proj2 (region_position_is_topmost_line 0 Sample.three_lines 50
                          Sample.three_lines_region _))).
  vm_compute; reflexivity.
Defined.

(** X5. Every line of a constructed region is a text line of its
    element, and its x and y are the reference point of the polygon the
    region reads for it: the [Coords] child of the line when the region has
    no glyph, the first [Coords] of a glyph of the line when it has one.
    A region without glyphs keeps all its text lines; a region with glyphs
    keeps every line that has a glyph polygon with a [points] attribute,
    and none without a glyph polygon. *)
Theorem region_lines_geometry (oid : nat) (text_region : Element) (line_height : Z)
    (r : TextRegion) :
  TextRegion_init oid text_region line_height = Ok r ->
  let coords :=
    match head (findall_desc "Glyph" text_region) with
    | None => fun l => head (findall_child "Coords" l)
    | Some _ => find_Glyph_Coords
    end in
  Forall (fun ln =>
            tl_text_line ln ∈ findall_desc "TextLine" text_region
            /\ exists c pts, coords (tl_text_line ln) = Some c
                             /\ convert_coordinates (get c "points") = Ok pts
                             /\ get_reference_point pts = Ok (tl_x ln, tl_y ln))
         (tr_line r)
  /\ (head (findall_desc "Glyph" text_region) = None ->
      length (tr_line r) = length (findall_desc "TextLine" text_region))
  /\ (forall line, line ∈ findall_desc "TextLine" text_region ->
        (exists c s, coords line = Some c /\ get c "points" = Some s) ->
        line ∈ tl_text_line <$> tr_line r).
Proof.
  intros Hinit coords.
  apply TextRegion_init_Ok in Hinit as (_ & ls & l0 & Hls & _ & ->). cbn [tr_line].
  assert (Forall (fun l => exists line, line ∈ findall_desc "TextLine" text_region
                                        /\ line_of coords line = Ok l) ls
          /\ (head (findall_desc "Glyph" text_region) = None ->
              length ls = length (findall_desc "TextLine" text_region))
          /\ (forall line, line ∈ findall_desc "TextLine" text_region ->
                (exists c s, coords line = Some c /\ get c "points" = Some s) ->
                line ∈ tl_text_line <$> ls)) as (Hall & Hlen & Hkept).
  { subst coords. destruct (head (findall_desc "Glyph" text_region)).
    - apply glyph_lines_Ok in Hls as [H1 H2]. done.
    - apply mapM_Ok in Hls. split; [|split].
      + clear -Hls. induction Hls as [|x y l k Hxy _ IH]; constructor.
        * exists x. split; [by left|done].
        * eapply List.Forall_impl; [|exact IH].
          intros l' (line' & Hin & Hl'). exists line'. split; [by right|done].
      + intros _. symmetry. by eapply Forall2_length.
      + intros line Hin _. clear -Hls Hin.
        induction Hls as [|x y l k Hxy _ IH]; [by apply elem_of_nil in Hin|].
        cbn. apply elem_of_cons.
        apply elem_of_cons in Hin as [->|Hin]; [|right; by apply IH].
        left. symmetry. by apply line_of_Ok in Hxy as [? _]. }
  split; [|split].
  - rewrite py_sort_perm. eapply List.Forall_impl; [|exact Hall].
    intros l (line & Hin & Hl). apply line_of_Ok in Hl as (-> & c & pts & ? & ? & ?).
    split; [done|]. by exists c, pts.
  - intros Hn. rewrite (Permutation_length (py_sort_perm tl_y Z.leb ls)). by apply Hlen.
  - intros line Hin Hc. rewrite py_sort_perm. by apply Hkept.
Qed.

Lemma region_lines_geometry_witness :
  TextRegion_init 0 Sample.three_lines 50 = Ok Sample.three_lines_region
  /\ length (tr_line Sample.three_lines_region)
     = length (findall_desc "TextLine" Sample.three_lines).
Proof.
  split; [vm_compute; reflexivity|].
  refine (proj1 (proj2 (region_lines_geometry 0 Sample.three_lines 50
                          Sample.three_lines_region _)) _).
  - vm_compute; reflexivity.
  - reflexivity.
Defined.

(** ** Pages *)

Lemma region_dict_snoc (l : list TextRegion) (tr : TextRegion) :
  region_dict (l ++ [tr]) = <[region_id tr := tr]> (region_dict l).
Proof. unfold region_dict. by rewrite foldl_app. Qed.

Lemma region_dict_last (l : list TextRegion) (i : option string) :
  region_dict l !! i = list.last (filter (fun tr => region_id tr = i) l).
Proof.
  induction l as [|tr l IH] using rev_ind; [done|].
  rewrite region_dict_snoc, list.filter_app, filter_cons, filter_nil.
  destruct (decide (region_id tr = i)) as [<-|Hne].
  - by rewrite lookup_insert_eq, last_snoc.
  - rewrite lookup_insert_ne by done. by rewrite app_nil_r.
Qed.

Lemma region_dict_empty (l : list TextRegion) : region_dict l = ∅ -> l = [].
Proof.
  intros Hempty. destruct l as [|tr l]; [done|]. exfalso.
  assert (is_Some (region_dict (tr :: l) !! region_id tr)) as [x Hx].
  { apply region_dict_is_Some. exists tr. split; [by left|done]. }
  by rewrite Hempty, lookup_empty in Hx.
Qed.

Lemma Page_init_Ok (fs : files) (file : string) (line_height : Z) (pg : Page) :
  Page_init fs file line_height = Ok pg ->
  exists root rs,
    fs !! file = Some root
    /\ build_regions 0 (findall_TextRegion root) line_height = Ok rs
    /\ pg = mkPage file line_height (parse_reading_order root)
              (sort_text_region (parse_reading_order root) rs (region_dict rs))
              (region_dict rs).
Proof.
  unfold Page_init. destruct (fs !! file) as [root|]; [|done].
  destruct (build_regions 0 (findall_TextRegion root) line_height) as [rs|] eqn:Hrs;
    [|done].
  cbn. intros [= <-]. by exists root, rs.
Qed.

(** X6. A page that names no region in its reading order resolves to
    no region at all, however many text regions it holds; so does a page
    none of whose text regions has a text line as a child, whatever its
    reading order names. *)
Theorem page_without_order_or_regions_is_empty (fs : files) (file : string)
    (line_height : Z) (pg : Page) :
  Page_init fs file line_height = Ok pg ->
  pg_reading_order pg = [] \/ pg_text_region_dict pg = ∅ ->
  pg_text_region_list pg = [].
Proof.
  intros (root & rs & _ & _ & ->)%Page_init_Ok. cbn. unfold sort_text_region.
  intros [Hro|Hdict].
  - destruct (decide (region_dict rs = ∅)) as [Hd|_]; [by apply region_dict_empty|].
    by rewrite Hro.
  - rewrite decide_True by done. by apply region_dict_empty.
Qed.

Lemma page_without_order_or_regions_is_empty_witness :
  Page_init Sample.no_reading_order "data/p1.xml" 50 = Ok More.unordered_page
  /\ pg_reading_order More.unordered_page = []
  /\ is_Some (pg_text_region_dict More.unordered_page !! Some "r1")
  /\ pg_text_region_list More.unordered_page = [].
Proof.
  split; [vm_compute; reflexivity|]. split; [reflexivity|].
  split; [vm_compute; eexists; reflexivity|].
  refine (page_without_order_or_regions_is_empty Sample.no_reading_order
            "data/p1.xml" 50 More.unordered_page _ _).
  - vm_compute; reflexivity.
  - left. reflexivity.
Defined.

(** X7. When several text regions of a page carry the same id, the
    mapping of the page holds the last of them in document order; an id
    that no region carries is not in the mapping. *)
Theorem page_dict_keeps_last_of_equal_ids (fs : files) (file : string)
    (line_height : Z) (root : Element) (pg : Page) (i : option string) :
  fs !! file = Some root ->
  Page_init fs file line_height = Ok pg ->
  tr_text_region <$> (pg_text_region_dict pg !! i)
  = list.last (filter (fun el => get el "id" = i) (findall_TextRegion root)).
Proof.
  intros Hroot (root' & rs & Hroot' & Hrs & ->)%Page_init_Ok. cbn.
  assert (root' = root) as -> by congruence.
  apply build_regions_elements in Hrs. rewrite <- Hrs.
  rewrite region_dict_last. clear Hrs.
  induction rs as [|tr rs IH] using rev_ind; [done|].
  rewrite fmap_app, !list.filter_app. cbn [fmap list_fmap]. rewrite !filter_cons, !filter_nil.
  unfold region_id in *.
  destruct (decide (get (tr_text_region tr) "id" = i)) as [Hi|Hi].
  - rewrite !last_snoc. done.
  - rewrite !app_nil_r. exact IH.
Qed.

Lemma page_dict_keeps_last_of_equal_ids_witness :
  Page_init More.equal_ids "data/p1.xml" 50 = Ok More.equal_ids_page
  /\ tr_text_region <$> (pg_text_region_dict More.equal_ids_page !! Some "r1")
     = Some (Sample.region "r1" "paragraph" Sample.box2 "zwei")
  /\ tr_text_region <$> (pg_text_region_dict More.equal_ids_page !! Some "r1")
     = list.last (filter (fun el => get el "id" = Some "r1")
                    [Sample.region "r1" "paragraph" Sample.box1 "eins";
                     Sample.region "r1" "paragraph" Sample.box2 "zwei"]).
Proof.
  split; [vm_compute; reflexivity|]. split; [vm_compute; reflexivity|].
  refine (page_dict_keeps_last_of_equal_ids More.equal_ids "data/p1.xml" 50
            (Sample.PcGts ["r1"]
               [Sample.region "r1" "paragraph" Sample.box1 "eins";
                Sample.region "r1" "paragraph" Sample.box2 "zwei"])
            More.equal_ids_page (Some "r1") _ _).
  - vm_compute; reflexivity.
  - vm_compute; reflexivity.
Defined.

(* ===================================================================== *)
(** * Part VIII. Further properties of the conversion *)
(* ===================================================================== *)

(** ** Taking a sequence apart *)

Lemma bind_Ok_inv {A B} (m : M A) (k : A -> M B) (w w' : world) (b : B) :
  (m ≫= k) w = (Ok b, w') -> exists a w1, m w = (Ok a, w1) /\ k a w1 = (Ok b, w').
Proof.
  unfold mbind, M_bind. destruct (m w) as [[a|e] w1]; [|intros; discriminate].
  intros H. exists a, w1. by split.
Qed.

Lemma bind_Raise_inv {A B} (m : M A) (k : A -> M B) (w w' : world) (e : exn) :
  (m ≫= k) w = (Raise e, w') ->
  m w = (Raise e, w') \/ exists a w1, m w = (Ok a, w1) /\ k a w1 = (Raise e, w').
Proof.
  unfold mbind, M_bind. destruct (m w) as [[a|e1] w1] eqn:E.
  2: { intros [= -> ->]. by left. }
  intros H. right. exists a, w1. by split.
Qed.

(** ** Relations kept by all statements *)

Section steps.
Context (R : world -> world -> Prop).
Hypothesis R_refl : forall w, R w w.
Hypothesis R_trans : forall a b c, R a b -> R b c -> R a c.

Lemma steps_mret {A} (a : A) : steps R (mret a).
Proof. intros w. apply R_refl. Qed.

Lemma steps_lift {A} (r : result A) : steps R (lift r).
Proof. intros w. apply R_refl. Qed.

Lemma steps_raise {A} (e : exn) : steps R (raise (A := A) e).
Proof. intros w. apply R_refl. Qed.

Lemma steps_read {A} (f : world -> A) : steps R (read f).
Proof. intros w. apply R_refl. Qed.

Lemma steps_bind {A B} (m : M A) (k : A -> M B) :
  steps R m -> (forall a, steps R (k a)) -> steps R (m ≫= k).
Proof.
  intros Hm Hk w. unfold mbind, M_bind. specialize (Hm w).
  destruct (m w) as [[a|e] w']; [|done]. eapply R_trans; [exact Hm|apply Hk].
Qed.

Lemma steps_when (b : bool) (m : M unit) : steps R m -> steps R (when b m).
Proof. intros Hm. destruct b; [done|]. apply steps_mret. Qed.

Lemma steps_try_except {A} (body : M A) (handler : exn -> M A) :
  steps R body -> (forall e, steps R (handler e)) -> steps R (try_except body handler).
Proof.
  intros Hb Hh w. unfold try_except. specialize (Hb w).
  destruct (body w) as [[a|e] w']; [done|]. eapply R_trans; [exact Hb|apply Hh].
Qed.

(** What the statements are made of. *)
Hypothesis R_Element : forall tag attrs, steps R (Element_ tag attrs).
Hypothesis R_SubElement : forall parent tag attrs, steps R (SubElement parent tag attrs).
Hypothesis R_assign_text : forall e t, steps R (assign_text e t).
Hypothesis R_assign : forall s v, steps R (assign s v).
Hypothesis R_print : forall m, steps R (print m).
Hypothesis R_emit : forall i, steps R (emit i).
Hypothesis R_previous_type : forall t, steps R (modify (set_previous_type t)).
Hypothesis R_title_page : forall b, steps R (modify (set_is_title_page_created b)).
Hypothesis R_scenario : forall s, steps R (modify (set_current_scenario s)).
Hypothesis R_body : steps R (modify (set_text_part _BODY)).
Hypothesis R_file : forall f o k, steps R (modify (set_current_file f o k)).
Hypothesis R_page : forall p, steps R (modify (set_page p)).

Ltac steps_go :=
  repeat lazymatch goal with
    | |- steps _ (mbind _ _) => apply steps_bind; [|intros ?]
    | |- steps _ (mret _) => apply steps_mret
    | |- steps _ skip => apply steps_mret
    | |- steps _ (lift _) => apply steps_lift
    | |- steps _ (raise _) => apply steps_raise
    | |- steps _ (read _) => apply steps_read
    | |- steps _ (self _) => apply steps_read
    | |- steps _ (when _ _) => apply steps_when
    | |- steps _ (try_except _ _) => apply steps_try_except; [|intros ?]
    | |- steps _ (Element_ _ _) => apply R_Element
    | |- steps _ (SubElement _ _ _) => apply R_SubElement
    | |- steps _ (assign_text _ _) => apply R_assign_text
    | |- steps _ (assign _ _) => apply R_assign
    | |- steps _ (print _) => apply R_print
    | |- steps _ (emit _) => apply R_emit
    | |- steps _ (modify (set_previous_type _)) => apply R_previous_type
    | |- steps _ (modify (set_is_title_page_created _)) => apply R_title_page
    | |- steps _ (modify (set_current_scenario _)) => apply R_scenario
    | |- steps _ (modify (set_text_part _BODY)) => apply R_body
    | |- steps _ (modify (set_current_file _ _ _)) => apply R_file
    | |- steps _ (modify (set_page _)) => apply R_page
    | |- steps _ (if ?b then _ else _) => destruct b
    | |- steps _ (match ?x with _ => _ end) => destruct x
    | |- steps _ _ => match goal with H : _ |- _ => solve [apply H] end
    end.

Lemma steps_xf_write (e : option nat) : steps R (xf_write e).
Proof. unfold xf_write. steps_go. Qed.

Lemma steps_xf_element {A} (name : string) (attrs : list (string * string)) (body : M A) :
  steps R body -> steps R (xf_element name attrs body).
Proof. intros Hb. unfold xf_element. steps_go. Qed.

Lemma steps_type_line (t : option string) : steps R (type_line t).
Proof. unfold type_line. steps_go. Qed.

Lemma steps_paragraphs (parent : nat) (p_list : list string) :
  steps R (paragraphs parent p_list).
Proof.
  induction p_list as [|e rest IH]; cbn [paragraphs]; steps_go.
Qed.

Lemma steps_build_front (r : TextRegion) : steps R (build_front r).
Proof.
  unfold build_front.
  pose proof steps_type_line. pose proof steps_paragraphs. steps_go.
Qed.

Lemma steps_write_front : steps R write_front.
Proof. unfold write_front. pose proof steps_xf_write. steps_go. Qed.

Lemma steps_caption_branch (r : TextRegion) : steps R (caption_branch r).
Proof.
  unfold caption_branch, continues, scenario_is, prologue_or_scene. steps_go.
Qed.

Lemma steps_at_end_of_stream (r : TextRegion) : steps R (at_end_of_stream r).
Proof. unfold at_end_of_stream. steps_go. Qed.

Lemma steps_body_branch_and_tail (r : TextRegion) (n : Z) : steps R (build_body r n).
Proof.
  unfold build_body, prologue_or_scene.
  pose proof steps_type_line. pose proof steps_paragraphs. pose proof steps_xf_write.
  pose proof steps_caption_branch. pose proof steps_at_end_of_stream.
  steps_go.
Qed.

(** [build_body] on a region of a type whose branch does not use the
    writer: the end of the stream apart, it is made of the statements
    above without [emit]. *)
Lemma steps_build_body_between (r : TextRegion) (n : Z) :
  is_type (tr_type r) "header" = false ->
  is_type (tr_type r) "heading" = false ->
  is_type (tr_type r) "catch-word" = false ->
  (forall a : Z,
     steps R (e ← at_end_of_stream r;
              when e (a0 ← self act; xf_write a0);;
              modify (set_previous_type (tr_type r));;
              mret a)) ->
  steps R (build_body r n).
Proof.
  intros Hh Hg Hc Htail. unfold build_body, prologue_or_scene.
  rewrite Hh, Hg, Hc. cbv iota.
  pose proof steps_type_line. pose proof steps_paragraphs.
  pose proof steps_caption_branch.
  apply steps_bind; [steps_go|intros a; apply Htail].
Qed.

(** A statement that raised inside a sequence. *)
Lemma raise_in_bind {A B} (m : M A) (k : A -> M B) (w w' : world) (e : exn) :
  steps R m -> (forall a w1, k a w1 = (Raise e, w') -> R w1 w') ->
  (m ≫= k) w = (Raise e, w') -> R w w'.
Proof.
  intros Hm Hk [H|(a & w1 & H1 & H)]%bind_Raise_inv.
  - specialize (Hm w). by rewrite H in Hm.
  - specialize (Hm w). rewrite H1 in Hm. eapply R_trans; [exact Hm|]. by eapply Hk.
Qed.

(** When [build_front] or [build_body] raises, it has not come to its
    last assignment, that of the previous type. *)
Lemma build_front_raised (r : TextRegion) (w w' : world) (e : exn) :
  build_front r w = (Raise e, w') -> R w w'.
Proof.
  unfold build_front.
  pose proof steps_type_line. pose proof steps_paragraphs.
  apply raise_in_bind; [steps_go|intros prev w1].
  apply raise_in_bind; [steps_go|intros ? w2].
  apply raise_in_bind; [steps_go|intros ? w3].
  done.
Qed.

Lemma build_body_raised (r : TextRegion) (n : Z) (w w' : world) (e : exn) :
  build_body r n w = (Raise e, w') -> R w w'.
Proof.
  unfold build_body, prologue_or_scene.
  pose proof steps_type_line. pose proof steps_paragraphs. pose proof steps_xf_write.
  pose proof steps_caption_branch. pose proof steps_at_end_of_stream.
  apply raise_in_bind; [steps_go|intros a w1].
  apply raise_in_bind; [steps_go|intros b w2].
  apply raise_in_bind; [steps_go|intros ? w3].
  done.
Qed.

Lemma steps_report (part : string) (r : TextRegion) (e : exn) : steps R (report part r e).
Proof. unfold report. steps_go. Qed.

Lemma steps_front_for (l : list TextRegion) (tr : option TextRegion) :
  steps R (front_for l tr).
Proof.
  revert tr. induction l as [|r l IH]; intros tr; cbn [front_for].
  - steps_go.
  - pose proof steps_write_front. pose proof steps_build_front. pose proof steps_report.
    steps_go.
Qed.

Lemma steps_body_for (l : list TextRegion) (tr : option TextRegion) (n : Z) :
  steps R (body_for l tr n).
Proof.
  revert tr n. induction l as [|r l IH]; intros tr n; cbn [body_for].
  - steps_go.
  - pose proof steps_body_branch_and_tail. pose proof steps_report.
    steps_go.
Qed.

Lemma steps_is_last_region (tr : option TextRegion) : steps R (is_last_region tr).
Proof. unfold is_last_region. steps_go. Qed.

Lemma steps_first_is_body_marker : steps R first_is_body_marker.
Proof. unfold first_is_body_marker. steps_go. Qed.

Context (fs : files).

Lemma steps_next_page : steps R (next_page fs).
Proof.
  unfold next_page.
  apply steps_bind; [steps_go|intros k].
  apply steps_bind; [steps_go|intros fl].
  apply steps_bind; [destruct (fl !! k); steps_go|intros _].
  apply steps_bind; [steps_go|intros cf].
  apply steps_when. apply steps_bind; [|intros p; steps_go].
  apply (steps_lift (Page_init fs cf 50)).
Qed.

Lemma steps_front_while (fuel : nat) (tr : option TextRegion) :
  steps R (front_while fs fuel tr).
Proof.
  revert tr. induction fuel as [|fuel IH]; intros tr; cbn [front_while].
  - steps_go.
  - pose proof steps_front_for. pose proof steps_is_last_region.
    pose proof steps_next_page. pose proof steps_first_is_body_marker.
    pose proof steps_write_front. steps_go.
Qed.

Lemma steps_body_while (fuel : nat) (tr : option TextRegion) (n : Z) :
  steps R (body_while fs fuel tr n).
Proof.
  revert tr n. induction fuel as [|fuel IH]; intros tr n; cbn [body_while].
  - steps_go.
  - pose proof steps_body_for. pose proof steps_is_last_region.
    pose proof steps_next_page. steps_go.
Qed.

Lemma steps_document (fuel : nat) : steps R (document fs fuel).
Proof.
  unfold document, text_element, teiHeader, xf_element.
  pose proof steps_first_is_body_marker. pose proof steps_front_while.
  pose proof steps_body_while. steps_go.
Qed.
End steps.

(** A relation that no change of the trees and of the element attributes
    can break is kept by the statements that build. *)
Section builders.
Context (R : world -> world -> Prop).
Hypothesis R_refl : forall w, R w w.
Hypothesis R_trans : forall a b c, R a b -> R b c -> R a c.
Hypothesis R_store : forall s w, R w (set_store s w).
Hypothesis R_refs : forall r w, R w (set_refs r w).

Lemma builders_Element (tag : string) (attrs : list (string * string)) :
  steps R (Element_ tag attrs).
Proof. intros w. apply R_store. Qed.

Lemma builders_SubElement (parent : option nat) (tag : string)
    (attrs : list (string * string)) :
  steps R (SubElement parent tag attrs).
Proof.
  intros w. destruct parent as [p|]; cbn; [|apply R_refl].
  eapply R_trans; apply R_store.
Qed.

Lemma builders_assign_text (e : nat) (t : option string) : steps R (assign_text e t).
Proof. intros w. apply R_store. Qed.

Lemma builders_assign (s : slot) (v : option nat) : steps R (assign s v).
Proof. intros w. apply R_refs. Qed.
End builders.

Lemma keeps_refl {X} (f : world -> X) (w : world) : keeps f w w.
Proof. done. Qed.

Lemma keeps_trans {X} (f : world -> X) (a b c : world) :
  keeps f a b -> keeps f b c -> keeps f a c.
Proof. unfold keeps. congruence. Qed.

(** ** What the front phase leaves alone *)

(** X8. [build_front] only builds: whether it returns or raises, it has
    handed nothing to the writer and printed nothing, and the phase, the
    position in the list of files, the page and the scenario are what they
    were. *)
Theorem build_front_only_builds (r : TextRegion) (w : world) :
  xf (build_front r w).2 = xf w
  /\ stdout (build_front r w).2 = stdout w
  /\ text_part (build_front r w).2 = text_part w
  /\ file_list (build_front r w).2 = file_list w
  /\ file_iter (build_front r w).2 = file_iter w
  /\ current_file (build_front r w).2 = current_file w
  /\ page (build_front r w).2 = page w
  /\ current_scenario (build_front r w).2 = current_scenario w.
Proof.
  assert (keeps around w (build_front r w).2) as H.
  { apply (steps_build_front (keeps around)).
    - apply keeps_refl.
    - apply keeps_trans.
    - apply builders_SubElement; [apply keeps_refl|apply keeps_trans|done].
    - apply builders_assign_text. done.
    - apply builders_assign. done.
    - done.
    - done. }
  unfold keeps, around in H. by simplify_eq.
Qed.

(** ** The writer and the phase *)

Lemma appended_refl (w : world) : appended w w.
Proof. exists []. by rewrite app_nil_r. Qed.

Lemma appended_trans (a b c : world) : appended a b -> appended b c -> appended a c.
Proof.
  intros [i1 H1] [i2 H2]. exists (i1 ++ i2)%list. by rewrite H2, H1, app_assoc.
Qed.

Lemma appended_same (w w' : world) : xf w' = xf w -> appended w w'.
Proof. intros H. exists []. by rewrite app_nil_r. Qed.

(** X9. The writer only ever receives more: a step of the body phase, the
    flush of the front and the whole document run leave everything that
    was handed to the writer in place, in its order, and at most add items
    after it; this holds also when they raise. *)
Theorem writer_only_appends (fs : files) (fuel : nat) (r : TextRegion) (n : Z)
    (w : world) :
  (exists items, xf (build_body r n w).2 = (xf w ++ items)%list)
  /\ (exists items, xf (write_front w).2 = (xf w ++ items)%list)
  /\ (exists items, xf (document fs fuel w).2 = (xf w ++ items)%list).
Proof.
  assert (forall tag attrs, steps appended (Element_ tag attrs)) as HE.
  { apply builders_Element. intros s w0. by apply appended_same. }
  assert (forall parent tag attrs, steps appended (SubElement parent tag attrs)) as HS.
  { apply builders_SubElement; [apply appended_refl|apply appended_trans|].
    intros s w0. by apply appended_same. }
  assert (forall e t, steps appended (assign_text e t)) as HT.
  { apply builders_assign_text. intros s w0. by apply appended_same. }
  assert (forall s v, steps appended (assign s v)) as HA.
  { apply builders_assign. intros s w0. by apply appended_same. }
  assert (forall m, steps appended (print m)) as HP.
  { intros m w0. by apply appended_same. }
  assert (forall i, steps appended (emit i)) as HW.
  { intros i w0. by exists [i]. }
  split; [|split].
  - apply (steps_body_branch_and_tail appended appended_refl appended_trans);
      try done; intros ? w0; by apply appended_same.
  - apply (steps_write_front appended appended_refl appended_trans); try done.
    intros w0. by apply appended_same.
  - apply (steps_document appended appended_refl appended_trans); try done;
      try (intros ? w0; by apply appended_same).
    + intros w0. by apply appended_same.
    + intros f o k w0. by apply appended_same.
Qed.

Lemma onward_refl (w : world) : onward w w.
Proof. by left. Qed.

Lemma onward_trans (a b c : world) : onward a b -> onward b c -> onward a c.
Proof. unfold onward. intros [H1|H1] [H2|H2]; rewrite ?H2, ?H1; auto. Qed.

Lemma onward_same (w w' : world) : text_part w' = text_part w -> onward w w'.
Proof. by left. Qed.

(** X10. The phase never goes back.  The body loop leaves the phase as it
    is, whatever happens in it; the front loop and the whole document run
    leave it as it is or set it to the body. *)
Theorem phase_never_reverts (fs : files) (fuel : nat) (tr : option TextRegion) (n : Z)
    (w : world) :
  text_part (body_while fs fuel tr n w).2 = text_part w
  /\ (text_part (front_while fs fuel tr w).2 = text_part w
      \/ text_part (front_while fs fuel tr w).2 = _BODY)
  /\ (text_part (document fs fuel w).2 = text_part w
      \/ text_part (document fs fuel w).2 = _BODY).
Proof.
  assert (forall tag attrs, steps onward (Element_ tag attrs)) as HE.
  { apply builders_Element. intros s w0. by apply onward_same. }
  assert (forall parent tag attrs, steps onward (SubElement parent tag attrs)) as HS.
  { apply builders_SubElement; [apply onward_refl|apply onward_trans|].
    intros s w0. by apply onward_same. }
  assert (forall e t, steps onward (assign_text e t)) as HT.
  { apply builders_assign_text. intros s w0. by apply onward_same. }
  assert (forall s v, steps onward (assign s v)) as HA.
  { apply builders_assign. intros s w0. by apply onward_same. }
  assert (forall m, steps onward (print m)) as HP.
  { intros m w0. by apply onward_same. }
  assert (forall i, steps onward (emit i)) as HW.
  { intros i w0. by apply onward_same. }
  assert (steps onward (modify (set_text_part _BODY))) as HB.
  { intros w0. by right. }
  assert (forall f o k, steps onward (modify (set_current_file f o k))) as HF.
  { intros f o k w0. by apply onward_same. }
  split; [|split].
  - apply (steps_body_while (keeps text_part) (keeps_refl _) (keeps_trans _)); try done.
    apply builders_SubElement; [apply keeps_refl|apply keeps_trans|done].
  - apply (steps_front_while onward onward_refl onward_trans); try done;
      intros ? w0; by apply onward_same.
  - apply (steps_document onward onward_refl onward_trans); try done;
      intros ? w0; by apply onward_same.
Qed.

(** ** The previous type and the act number *)

Lemma build_front_returned (r : TextRegion) (w w' : world) (u : unit) :
  build_front r w = (Ok u, w') -> previous_type w' = tr_type r.
Proof.
  unfold build_front.
  intros (prev & w1 & _ & H)%bind_Ok_inv.
  apply bind_Ok_inv in H as (? & w2 & _ & H).
  apply bind_Ok_inv in H as (? & w3 & _ & H).
  cbv [modify] in H. by simplify_eq.
Qed.

Lemma build_body_returned (r : TextRegion) (n n' : Z) (w w' : world) :
  build_body r n w = (Ok n', w') ->
  n' = (if is_type (tr_type r) "header" then n + 1 else n)
  /\ previous_type w' = tr_type r.
Proof.
  unfold build_body.
  intros (a & w1 & Ha & H)%bind_Ok_inv.
  apply bind_Ok_inv in H as (? & w2 & _ & H).
  apply bind_Ok_inv in H as (? & w3 & _ & H).
  apply bind_Ok_inv in H as (? & w4 & Hm & H).
  cbv [modify mret M_ret] in H, Hm. simplify_eq. split; [|done].
  destruct (is_type (tr_type r) "header").
  - repeat (apply bind_Ok_inv in Ha as (? & ? & _ & Ha)).
    cbv [mret M_ret] in Ha. by simplify_eq.
  - apply bind_Ok_inv in Ha as (? & ? & _ & Ha).
    cbv [mret M_ret] in Ha. by simplify_eq.
Qed.

(** X11. The type of a region becomes the previous type only when the
    region has been folded to the end: after [build_front] or
    [build_body] has returned, the previous type is the type of the region;
    after it has raised, the previous type is what it was before. *)
Theorem previous_type_after_a_region (r : TextRegion) (n : Z) (w : world) :
  match build_front r w with
  | (Ok _, w') => previous_type w' = tr_type r
  | (Raise _, w') => previous_type w' = previous_type w
  end
  /\ match build_body r n w with
     | (Ok _, w') => previous_type w' = tr_type r
     | (Raise _, w') => previous_type w' = previous_type w
     end.
Proof.
  assert (forall parent tag attrs,
            steps (keeps previous_type) (SubElement parent tag attrs)) as HS.
  { apply builders_SubElement; [apply keeps_refl|apply keeps_trans|done]. }
  split.
  - destruct (build_front r w) as [[u|e] w'] eqn:H.
    + by apply build_front_returned in H.
    + by apply (build_front_raised (keeps previous_type) (keeps_refl _) (keeps_trans _))
        in H.
  - destruct (build_body r n w) as [[n'|e] w'] eqn:H.
    + by apply build_body_returned in H as [_ ?].
    + by apply (build_body_raised (keeps previous_type) (keeps_refl _) (keeps_trans _))
        in H.
Qed.

(** The number of header regions of a list. *)
Lemma body_for_returned (l : list TextRegion) (tr tr' : option TextRegion) (n n' : Z)
    (w w' : world) :
  body_for l tr n w = (Ok (tr', n'), w') ->
  n <= n' <= n + Z.of_nat (length (List.filter (fun r => is_type (tr_type r) "header") l))
  /\ tr' = match list.last l with Some r => Some r | None => tr end.
Proof.
  revert tr n w. induction l as [|r l IH]; intros tr n w; cbn [body_for].
  - cbv [mret M_ret]. intros [= <- <- <-]. cbn. split; [lia|done].
  - intros (a & w1 & Ha & H)%bind_Ok_inv.
    apply IH in H as [Hn ->].
    assert (n <= a <= n + (if is_type (tr_type r) "header" then 1 else 0)) as Hna.
    { unfold try_except in Ha. destruct (build_body r n w) as [[n1|e] w0] eqn:Hb.
      - simplify_eq. apply build_body_returned in Hb as [-> _].
        destruct (is_type _ _); lia.
      - apply bind_Ok_inv in Ha as (? & ? & _ & Ha).
        cbv [mret M_ret] in Ha. simplify_eq. destruct (is_type _ _); lia. }
    split.
    + cbn [List.filter]. destruct (is_type (tr_type r) "header"); cbn [length]; lia.
    + destruct l as [|r' l']; [done|].
      change (list.last (r :: r' :: l')) with (list.last (r' :: l')).
      destruct (list.last (r' :: l')) eqn:E; [done|]. by apply last_None in E.
Qed.

(** X12. The act number goes up by one in a step that folds a header
    region to the end, and in no other: when [build_body] returns, it
    returns the number it was given plus one for a header and the number
    itself for any other region; over the regions that follow, the number
    the loop returns lies between the number it was given and that number
    plus the count of header regions among them. *)
Theorem act_number_counts_headers (l : list TextRegion) (tr tr' : option TextRegion)
    (r : TextRegion) (n n' m : Z) (w w' w1 : world) :
  build_body r n w = (Ok m, w1) ->
  body_for l tr m w1 = (Ok (tr', n'), w') ->
  m = (if is_type (tr_type r) "header" then n + 1 else n)
  /\ m <= n'
     <= m + Z.of_nat (length (List.filter (fun r => is_type (tr_type r) "header") l)).
Proof.
  intros [? _]%build_body_returned [? _]%body_for_returned. by split.
Qed.

Lemma act_number_counts_headers_witness :
  let w := More.before_header.1.1 in
  let r := More.before_header.1.2 in
  let l := drop 1 (pg_text_region_list (page w)) in
  tr_type r = Some "header"
  /\ build_body r 0 w = (Ok 1, (build_body r 0 w).2)
  /\ body_for l (Some r) 1 (build_body r 0 w).2
     = (Ok (list.last l, 1), (body_for l (Some r) 1 (build_body r 0 w).2).2)
  /\ 1 = (if is_type (tr_type r) "header" then 0 + 1 else 0)
  /\ 1 <= 1
     <= 1 + Z.of_nat (length (List.filter (fun r => is_type (tr_type r) "header") l)).
Proof.
  intros w r l.
  assert (build_body r 0 w = (Ok 1, (build_body r 0 w).2)) as H1
    by (vm_compute; reflexivity).
  assert (body_for l (Some r) 1 (build_body r 0 w).2
          = (Ok (list.last l, 1), (body_for l (Some r) 1 (build_body r 0 w).2).2)) as H2
    by (vm_compute; reflexivity).
  split; [reflexivity|]. split; [exact H1|]. split; [exact H2|].
  exact (act_number_counts_headers l (Some r) (list.last l) r 0 1 1 w _ _ H1 H2).
Defined.

(** ** The loops *)

Lemma keeps_position_body_for (l : list TextRegion) (tr : option TextRegion) (n : Z)
    (w : world) :
  position (body_for l tr n w).2 = position w.
Proof.
  apply (steps_body_for (keeps position) (keeps_refl _) (keeps_trans _)); try done.
  apply builders_SubElement; [apply keeps_refl|apply keeps_trans|done].
Qed.

Lemma is_last_region_of_last (l : list TextRegion) (tr : option TextRegion) (w : world) :
  pg_text_region_list (page w) = l ->
  is_last_region (match list.last l with Some r => Some r | None => tr end) w
  = (Ok true, w)
  \/ exists e, is_last_region (match list.last l with Some r => Some r | None => tr end) w
               = (Raise e, w).
Proof.
  intros Hl. unfold is_last_region, py_last.
  destruct (list.last l) as [r|] eqn:Hlast.
  - left. cbv [mbind M_bind read lift]. rewrite Hl, Hlast. cbn.
    by rewrite Nat.eqb_refl.
  - right. destruct tr as [r|]; [|by eexists].
    exists IndexError. cbv [mbind M_bind read lift]. by rewrite Hl, Hlast.
Qed.

Lemma next_page_returned (fs : files) (w w' : world) (u : unit) :
  next_page fs w = (Ok u, w') ->
  file_list w' = file_list w /\ text_part w' = text_part w
  /\ ((exists f, file_list w !! file_iter w = Some f
                 /\ file_iter w' = S (file_iter w) /\ current_file w' = f
                 /\ (f = "end" -> page w' = page w)
                 /\ (f ≠ "end" -> Page_init fs f 50 = Ok (page w')))
      \/ (file_list w !! file_iter w = None
          /\ file_iter w' = file_iter w /\ current_file w' = "end"
          /\ page w' = page w)).
Proof.
  destruct u. unfold next_page. cbv [mbind M_bind read modify when skip mret M_ret].
  destruct (file_list w !! file_iter w) as [f|] eqn:Hf; cbn.
  - destruct (String.eqb_spec f "end") as [->|Hne]; cbn.
    + intros [= <-]. cbn. do 2 (split; [done|]). left. exists "end". by repeat split.
    + destruct (Page_init fs f 50) as [pg|] eqn:Hpg; [|done]. cbn.
      intros [= <-]. cbn. do 2 (split; [done|]). left. exists f. by repeat split.
  - intros [= <-]. cbn. do 2 (split; [done|]). by right.
Qed.

Lemma body_while_at_end (fs : files) (fuel : nat) (tr : option TextRegion) (n : Z)
    (w : world) :
  current_file w = "end" -> body_while fs fuel tr n w = (Ok (Some n), w).
Proof.
  intros Hend. destruct fuel; cbn [body_while]; cbv [mbind M_bind read];
    by rewrite Hend.
Qed.

(** X13. The body loop always ends: every round that does not end the
    run with an exception takes the next file from the list or finds the
    list exhausted, so that one round more than there are files left is
    enough. *)
Theorem body_loop_ends (fs : files) (fuel : nat) (tr : option TextRegion) (n : Z)
    (w : world) :
  (length (file_list w) - file_iter w < fuel)%nat ->
  (body_while fs fuel tr n w).1 ≠ Ok None.
Proof.
  revert tr n w. induction fuel as [|fuel IH]; intros tr n w Hfuel; [lia|].
  cbn [body_while]. cbv [mbind M_bind read].
  destruct (negb (String.eqb (current_file w) "end")); [|done].
  pose proof (keeps_position_body_for (pg_text_region_list (page w)) tr n w) as Hpos.
  destruct (body_for (pg_text_region_list (page w)) tr n w) as [[[tr' n']|e] w1] eqn:Hfor;
    [|done].
  cbn in Hpos. unfold position in Hpos.
  injection Hpos as Hfl1 Hit1 _ _ Hpg1 _.
  apply body_for_returned in Hfor as [_ ->].
  assert (pg_text_region_list (page w1) = pg_text_region_list (page w)) as Hl
    by (by rewrite Hpg1).
  destruct (is_last_region_of_last _ tr w1 Hl) as [->|[e ->]]; [|done]. cbn.
  destruct (next_page fs w1) as [[u|e] w2] eqn:Hnext; [|done].
  apply next_page_returned in Hnext as (Hfl & _ & [(f & Hf & Hit & _)|(_ & _ & Hend & _)]).
  - apply IH. rewrite Hfl, Hit.
    apply lookup_lt_Some in Hf. rewrite Hfl1, Hit1 in *. lia.
  - by rewrite body_while_at_end.
Qed.

Lemma body_loop_ends_witness :
  (length (file_list Sample.before_paragraph.1.1)
   - file_iter Sample.before_paragraph.1.1 < 1)%nat
  /\ (body_while Sample.header_paragraph 1 None 0 Sample.before_paragraph.1.1).1 ≠ Ok None.
Proof.
  split; [vm_compute; lia|].
  apply (body_loop_ends Sample.header_paragraph 1 None 0 Sample.before_paragraph.1.1).
  vm_compute; lia.
Defined.

(** ** A front that is never left *)

Lemma keeps_position_front_region (r : TextRegion) (w : world) :
  position (try_except (build_front r) (report _FRONT r) w).2 = position w.
Proof.
  revert w.
  change (steps (keeps position) (try_except (build_front r) (report _FRONT r))).
  apply steps_try_except; [apply keeps_trans| |intros e].
  - apply steps_build_front; try done; try apply keeps_refl; try apply keeps_trans.
    apply builders_SubElement; [apply keeps_refl|apply keeps_trans|done].
  - apply steps_report; try done; try apply keeps_refl; try apply keeps_trans.
Qed.

Lemma front_region_returns (r : TextRegion) (w : world) :
  printable r = true ->
  exists w1, try_except (build_front r) (report _FRONT r) w = (Ok tt, w1)
             /\ position w1 = position w.
Proof.
  intros Hr. pose proof (keeps_position_front_region r w) as Hpos.
  assert (exists w1, try_except (build_front r) (report _FRONT r) w = (Ok tt, w1))
    as [w1 Hw1].
  { unfold try_except. destruct (build_front r w) as [[[]|e] w1]; [by eexists|].
    unfold report, printable in *. cbv [mbind M_bind read lift print modify].
    destruct (TextRegion_str r); [by eexists|done]. }
  exists w1. split; [done|]. by rewrite Hw1 in Hpos.
Qed.

Lemma front_for_returns (l : list TextRegion) (tr : option TextRegion) (w : world) :
  forallb (fun r => negb (type_in (tr_type r) BODY_MARKER) && printable r) l = true ->
  exists w1,
    front_for l tr w = (Ok (match list.last l with Some r => Some r | None => tr end), w1)
    /\ position w1 = position w.
Proof.
  revert tr w. induction l as [|r l IH]; intros tr w Hl.
  - by exists w.
  - cbn [forallb] in Hl. apply andb_prop in Hl as [[Hm Hp]%andb_prop Hl].
    apply negb_true_iff in Hm. cbn [front_for]. rewrite Hm.
    destruct (front_region_returns r w Hp) as (w1 & Hw1 & Hpos1).
    destruct (IH (Some r) w1 Hl) as (w2 & Hw2 & Hpos2).
    exists w2. split; [|congruence].
    cbv [mbind M_bind]. rewrite Hw1, Hw2. rewrite last_cons.
    by destruct (list.last l).
Qed.

Lemma is_last_region_true (r : TextRegion) (w : world) :
  list.last (pg_text_region_list (page w)) = Some r ->
  is_last_region (Some r) w = (Ok true, w).
Proof.
  intros Hlast. unfold is_last_region, py_last. cbv [mbind M_bind read lift].
  rewrite Hlast. cbn. by rewrite Nat.eqb_refl.
Qed.

Lemma front_only_first (w : world) :
  front_only (page w) = true -> first_is_body_marker w = (Ok false, w).
Proof.
  unfold front_only, first_is_body_marker, py_first. cbv [mbind M_bind read lift].
  destruct (pg_text_region_list (page w)) as [|r l]; [done|].
  cbn [forallb]. intros [[Hm _]%andb_prop _]%andb_prop.
  apply negb_true_iff in Hm. by rewrite Hm.
Qed.

Lemma front_pages_next_page (fs : files) (w : world) :
  front_pages fs (file_list w) = true -> front_only (page w) = true ->
  exists w', next_page fs w = (Ok tt, w')
             /\ file_list w' = file_list w /\ text_part w' = text_part w
             /\ front_only (page w') = true.
Proof.
  intros Hfs Hpg.
  assert (exists w', next_page fs w = (Ok tt, w')) as [w' Hw'].
  { unfold next_page. cbv [mbind M_bind read modify when skip mret M_ret].
    destruct (file_list w !! file_iter w) as [f|] eqn:Hf; cbn; [|by eexists].
    destruct (negb (String.eqb f "end")); [|by eexists].
    unfold front_pages in Hfs. rewrite forallb_forall in Hfs.
    specialize (Hfs f). cbn.
    destruct (Page_init fs f 50); [by eexists|].
    apply list_elem_of_lookup_2, list_elem_of_In in Hf. by apply Hfs in Hf. }
  exists w'. split; [done|].
  apply next_page_returned in Hw' as (Hfl & Htp & Hcases).
  do 2 (split; [done|]).
  destruct Hcases as [(f & Hf & _ & _ & Hend & Hload)|(_ & _ & _ & ->)]; [|done].
  destruct (decide (f = "end")) as [He|He]; [by rewrite Hend|].
  apply Hload in He. unfold front_pages in Hfs. rewrite forallb_forall in Hfs.
  apply list_elem_of_lookup_2, list_elem_of_In, Hfs in Hf. by rewrite He in Hf.
Qed.

Lemma front_while_never_leaves (fs : files) (fuel : nat) (tr : option TextRegion)
    (w : world) :
  text_part w = _FRONT -> front_only (page w) = true ->
  front_pages fs (file_list w) = true ->
  (front_while fs fuel tr w).1 = Ok None.
Proof.
  revert tr w. induction fuel as [|fuel IH]; intros tr w Htp Hpg Hfs.
  - cbn [front_while]. cbv [mbind M_bind read]. by rewrite Htp.
  - cbn [front_while]. cbv [mbind M_bind read]. rewrite Htp. cbn.
    assert (exists r, list.last (pg_text_region_list (page w)) = Some r
                      /\ forallb (fun r => negb (type_in (tr_type r) BODY_MARKER)
                                           && printable r)
                           (pg_text_region_list (page w)) = true) as (r & Hlast & Hall).
    { unfold front_only in Hpg. destruct (pg_text_region_list (page w)) as [|r l] eqn:Hl;
        [done|]. destruct (list.last (r :: l)) as [r'|] eqn:Hlast; [by exists r'|].
      by apply last_None in Hlast. }
    destruct (front_for_returns _ tr w Hall) as (w1 & -> & Hpos).
    rewrite Hlast. unfold position in Hpos.
    injection Hpos as Hfl1 _ _ _ Hpg1 Htp1.
    rewrite is_last_region_true by (by rewrite Hpg1). cbn.
    destruct (front_pages_next_page fs w1) as (w2 & -> & Hfl2 & Htp2 & Hpg2);
      [by rewrite Hfl1|by rewrite Hpg1|].
    rewrite (front_only_first w2 Hpg2).
    apply IH; [congruence|done|congruence].
Qed.

Lemma Conversion_init_front_pages (fs : files) (glob_result : list string) :
  glob_result ≠ [] -> front_pages fs glob_result = true ->
  exists w, Conversion_init fs glob_result = Ok w
            /\ text_part w = _FRONT /\ front_only (page w) = true
            /\ front_pages fs (file_list w) = true.
Proof.
  intros Hne Hfs. unfold Conversion_init.
  pose proof (py_sort_perm id String.leb glob_result) as Hperm.
  assert (front_pages fs (py_sort id String.leb glob_result) = true) as Hsorted.
  { unfold front_pages in *. rewrite forallb_forall in *. intros f Hf.
    apply Hfs. apply list_elem_of_In. rewrite <- Hperm. by apply list_elem_of_In. }
  destruct (py_sort id String.leb glob_result) as [|f l] eqn:Hl.
  { by apply Permutation_nil_l in Hperm. }
  pose proof Hsorted as Hf. cbn [front_pages forallb] in Hf.
  apply andb_prop in Hf as [Hf _].
  destruct (Page_init fs f 50) as [pg|]; [|done].
  eexists. by repeat split.
Qed.

Lemma xf_element_result {A} (name : string) (attrs : list (string * string))
    (body : M A) (w : world) :
  (xf_element name attrs body w).1 = (body (set_xf (xf w ++ [StartTag name attrs]) w)).1.
Proof.
  unfold xf_element. cbv [mbind M_bind emit modify mret M_ret].
  by destruct (body _) as [[a|e] w'].
Qed.

Lemma passes_emit (i : item) : passes (emit i) tt.
Proof. intros w. by eexists. Qed.

Lemma passes_bind {A B} (m : M A) (k : A -> M B) (a : A) (b : B) :
  passes m a -> passes (k a) b -> passes (m ≫= k) b.
Proof.
  intros Hm Hk w. destruct (Hm w) as (w1 & Hw1 & Hpos1).
  destruct (Hk w1) as (w2 & Hw2 & Hpos2). exists w2.
  cbv [mbind M_bind]. rewrite Hw1. split; [done|congruence].
Qed.

Lemma passes_xf_element {A} (name : string) (attrs : list (string * string))
    (body : M A) (a : A) :
  passes body a -> passes (xf_element name attrs body) a.
Proof.
  intros Hbody. unfold xf_element.
  eapply passes_bind; [apply passes_emit|].
  eapply passes_bind; [apply Hbody|].
  eapply passes_bind; [apply passes_emit|]. intros w. by exists w.
Qed.

Lemma passes_teiHeader : passes teiHeader tt.
Proof.
  unfold teiHeader.
  repeat lazymatch goal with
    | |- passes (xf_element _ _ _) _ => apply passes_xf_element
    | |- passes (emit _) _ => apply passes_emit
    | |- passes (mbind _ _) _ => eapply passes_bind
    end.
Qed.

Lemma text_element_never_leaves (fs : files) (fuel : nat) (w : world) :
  text_part w = _FRONT -> front_only (page w) = true ->
  front_pages fs (file_list w) = true ->
  (text_element fs fuel w).1 = Ok false.
Proof.
  intros Htp Hpg Hfs. unfold text_element. rewrite xf_element_result.
  set (w1 := set_xf _ w).
  assert (position w1 = position w) as Hpos by done. clearbody w1.
  unfold position in Hpos. injection Hpos as Hfl1 _ _ _ Hpg1 Htp1.
  rewrite <- Hfl1 in Hfs. rewrite <- Hpg1 in Hpg. rewrite <- Htp1 in Htp.
  cbv [mbind M_bind]. rewrite (front_only_first w1 Hpg).
  cbv [when skip mret M_ret read]. rewrite Htp, String.eqb_refl.
  cbv [Element_ assign modify].
  set (w2 := set_refs _ _).
  pose proof (front_while_never_leaves fs fuel None w2 Htp Hpg Hfs) as Hloop.
  clearbody w2.
  destruct (front_while fs fuel None w2) as [[m|e] w3]; cbn in Hloop; [|done].
  by injection Hloop as ->.
Qed.

(** X14. A run over pages none of whose regions is a body marker never
    ends: when the pattern matches files, each of them loads and every
    page has regions, all printable and none of a body-marker type, the
    front loop is left after no number of rounds (at the end of the
    list the last page is gone through again and again), and nothing is
    written. *)
Theorem run_without_body_marker_never_ends (fs : files) (glob_result : list string)
    (result_file : string) (fuel : nat) :
  glob_result ≠ [] -> front_pages fs glob_result = true ->
  main fs fuel glob_result result_file = None.
Proof.
  intros Hne Hfs. unfold main.
  destruct (Conversion_init_front_pages fs glob_result Hne Hfs)
    as (w & -> & Htp & Hpg & Hfl).
  assert ((document fs fuel w).1 = Ok false) as Hdoc.
  { unfold document. cbv [mbind M_bind emit modify].
    rewrite xf_element_result.
    set (w1 := set_xf _ _).
    assert (position w1 = position w) as Hpos by done. clearbody w1.
    destruct (passes_teiHeader w1) as (w2 & Hw2 & Hpos2).
    cbv [mbind M_bind]. rewrite Hw2.
    rewrite Hpos in Hpos2. unfold position in Hpos2.
    injection Hpos2 as Hfl2 _ _ _ Hpg2 Htp2.
    apply text_element_never_leaves; congruence. }
  unfold create_tei. destruct (document fs fuel w) as [[[]|e] w']; by cbn in Hdoc.
Qed.

Lemma run_without_body_marker_never_ends_witness :
  main More.preface_only 3 ["data/p1.xml"] "out.xml" = None.
Proof.
  apply (run_without_body_marker_never_ends More.preface_only ["data/p1.xml"] "out.xml" 3);
    [done|vm_compute; reflexivity].
Defined.

(** ** What reaches the writer between two headers *)

Lemma at_end_of_stream_reads (r : TextRegion) (w : world) :
  (at_end_of_stream r w).2 = w.
Proof.
  unfold at_end_of_stream. cbv [mbind M_bind read lift mret M_ret].
  destruct (py_last (file_list w)); [|done].
  destruct (bool_decide _); [|done].
  by destruct (py_last (pg_text_region_list (page w))).
Qed.

Lemma at_end_of_stream_position (r : TextRegion) (w w' : world) :
  position w' = position w -> (at_end_of_stream r w').1 = (at_end_of_stream r w).1.
Proof.
  unfold position. intros [= Hfl _ _ Hobj Hpg _].
  unfold at_end_of_stream. cbv [mbind M_bind read lift mret M_ret].
  rewrite Hfl, Hobj. destruct (py_last (file_list w)); [|done].
  destruct (bool_decide _); [|done]. cbv beta. rewrite Hpg.
  by destruct (py_last (pg_text_region_list (page w))).
Qed.

Lemma quiet_refl (r : TextRegion) (w : world) : quiet r w w.
Proof. by intros _. Qed.

Lemma quiet_trans (r : TextRegion) (a b c : world) :
  quiet r a b -> quiet r b c -> quiet r a c.
Proof.
  intros Hab Hbc Ha. destruct (Hab Ha) as [Hx Hp].
  destruct Hbc as [Hx' Hp'].
  { unfold before_the_end. by rewrite (at_end_of_stream_position r a b Hp). }
  split; congruence.
Qed.

Lemma quiet_same (r : TextRegion) (w w' : world) :
  xf w' = xf w -> position w' = position w -> quiet r w w'.
Proof. by intros Hx Hp _. Qed.

(** X15. What is built of an act stays with the converter until the next
    header or the end of the input: a step of the body phase on a region
    that is no header, no heading and no catch-word, and that is not the
    last region of the last page, hands nothing to the writer, whether it
    returns or raises. *)
Theorem nothing_written_between_headers (r : TextRegion) (n : Z) (w : world) :
  is_type (tr_type r) "header" = false ->
  is_type (tr_type r) "heading" = false ->
  is_type (tr_type r) "catch-word" = false ->
  before_the_end r w ->
  xf (build_body r n w).2 = xf w.
Proof.
  intros Hh Hg Hc Hend.
  assert (forall parent tag attrs, steps (quiet r) (SubElement parent tag attrs)) as HS.
  { apply builders_SubElement; [apply quiet_refl|apply quiet_trans|].
    intros s w0. by apply quiet_same. }
  assert (forall e t, steps (quiet r) (assign_text e t)) as HT.
  { apply builders_assign_text. intros s w0. by apply quiet_same. }
  assert (forall s v, steps (quiet r) (assign s v)) as HA.
  { apply builders_assign. intros s w0. by apply quiet_same. }
  assert (forall m, steps (quiet r) (print m)) as HP.
  { intros m w0. by apply quiet_same. }
  assert (forall s, steps (quiet r) (modify (set_current_scenario s))) as HC.
  { intros s w0. by apply quiet_same. }
  assert (forall a : Z,
            steps (quiet r)
              (e ← at_end_of_stream r;
               when e (a0 ← self act; xf_write a0);;
               modify (set_previous_type (tr_type r));;
               mret a)) as Htail.
  { intros a w0 Hw0. unfold before_the_end in Hw0.
    pose proof (at_end_of_stream_reads r w0) as Hreads.
    cbv [mbind M_bind].
    destruct (at_end_of_stream r w0) as [[[]|e] w1]; cbn in Hreads, Hw0; subst w1;
      by cbn. }
  assert (steps (quiet r) (build_body r n)) as H.
  { apply (steps_build_body_between (quiet r));
      first [done | apply quiet_refl | apply quiet_trans]. }
  by destruct (H w Hend).
Qed.

Lemma nothing_written_between_headers_witness :
  let w := More.before_first_caption.1.1 in
  let r := More.before_first_caption.1.2 in
  tr_type r = Some "caption" /\ xf (build_body r 1 w).2 = xf w.
Proof.
  intros w r. split; [reflexivity|].
  apply (nothing_written_between_headers r 1 w); try reflexivity.
  vm_compute. discriminate.
Defined.

(** ** The constructor *)

(** X16. The constructor starts at the least file: when it returns, the
    file list is the matched files in ascending order, the current file
    is the first of them (["end"] when there is none) and is no greater
    than any matched file, the page is that file as loaded, the phase is
    the front, and nothing has been built, written or printed. *)
Theorem constructor_starts_at_least_file (fs : files) (glob_result : list string)
    (w : world) :
  Conversion_init fs glob_result = Ok w ->
  file_list w ≡ₚ glob_result
  /\ StronglySorted (fun a b => String.leb a b = true) (file_list w)
  /\ current_file w = default "end" (head (file_list w))
  /\ Forall (fun g => String.leb (current_file w) g = true) glob_result
  /\ file_iter w = length (take 1 (file_list w))
  /\ Page_init fs (current_file w) 50 = Ok (page w)
  /\ text_part w = _FRONT
  /\ store w = [] /\ xf w = [] /\ stdout w = [].
Proof.
  unfold Conversion_init. intros Hinit.
  pose proof (py_sort_perm id String.leb glob_result) as Hperm.
  pose proof (py_sort_strongly_sorted id String.leb String.leb_total String_leb_trans
                glob_result) as Hsorted.
  pose proof (py_sort_first id String.leb String.leb_total String_leb_trans) as Hfirst.
  destruct (py_sort id String.leb glob_result) as [|f rest] eqn:Hl.
  - apply Permutation_nil in Hperm. subst glob_result.
    destruct (Page_init fs "end" 50) as [pg|] eqn:Hpg; [|done].
    cbn in Hinit. injection Hinit as <-. cbn. by repeat split.
  - specialize (Hfirst f rest glob_result Hl) as [Hleast _].
    destruct (Page_init fs f 50) as [pg|] eqn:Hpg; [|done].
    cbn in Hinit. injection Hinit as <-. cbn. by repeat split.
Qed.

Lemma constructor_starts_at_least_file_witness :
  Conversion_init Sample.two_pages ["data/p2.xml"; "data/p1.xml"]
  = Ok More.two_pages_start
  /\ current_file More.two_pages_start = "data/p1.xml"
  /\ Forall (fun g => String.leb (current_file More.two_pages_start) g = true)
        ["data/p2.xml"; "data/p1.xml"].
Proof.
  assert (Conversion_init Sample.two_pages ["data/p2.xml"; "data/p1.xml"]
          = Ok More.two_pages_start) as Hinit by (vm_compute; reflexivity).
  split; [exact Hinit|]. split; [reflexivity|].
  exact (proj1 (proj2 (proj2 (proj2
           (constructor_starts_at_least_file Sample.two_pages
              ["data/p2.xml"; "data/p1.xml"] More.two_pages_start Hinit))))).
Defined.

(** X17. A pattern that matches no file ends the script in the
    constructor: the current file is then the literal ["end"], which is
    loaded as a page, and unless a file of that name exists the
    constructor raises [OSError], which nothing handles. *)
Theorem run_on_no_files_crashes (fs : files) (fuel : nat) (result_file : string) :
  fs !! "end" = None ->
  main fs fuel [] result_file = Some (Crashed OSError).
Proof.
  intros Hend. unfold main, Conversion_init, Page_init. cbn. by rewrite Hend.
Qed.

Lemma run_on_no_files_crashes_witness :
  main Sample.two_pages 1 [] "out.xml" = Some (Crashed OSError).
Proof. apply (run_on_no_files_crashes Sample.two_pages 1 "out.xml"). reflexivity. Defined.

(** ** Reading and printing a region *)

Lemma mapM_same_outcome {A B C} (f : A -> result B) (g : A -> result C) (l : list A) :
  (forall x, match f x with
             | Ok _ => exists y, g x = Ok y
             | Raise e => g x = Raise e
             end) ->
  match mapM f l with
  | Ok _ => exists ys, mapM g l = Ok ys
  | Raise e => mapM g l = Raise e
  end.
Proof.
  intros Hfg. induction l as [|x l IH]; cbn; [by eexists|].
  specialize (Hfg x). destruct (f x) as [y|e]; cbn.
  - destruct Hfg as [z ->]. cbn.
    destruct (mapM f l) as [ys|e]; cbn.
    + destruct IH as [zs ->]. by eexists.
    + by rewrite IH.
  - by rewrite Hfg.
Qed.

(** X18. A region whose text cannot be read cannot be reported either:
    [str(text_region)] reads the text of the same lines in the same
    order as [concatenate_lines], so it returns when that returns, and
    when that raises, it raises the same exception, and with it the
    [except] clause of the region loops, whatever exception it was
    reporting. *)
Theorem unreadable_region_is_not_reported (r : TextRegion) :
  match concatenate_lines r with
  | Ok _ => exists s, TextRegion_str r = Ok s
  | Raise e =>
      TextRegion_str r = Raise e
      /\ forall part e' w, report part r e' w = (Raise e, w)
  end.
Proof.
  unfold concatenate_lines, TextRegion_str.
  pose proof (mapM_same_outcome get_text TextLine_str (tr_line r)) as H.
  destruct (mapM get_text (tr_line r)) as [ts|e]; cbn.
  - destruct H as [ls ->]; [|by eexists].
    intros ln. unfold TextLine_str. destruct (get_text ln); cbn; [by eexists|done].
  - assert (mapM TextLine_str (tr_line r) = Raise e) as Hstr.
    { apply H. intros ln. unfold TextLine_str.
      destruct (get_text ln); cbn; [by eexists|done]. }
    rewrite Hstr. split; [done|].
    intros part e' w. unfold report, TextRegion_str.
    cbv [mbind M_bind read lift]. by rewrite Hstr.
Qed.
